(** * Stream supervision layer of the RTSP camera system

    A shallow embedding of [camera_app/app.py] (class [CameraStream], class
    [RTSPWebServer]) and [camera_app/recorder.py] (class [RTSPRecorder]),
    with the properties of the frame cache, of the capture worker's
    shutdown and of the recording supervisor; and of the programs around
    them: [camera_app/start_system.py] (class [SystemManager]),
    [camera_app/cleaner.py] (class [RecordingCleaner]) and
    [test_rtsp_connection] of [camera_app/scan_cameras.py].

    Conventions.
    - Wall-clock readings ([time.time()]) and durations are rationals.
    - Python objects that are shared by reference (frames, capture
      handles, subprocess handles) live in explicit stores; a reference
      is the index of the object in its store.
    - What the outside world decides (does a read succeed, does ffmpeg
      start, when does a subprocess exit) is an explicit input of the
      operation that observes it. *)

From Stdlib Require Import QArith Qround Lqa.
From stdpp Require Import gmap strings pretty list fin_maps.

Local Open Scope Z_scope.

(** ** Configuration ([config.json]) *)

(** One entry of [config['cameras']]. *)
Record Camera := {
  cam_id : string;
  cam_name : string;
  cam_rtsp_url : string;
  cam_enabled : bool
}.

(** The parsed [config.json]. *)
Record Config := {
  cameras_of : list Camera;            (* config['cameras'] *)
  ffmpeg_reconnect_delay : Q;
  segment_duration : Z;
  recordings_path : string
}.

(** [int(x)] of a Python float: truncation toward zero. *)
Definition py_int (x : Q) : Z :=
  if Qlt_le_dec x 0 then Qceiling x else Qfloor x.

(** * app.py *)
Module App.

(** ** Frames *)

(** A frame is a numpy array; the heap holds every array allocated so
    far and a reference is its position. *)
Abbreviation ndarray := (list Z).
Abbreviation heap := (list (list Z)).

(** [a.copy()]: a new array with the same contents. *)
Definition ndarray_copy (r : nat) (h : heap) : option nat * heap :=
  match h !! r with
  | Some px => (Some (length h), h ++ [px])
  | None => (None, h)
  end.

(** ** Capture handles ([cv2.VideoCapture]) *)

Record VideoCapture := {
  isOpened : bool;
  releases : nat            (* how many times [release()] was called *)
}.

Definition release (c : VideoCapture) : VideoCapture :=
  {| isOpened := false; releases := S (releases c) |}.

(** ** The capture thread

    Program points of [_capture_frames] (with [_connect_camera] inlined)
    at which another thread can observe or change [self.cap] and
    [self.running]. *)
Inductive pc :=
  | LoopTop            (* line 73: while self.running *)
  | CheckCap           (* line 75: self.cap is None or not isOpened() *)
  | ConnectRelease     (* lines 51-52: release the old handle *)
  | ConnectOpen        (* lines 58-61: cv2.VideoCapture(url), blocking *)
  | Read               (* line 80: self.cap.read(), blocking *)
  | ReadFailRelease    (* line 88: self.cap.release() *)
  | ReadFailClear      (* line 89: self.cap = None *)
  | ExceptRelease      (* lines 94-95: if self.cap: self.cap.release() *)
  | ExceptClear        (* line 96: self.cap = None *)
  | Sleeping (d : Q)   (* lines 77, 90, 97: time.sleep(d) *)
  | Finished.          (* the loop condition was false *)

(** ** class CameraStream *)
Record CameraStream := {
  camera_id : string;
  camera_name : string;
  rtsp_url : string;
  cap : option nat;              (* reference into the handle store *)
  last_frame : option nat;       (* reference into the frame heap *)
  last_frame_time : Q;
  running : bool;
  thread : option pc             (* None: no thread object *)
}.

(** [CameraStream.__init__] *)
Definition CameraStream_init (camera_config : Camera) : CameraStream :=
  {| camera_id := cam_id camera_config;
     camera_name := cam_name camera_config;
     rtsp_url := cam_rtsp_url camera_config;
     cap := None;
     last_frame := None;
     last_frame_time := 0%Q;
     running := false;
     thread := None |}.

(** Lines 83-85: a successful read stores the new frame and the time of
    the read.  [cap.read()] hands out a freshly allocated array. *)
Definition store_frame (px : ndarray) (t : Q) (s : heap * CameraStream)
  : heap * CameraStream :=
  let '(h, cs) := s in
  (h ++ [px],
   {| camera_id := camera_id cs; camera_name := camera_name cs;
      rtsp_url := rtsp_url cs; cap := cap cs;
      last_frame := Some (length h);
      last_frame_time := t;
      running := running cs; thread := thread cs |}).

(** [CameraStream.get_frame], called when [time.time()] reads [now]. *)
Definition get_frame (now : Q) (s : heap * CameraStream) : option nat * heap :=
  let '(h, cs) := s in
  match last_frame cs with
  | Some f =>
      if Qlt_le_dec (now - last_frame_time cs) 10
      then ndarray_copy f h
      else (None, h)
  | None => (None, h)
  end.

(** The state after a sequence of successful reads, oldest first. *)
Definition after_writes (camera_config : Camera) (ws : list (ndarray * Q))
  : heap * CameraStream :=
  fold_left (fun s w => store_frame w.1 w.2 s) ws
            ([], CameraStream_init camera_config).

(** [CameraStream.start] *)
Definition start (cs : CameraStream) : CameraStream :=
  if running cs then cs
  else {| camera_id := camera_id cs; camera_name := camera_name cs;
          rtsp_url := rtsp_url cs; cap := cap cs;
          last_frame := last_frame cs;
          last_frame_time := last_frame_time cs;
          running := true; thread := Some LoopTop |}.

(** ** A worker and its caller, interleaved

    [stop] runs on the caller's thread while [_capture_frames] runs on
    the worker's; both touch [self.cap] and [self.running] without a
    lock.  The pair is modelled as two small-step machines over one
    shared store, driven by a schedule. *)

(** Program points of [stop], between which the capture thread can run. *)
Inductive stop_pc :=
  | StopIdle           (* not inside stop(); the next step is line 109 *)
  | StopJoin           (* lines 110-111: self.thread.join(timeout=2) *)
  | StopTest           (* line 112: if self.cap *)
  | StopRelease        (* line 113: self.cap.release() *)
  | StopClear.         (* line 114: self.cap = None *)

Record worker := {
  self : CameraStream;
  frames : heap;
  handles : list VideoCapture;     (* every VideoCapture ever constructed *)
  at_stop : stop_pc;
  join_waits : list Q;             (* time blocked in each join() so far *)
  join_timeouts : nat;             (* joins that returned with the thread alive *)
  stops_returned : nat;            (* completed calls of stop() *)
  stops_raised : nat               (* calls of stop() ended by AttributeError *)
}.

Definition set_cap (c : option nat) (cs : CameraStream) : CameraStream :=
  {| camera_id := camera_id cs; camera_name := camera_name cs;
     rtsp_url := rtsp_url cs; cap := c; last_frame := last_frame cs;
     last_frame_time := last_frame_time cs; running := running cs;
     thread := thread cs |}.

Definition set_running (b : bool) (cs : CameraStream) : CameraStream :=
  {| camera_id := camera_id cs; camera_name := camera_name cs;
     rtsp_url := rtsp_url cs; cap := cap cs; last_frame := last_frame cs;
     last_frame_time := last_frame_time cs; running := b;
     thread := thread cs |}.

Definition set_thread (p : option pc) (cs : CameraStream) : CameraStream :=
  {| camera_id := camera_id cs; camera_name := camera_name cs;
     rtsp_url := rtsp_url cs; cap := cap cs; last_frame := last_frame cs;
     last_frame_time := last_frame_time cs; running := running cs;
     thread := p |}.

Definition with_self (f : CameraStream -> CameraStream) (w : worker) : worker :=
  {| self := f (self w); frames := frames w; handles := handles w;
     at_stop := at_stop w; join_waits := join_waits w;
     join_timeouts := join_timeouts w; stops_returned := stops_returned w;
     stops_raised := stops_raised w |}.

Definition with_handles (hs : list VideoCapture) (w : worker) : worker :=
  {| self := self w; frames := frames w; handles := hs;
     at_stop := at_stop w; join_waits := join_waits w;
     join_timeouts := join_timeouts w; stops_returned := stops_returned w;
     stops_raised := stops_raised w |}.

Definition goto (p : pc) : worker -> worker := with_self (set_thread (Some p)).

(** [self.cap.release()] on the handle [c]. *)
Definition release_handle (c : nat) (w : worker) : worker :=
  with_handles (alter release c (handles w)) w.

(** [self.cap.isOpened()] on the handle [c]. *)
Definition handle_open (c : nat) (w : worker) : bool :=
  match handles w !! c with
  | Some v => isOpened v
  | None => false
  end.

(** What the camera does when the thread next touches it. *)
Inductive read_outcome :=
  | ReadOk (px : ndarray)      (* ret = True *)
  | ReadFail                   (* ret = False *)
  | ReadRaises.                (* cap.read() raised *)

Record env := {
  opens : bool;                (* does the next VideoCapture(url) open *)
  reads : read_outcome;        (* outcome of the next cap.read() *)
  clock : Q                    (* time.time() at this step *)
}.

(** One step of the capture thread. *)
Definition thread_step (e : env) (w : worker) : worker :=
  match thread (self w) with
  | None | Some Finished => w
  | Some LoopTop =>
      if running (self w) then goto CheckCap w else goto Finished w
  | Some CheckCap =>
      match cap (self w) with
      | None => goto ConnectRelease w
      | Some c => if handle_open c w then goto Read w
                  else goto ConnectRelease w
      end
  | Some ConnectRelease =>
      match cap (self w) with
      | None => goto ConnectOpen w
      | Some c => goto ConnectOpen (release_handle c w)
      end
  | Some ConnectOpen =>
      let c := length (handles w) in
      let w' := with_self (set_cap (Some c))
                  (with_handles
                     (handles w ++ [{| isOpened := opens e; releases := 0 |}]) w) in
      if opens e then goto Read w'       (* _connect_camera returned True *)
      else goto (Sleeping 5) w'          (* raised inside, returned False *)
  | Some Read =>
      match cap (self w) with
      | None => goto ExceptRelease w     (* AttributeError on None *)
      | Some _ =>
          match reads e with
          | ReadOk px =>
              let '(h, cs) := store_frame px (clock e) (frames w, self w) in
              goto LoopTop
                {| self := cs; frames := h; handles := handles w;
                   at_stop := at_stop w; join_waits := join_waits w;
                   join_timeouts := join_timeouts w;
                   stops_returned := stops_returned w;
                   stops_raised := stops_raised w |}
          | ReadFail => goto ReadFailRelease w
          | ReadRaises => goto ExceptRelease w
          end
      end
  | Some ReadFailRelease =>
      match cap (self w) with
      | None => goto ExceptRelease w     (* AttributeError on None *)
      | Some c => goto ReadFailClear (release_handle c w)
      end
  | Some ReadFailClear => goto (Sleeping 2) (with_self (set_cap None) w)
  | Some ExceptRelease =>
      match cap (self w) with
      | None => goto (Sleeping 5) w
      | Some c => goto ExceptClear (release_handle c w)
      end
  | Some ExceptClear => goto (Sleeping 5) (with_self (set_cap None) w)
  | Some (Sleeping _) => goto LoopTop w
  end.

(** [Thread.join(timeout)]: the time the caller is blocked when the
    thread needs [d] more time to finish. *)
Definition join_blocked (timeout d : Q) : Q :=
  if Qlt_le_dec d timeout then d else timeout.

Definition at_stop_pc (p : stop_pc) (w : worker) : worker :=
  {| self := self w; frames := frames w; handles := handles w;
     at_stop := p; join_waits := join_waits w;
     join_timeouts := join_timeouts w; stops_returned := stops_returned w;
     stops_raised := stops_raised w |}.

(** [stop()] prints its line and returns. *)
Definition stop_returns (w : worker) : worker :=
  {| self := self w; frames := frames w; handles := handles w;
     at_stop := StopIdle; join_waits := join_waits w;
     join_timeouts := join_timeouts w;
     stops_returned := S (stops_returned w);
     stops_raised := stops_raised w |}.

(** [stop()] ends with the [AttributeError] of [None.release()]. *)
Definition stop_raises (w : worker) : worker :=
  {| self := self w; frames := frames w; handles := handles w;
     at_stop := StopIdle; join_waits := join_waits w;
     join_timeouts := join_timeouts w;
     stops_returned := stops_returned w;
     stops_raised := S (stops_raised w) |}.

(** The join of lines 110-111 has returned after [blocked], with the
    thread alive or not. *)
Definition joined (blocked : option Q) (timed_out : bool) (w : worker)
  : worker :=
  {| self := self w; frames := frames w; handles := handles w;
     at_stop := StopTest;
     join_waits := join_waits w ++ option_list blocked;
     join_timeouts := if timed_out then S (join_timeouts w)
                      else join_timeouts w;
     stops_returned := stops_returned w;
     stops_raised := stops_raised w |}.

(** One step of [CameraStream.stop].  [d] is only read by the join.
    Lines 112 to 114 read [self.cap] one after the other, and the capture
    thread can run in between. *)
Definition stop_step (d : Q) (w : worker) : worker :=
  match at_stop w with
  | StopIdle => at_stop_pc StopJoin (with_self (set_running false) w)
  | StopJoin =>
      match thread (self w) with
      | None => joined None false w           (* if self.thread: is false *)
      | Some Finished =>                      (* the thread has ended *)
          joined (Some (join_blocked 2 d)) false w
      | Some _ => joined (Some 2%Q) true w    (* the timeout expired *)
      end
  | StopTest =>
      match cap (self w) with
      | None => stop_returns w
      | Some _ => at_stop_pc StopRelease w
      end
  | StopRelease =>
      match cap (self w) with
      | None => stop_raises w                 (* AttributeError on None *)
      | Some c => at_stop_pc StopClear (release_handle c w)
      end
  | StopClear => stop_returns (with_self (set_cap None) w)
  end.

Inductive action :=
  | Capture (e : env)          (* the capture thread takes a step *)
  | Stop (d : Q).              (* the caller of stop() takes a step *)

Definition step (w : worker) (a : action) : worker :=
  match a with
  | Capture e => thread_step e w
  | Stop d => stop_step d w
  end.

Definition run (sched : list action) (w : worker) : worker :=
  fold_left step sched w.

(** A worker right after [CameraStream(camera_config).start()]. *)
Definition spawn (camera_config : Camera) : worker :=
  {| self := start (CameraStream_init camera_config);
     frames := []; handles := []; at_stop := StopIdle;
     join_waits := []; join_timeouts := 0; stops_returned := 0;
     stops_raised := 0 |}.

(** A whole call of [stop()] with no capture step in between: three
    steps when line 112 finds [self.cap] None, five otherwise. *)
Definition stop (d : Q) (w : worker) : worker :=
  let w' := stop_step d (stop_step d (stop_step d w)) in
  match at_stop w' with
  | StopIdle => w'
  | _ => stop_step d (stop_step d w')
  end.

(** ** class RTSPWebServer *)
Record RTSPWebServer := {
  config : option Config;              (* None: the load failed *)
  cameras : gmap string CameraStream;
  threads_started : list Camera        (* entries whose worker was started *)
}.

(** The body of the loop of [_initialize_cameras]. *)
Definition initialize_camera (srv : RTSPWebServer) (camera_config : Camera)
  : RTSPWebServer :=
  if cam_enabled camera_config then
    {| config := config srv;
       cameras := <[cam_id camera_config :=
                      start (CameraStream_init camera_config)]> (cameras srv);
       threads_started := threads_started srv ++ [camera_config] |}
  else srv.

(** [RTSPWebServer._initialize_cameras] *)
Definition _initialize_cameras (srv : RTSPWebServer) : RTSPWebServer :=
  match config srv with
  | None => srv
  | Some cfg => fold_left initialize_camera (cameras_of cfg) srv
  end.

(** The server as [__init__] leaves it before [_initialize_cameras]. *)
Definition RTSPWebServer_init (cfg : option Config) : RTSPWebServer :=
  {| config := cfg; cameras := ∅; threads_started := [] |}.

End App.

(** * recorder.py *)
Module Recorder.

(** Exceptions (subclasses of [Exception]) that the modelled calls raise. *)
Inductive exn :=
  | FileNotFoundError
  | KeyError
  | TimeoutExpired
  | OSError
  | ValueError.

Inductive result (A : Type) :=
  | Return (a : A)
  | Raise (e : exn).
Arguments Return {A} a.
Arguments Raise {A} e.

(** The argument list built by [_build_ffmpeg_command]. *)
Record command := {
  input_url : string;          (* -i *)
  duration : Z;                (* -t *)
  output_dir : string;
  output_camera : string;      (* the file is <dir>/<id>_<timestamp>.mp4 *)
  output_second : Z
}.

(** A [subprocess.Popen] object together with the process behind it. *)
Record Popen := {
  for_camera : Camera;         (* the camera it was launched for *)
  args : command;
  returncode : option Z;       (* what poll() returns: None while it runs *)
  killed : bool;               (* kill() was called on it *)
  stdout : string;
  stderr : string
}.

(** The lines the recorder prints. *)
Inductive message :=
  | Welcome                                            (* line 195 *)
  | Rule                                               (* lines 196, 208 *)
  | RecordingsDirectory                                (* line 71 *)
  | PressCtrlC                                         (* line 207 *)
  | AlreadyRecording (camera_id : string)              (* line 112 *)
  | StartingRecording (camera : Camera)                (* lines 117-118 *)
  | FfmpegFailedImmediately (out err : string)         (* lines 133-135 *)
  | RecordingStarted (pid : nat)                       (* line 139 *)
  | FfmpegNotFound                                     (* lines 142-143 *)
  | StartError (camera_id : string) (e : exn)          (* line 145 *)
  | StoppingRecording (camera_id : string) (pid : nat) (* line 157 *)
  | FileCompleted (camera : Camera)                    (* line 184 *)
  | RecordingFailed (camera : Camera)                  (* line 186 *)
  | StartingNew (camera : Camera)                      (* line 190 *)
  | Status (active : nat)                              (* lines 206, 221 *)
  | Stopped.                                           (* line 227 *)

(** What the recorder does to the outside world, in order. *)
Inductive event :=
  | Print (m : message)
  | Launch (camera : Camera) (pid : nat)     (* subprocess.Popen returned *)
  | Sleep (d : Q)                            (* time.sleep(d) *)
  | Poll (pid : nat) (rc : option Z)         (* process.poll() *)
  | Communicate (pid : nat)                  (* process.communicate() *)
  | Terminate (pid : nat)                    (* process.terminate() *)
  | Wait (pid : nat) (timeout : Q)           (* process.wait(timeout) *)
  | Kill (pid : nat).                        (* process.kill() *)

(** ** class RTSPRecorder, with the world it acts on *)
Record RTSPRecorder := {
  config : Config;
  processes : gmap string nat;   (* self.processes: camera id -> handle *)
  running : bool;
  children : list Popen;         (* every subprocess launched so far *)
  now : Q;                       (* the wall clock *)
  trace : list event
}.

(** [RTSPRecorder.__init__] at wall-clock time [t]. *)
Definition RTSPRecorder_init (cfg : Config) (t : Q) : RTSPRecorder :=
  {| config := cfg; processes := ∅; running := true;
     children := []; now := t; trace := [] |}.

Definition set_processes (m : gmap string nat) (r : RTSPRecorder) :=
  {| config := config r; processes := m; running := running r;
     children := children r; now := now r; trace := trace r |}.

Definition set_children (l : list Popen) (r : RTSPRecorder) :=
  {| config := config r; processes := processes r; running := running r;
     children := l; now := now r; trace := trace r |}.

Definition set_now (t : Q) (r : RTSPRecorder) :=
  {| config := config r; processes := processes r; running := running r;
     children := children r; now := t; trace := trace r |}.

Definition emit (e : event) (r : RTSPRecorder) :=
  {| config := config r; processes := processes r; running := running r;
     children := children r; now := now r; trace := trace r ++ [e] |}.

(** ** Methods are state transformers that return or raise *)
Definition M (A : Type) : Type := RTSPRecorder -> result A * RTSPRecorder.

#[global] Instance M_ret : MRet M := fun A a r => (Return a, r).
#[global] Instance M_bind : MBind M := fun A B f m r =>
  match m r with
  | (Return a, r') => f a r'
  | (Raise e, r') => (Raise e, r')
  end.

Definition raise {A} (e : exn) : M A := fun r => (Raise e, r).

(** [try: body except ...: handler] *)
Definition try_except {A} (body : M A) (handler : exn -> M A) : M A :=
  fun r =>
    match body r with
    | (Return a, r') => (Return a, r')
    | (Raise e, r') => handler e r'
    end.

(** [try: body finally: cleanup] *)
Definition try_finally {A} (body : M A) (cleanup : M unit) : M A :=
  fun r =>
    match body r with
    | (res, r') =>
        match cleanup r' with
        | (Return _, r'') => (res, r'')
        | (Raise e, r'') => (Raise e, r'')
        end
    end.

Definition get : M RTSPRecorder := fun r => (Return r, r).
Definition modify (f : RTSPRecorder -> RTSPRecorder) : M unit :=
  fun r => (Return tt, f r).

Definition print (m : message) : M unit := modify (emit (Print m)).

(** [time.sleep(d)]: a negative length is a [ValueError]. *)
Definition sleep (d : Q) : M unit :=
  if Qle_bool 0 d
  then modify (fun r => emit (Sleep d) (set_now (now r + d)%Q r))
  else raise ValueError.

(** The process behind handle [p] ends with exit code [code]; nothing
    happens if it has already ended. *)
Definition exit_with (code : Z) (out err : string) (P : Popen) : Popen :=
  match returncode P with
  | Some _ => P
  | None => {| for_camera := for_camera P; args := args P;
               returncode := Some code; killed := killed P;
               stdout := out; stderr := err |}
  end.

Definition child_exits (p : nat) (code : Z) (out err : string) : M unit :=
  modify (fun r => set_children (alter (exit_with code out err) p (children r)) r).

(** The exit code of the process behind handle [p], None while it runs. *)
Definition status (r : RTSPRecorder) (p : nat) : option Z :=
  children r !! p ≫= returncode.

(** [process.poll()] *)
Definition poll (p : nat) : M (option Z) := fun r =>
  (Return (status r p), emit (Poll p (status r p)) r).

(** [del self.processes[camera_id]] *)
Definition del_process (camera_id : string) : M unit := fun r =>
  match processes r !! camera_id with
  | Some _ => (Return tt, set_processes (delete camera_id (processes r)) r)
  | None => (Raise KeyError, r)
  end.

(** [RTSPRecorder._build_ffmpeg_command] *)
Definition _build_ffmpeg_command (camera : Camera) : M command := fun r =>
  (Return {| input_url := cam_rtsp_url camera;
             duration := segment_duration (config r);
             output_dir := recordings_path (config r);
             output_camera := cam_id camera;
             output_second := Qfloor (now r) |}, r).

(** What happens to one launch of ffmpeg. *)
Inductive launch :=
  | LaunchRaises (e : exn)                   (* Popen raised [e] *)
  | LaunchExits (code : Z) (out err : string)(* started, gone within 2 s *)
  | LaunchRuns.                              (* started, alive after 2 s *)

(** [subprocess.Popen(cmd, ...)] *)
Definition subprocess_Popen (camera : Camera) (cmd : command) (o : launch)
  : M nat := fun r =>
  match o with
  | LaunchRaises e => (Raise e, r)
  | _ =>
      let p := length (children r) in
      (Return p,
       emit (Launch camera p)
         (set_children
            (children r ++ [{| for_camera := camera; args := cmd;
                               returncode := None; killed := false;
                               stdout := ""; stderr := "" |}]) r))
  end.

(** What the new process does while the recorder sleeps. *)
Definition settle (p : nat) (o : launch) : M unit :=
  match o with
  | LaunchExits code out err => child_exits p code out err
  | _ => mret tt
  end.

(** [process.communicate()] *)
Definition communicate (p : nat) : M (string * string) := fun r =>
  let oe := match children r !! p with
            | Some P => (stdout P, stderr P)
            | None => (""%string, ""%string)
            end in
  (Return oe, emit (Communicate p) r).

(** [camera_id in self.processes and self.processes[camera_id].poll() is
    None], as a test on the state. *)
Definition already_recording (r : RTSPRecorder) (camera_id : string) : bool :=
  match processes r !! camera_id with
  | Some process => bool_decide (status r process = None)
  | None => false
  end.

(** [RTSPRecorder.start_recording] *)
Definition start_recording (camera : Camera) (o : launch) : M unit :=
  let camera_id := cam_id camera in
  r ← get;
  live ← match processes r !! camera_id with
         | Some process => rc ← poll process; mret (bool_decide (rc = None))
         | None => mret false
         end;
  if (live : bool) then print (AlreadyRecording camera_id)
  else
    try_except
      (cmd ← _build_ffmpeg_command camera;
       print (StartingRecording camera);;
       process ← subprocess_Popen camera cmd o;
       sleep 2;;
       settle process o;;
       rc ← poll process;
       match rc with
       | Some _ =>
           oe ← communicate process;
           print (FfmpegFailedImmediately oe.1 oe.2)
       | None =>
           modify (fun r => set_processes (<[camera_id := process]> (processes r)) r);;
           print (RecordingStarted process)
       end)
      (fun e => match e with
                | FileNotFoundError => print FfmpegNotFound
                | _ => print (StartError camera_id e)
                end).

(** [process.terminate()] *)
Definition terminate (p : nat) : M unit := modify (emit (Terminate p)).

(** [process.kill()] *)
Definition kill (p : nat) : M unit := modify (fun r =>
  emit (Kill p)
    (set_children
       (alter (fun P => {| for_camera := for_camera P; args := args P;
                           returncode := returncode P; killed := true;
                           stdout := stdout P; stderr := stderr P |})
              p (children r)) r)).

(** [process.wait(timeout)].  [w] says how long the process takes to end
    and with which code; [None] if it does not end. *)
Definition wait (p : nat) (timeout : Q) (w : option (Q * Z)) : M unit :=
  modify (emit (Wait p timeout));;
  match w with
  | Some (d, code) =>
      if Qle_bool d timeout then
        modify (fun r => set_now (now r + d)%Q r);;
        child_exits p code "" ""
      else
        modify (fun r => set_now (now r + timeout)%Q r);;
        raise TimeoutExpired
  | None =>
      modify (fun r => set_now (now r + timeout)%Q r);;
      raise TimeoutExpired
  end.

(** [RTSPRecorder.stop_recording] *)
Definition stop_recording (camera_id : string) (w : option (Q * Z)) : M unit :=
  r ← get;
  match processes r !! camera_id with
  | Some process =>
      rc ← poll process;
      match rc with
      | None =>
          print (StoppingRecording camera_id process);;
          terminate process;;
          try_except (wait process 10 w)
            (fun e => match e with
                      | TimeoutExpired => kill process
                      | _ => raise e
                      end)
      | Some _ => mret tt
      end;;
      del_process camera_id
  | None => mret tt
  end.

(** [for x in xs: body(x)] *)
Fixpoint for_each {A} (xs : list A) (body : A -> M unit) : M unit :=
  match xs with
  | [] => mret tt
  | x :: rest => body x;; for_each rest body
  end.

(** [RTSPRecorder.stop_all_recordings]; [ws] gives, per camera, how its
    process reacts to [terminate()]. *)
Definition stop_all_recordings (ws : string -> option (Q * Z)) : M unit :=
  r ← get;
  for_each (map_to_list (processes r)).*1
           (fun camera_id => stop_recording camera_id (ws camera_id)).

(** What the world does around one camera of a reconcile pass: the
    subprocesses that end before the camera is looked at, and the fate of
    the launch if one is made. *)
Record tick := {
  exits : list (nat * Z);
  launches : launch
}.

(** The body of the loop of [check_and_restart_recordings]. *)
Definition reconcile_camera (camera : Camera) (o : launch) : M unit :=
  if negb (cam_enabled camera) then mret tt
  else
    let camera_id := cam_id camera in
    r ← get;
    due ← match processes r !! camera_id with
          | None => mret true
          | Some process => rc ← poll process; mret (bool_decide (rc ≠ None))
          end;
    if (due : bool) then
      match processes r !! camera_id with
      | Some process =>
          r' ← get;
          match status r' process with
          | Some 0 => print (FileCompleted camera)
          | _ => print (RecordingFailed camera)
          end;;
          del_process camera_id
      | None => mret tt
      end;;
      print (StartingNew camera);;
      start_recording camera o
    else mret tt.

(** [RTSPRecorder.check_and_restart_recordings] over the cameras [cams]. *)
Fixpoint check_cameras (cams : list Camera) (os : nat -> tick) : M unit :=
  match cams with
  | [] => mret tt
  | camera :: rest =>
      for_each (exits (os 0%nat)) (fun pc => child_exits pc.1 pc.2 "" "");;
      reconcile_camera camera (launches (os 0%nat));;
      check_cameras rest (fun i => os (S i))
  end.

Definition check_and_restart_recordings (os : nat -> tick) : M unit :=
  r ← get; check_cameras (cameras_of (config r)) os.

(** Lines 202-204 of [run]: the startup pass. *)
Fixpoint start_cameras (cams : list Camera) (os : nat -> launch) : M unit :=
  match cams with
  | [] => mret tt
  | camera :: rest =>
      (if cam_enabled camera then start_recording camera (os 0%nat)
       else mret tt);;
      start_cameras rest (fun i => os (S i))
  end.

(** [sum(1 for p in self.processes.values() if p.poll() is None)] *)
Definition active_count (r : RTSPRecorder) : nat :=
  length (filter (fun kp => status r kp.2 = None)
                 (map_to_list (processes r))).

(** Lines 218-221: the periodic status line. *)
Definition report_status : M unit :=
  r ← get;
  if bool_decide (py_int (now r) `mod` 300 = 0)
  then print (Status (active_count r))
  else mret tt.

(** Lines 212-221: the main loop, for as many iterations as [ticks] has
    entries. *)
Fixpoint main_loop (ticks : list (nat -> tick)) : M unit :=
  match ticks with
  | [] => mret tt
  | os :: rest =>
      r ← get;
      if running r then
        sleep (ffmpeg_reconnect_delay (config r));;
        check_and_restart_recordings os;;
        report_status;;
        main_loop rest
      else mret tt
  end.

(** [RTSPRecorder._create_recordings_directory]; [mkdir] is the
    exception [Path.mkdir] raises, if it raises one. *)
Definition _create_recordings_directory (mkdir : option exn) : M unit :=
  match mkdir with
  | Some e => raise e
  | None => print RecordingsDirectory
  end.

(** [RTSPRecorder.run], cut after [length ticks] iterations of the loop. *)
Definition run (mkdir : option exn) (startup : nat -> launch)
    (ticks : list (nat -> tick)) (ws : string -> option (Q * Z)) : M unit :=
  print Welcome;;
  print Rule;;
  _create_recordings_directory mkdir;;
  r ← get;
  start_cameras (cameras_of (config r)) startup;;
  r ← get;
  print (Status (size (processes r)));;
  print PressCtrlC;;
  print Rule;;
  try_finally (main_loop ticks)
              (stop_all_recordings ws;; print Stopped).

End Recorder.

(** * Predicates used to state the properties of app.py *)
Module AppSpec.
Import App.

(** Every capture handle the worker ever constructed has seen exactly one
    [release()]. *)
Definition released_exactly_once (w : worker) : Prop :=
  Forall (fun c => releases c = 1%nat) (handles w).

(** At these program points the thread has released the handle that
    [self.cap] still names. *)
Definition pending (p : option pc) : bool :=
  match p with
  | Some ConnectOpen | Some ReadFailClear | Some ExceptClear => true
  | _ => false
  end.

(** [ok c pend hs]: the handle named by [self.cap = c] has been released
    once if [pend] and never otherwise; every other handle exactly once. *)
Definition ok (c : option nat) (pend : bool) (hs : list VideoCapture) : Prop :=
  (forall i v, hs !! i = Some v ->
     releases v = if decide (c = Some i) then (if pend then 1 else 0)%nat
                  else 1%nat)
  /\ (forall i, c = Some i -> (i < length hs)%nat).

Definition handles_ok (w : worker) : Prop :=
  ok (cap (self w)) (pending (thread (self w))) (handles w).

(** [stop()] is between its [release()] of line 113 and the assignment
    of line 114. *)
Definition stop_pending (p : stop_pc) : bool :=
  match p with
  | StopClear => true
  | _ => false
  end.

(** [stop()] is past its join. *)
Definition past_join (p : stop_pc) : bool :=
  match p with
  | StopTest | StopRelease | StopClear => true
  | _ => false
  end.

(** What holds of a worker for which every join so far returned because
    the thread had ended. *)
Record joined_inv (w : worker) : Prop := {
  ji_handles : ok (cap (self w))
                  (pending (thread (self w)) || stop_pending (at_stop w))
                  (handles w);
  ji_thread : thread (self w) <> None;
  ji_flag : at_stop w <> StopIdle \/ (1 <= stops_returned w)%nat ->
            running (self w) = false;
  ji_release : past_join (at_stop w) = true ->
               thread (self w) = Some Finished;
  ji_tested : at_stop w = StopRelease \/ at_stop w = StopClear ->
              cap (self w) <> None;
  ji_raised : stops_raised w = 0%nat;
  ji_returned : (1 <= stops_returned w)%nat ->
                thread (self w) = Some Finished /\ cap (self w) = None
}.

(** The points of [_capture_frames] from which, once [self.running] is
    False and [self.cap] is None, the thread ends without constructing a
    capture handle: it is blocked in [read()] or in a sleep, or about to
    test the flag. *)
Definition parked (p : pc) : bool :=
  match p with
  | Finished | LoopTop | Sleeping _ | Read | ReadFailRelease
  | ExceptRelease => true
  | _ => false
  end.

(** Every started worker belongs to an enabled entry, and every entry of
    [self.cameras] is the started worker of an enabled entry of [cams]. *)
Definition enabled_only (cams : list Camera) (srv : RTSPWebServer) : Prop :=
  Forall (fun c => c ∈ cams /\ cam_enabled c = true) (threads_started srv)
  /\ forall k cs, cameras srv !! k = Some cs ->
       exists c, c ∈ cams /\ cam_enabled c = true /\ cam_id c = k
                 /\ cs = start (CameraStream_init c).

End AppSpec.

(** * Predicates used to state the properties of recorder.py *)
Module RecorderSpec.
Import Recorder.

(** The recorder after the guard of [start_recording] (line 111) has
    polled the registered handle, if there is one. *)
Definition after_guard (r : RTSPRecorder) (camera_id : string) : RTSPRecorder :=
  match processes r !! camera_id with
  | Some p => emit (Poll p (status r p)) r
  | None => r
  end.

(** The line printed by the handlers of lines 141-145. *)
Definition launch_error (camera_id : string) (e : exn) : message :=
  match e with
  | FileNotFoundError => FfmpegNotFound
  | _ => StartError camera_id e
  end.

(** The [Popen] object of a launch made in state [r]. *)
Definition new_child (camera : Camera) (r : RTSPRecorder) : Popen :=
  {| for_camera := camera;
     args := {| input_url := cam_rtsp_url camera;
                duration := segment_duration (config r);
                output_dir := recordings_path (config r);
                output_camera := cam_id camera;
                output_second := Qfloor (now r) |};
     returncode := None; killed := false; stdout := ""; stderr := "" |}.

(** The recorder once ffmpeg has been started and the settle delay of
    line 129 is over; [P] is the new child as it is by then. *)
Definition launched (camera : Camera) (P : Popen) (r : RTSPRecorder)
  : RTSPRecorder :=
  let r1 := after_guard r (cam_id camera) in
  {| config := config r; processes := processes r; running := running r;
     children := children r ++ [P];
     now := (now r + 2)%Q;
     trace := trace r1 ++ [Print (StartingRecording camera);
                           Launch camera (length (children r));
                           Sleep 2] |}.

(** Does the process end within the 10 units that [stop_recording]
    waits after [terminate()]? *)
Definition ends_in_time (w : option (Q * Z)) : bool :=
  match w with
  | Some (d, _) => Qle_bool d 10
  | None => false
  end.

(** The subprocesses launched so far, by camera. *)
Definition owners (r : RTSPRecorder) : list Camera :=
  for_camera <$> children r.

(** What one call of [start_recording] can have done. *)
Inductive started (camera : Camera) (r r' : RTSPRecorder) : Prop :=
  | started_skipped :
      already_recording r (cam_id camera) = true ->
      processes r' = processes r -> children r' = children r ->
      now r' = now r -> started camera r r'
  | started_raised :
      already_recording r (cam_id camera) = false ->
      processes r' = processes r -> children r' = children r ->
      now r' = now r -> started camera r r'
  | started_exited code out err :
      already_recording r (cam_id camera) = false ->
      processes r' = processes r ->
      children r' = children r ++ [exit_with code out err (new_child camera r)] ->
      started camera r r'
  | started_registered :
      already_recording r (cam_id camera) = false ->
      processes r' = <[cam_id camera := length (children r)]> (processes r) ->
      children r' = children r ++ [new_child camera r] ->
      started camera r r'.

(** The recorder when [reconcile_camera] has found the camera due, has
    said why and has dropped the old handle (lines 179-190). *)
Definition before_restart (camera : Camera) (r : RTSPRecorder) : RTSPRecorder :=
  match processes r !! cam_id camera with
  | None => emit (Print (StartingNew camera)) r
  | Some p =>
      emit (Print (StartingNew camera))
        (set_processes (delete (cam_id camera) (processes r))
           (emit (Print (match status r p with
                         | Some 0 => FileCompleted camera
                         | _ => RecordingFailed camera
                         end))
              (emit (Poll p (status r p)) r)))
  end.

(** From [r] to [r'] the configuration and the running flag are kept and
    the subprocesses launched were all for cameras in [A]. *)
Definition extends (A : Camera -> Prop) (r r' : RTSPRecorder) : Prop :=
  config r' = config r /\ running r' = running r
  /\ exists l, owners r' = owners r ++ l /\ Forall A l.

(** Run from [r], the method returns normally, having launched only for
    cameras in [A]. *)
Definition returns_at (A : Camera -> Prop) (m : M unit) (r : RTSPRecorder)
  : Prop :=
  exists r', m r = (Return tt, r') /\ extends A r r'.

(** Run from [r], the method ends, by returning or by raising, having
    launched only for cameras in [A]. *)
Definition ends_at (A : Camera -> Prop) (m : M unit) (r : RTSPRecorder)
  : Prop :=
  exists res r', m r = (res, r') /\ extends A r r'.

(** The delay of the main loop is one [time.sleep] accepts. *)
Definition delay_ok (r : RTSPRecorder) : bool :=
  Qle_bool 0 (ffmpeg_reconnect_delay (config r)).

(** The recorder when [run] reaches its startup pass. *)
Definition opened (r : RTSPRecorder) : RTSPRecorder :=
  emit (Print RecordingsDirectory) (emit (Print Rule) (emit (Print Welcome) r)).

(** The recorder when [run] enters its main loop. *)
Definition ready (r : RTSPRecorder) : RTSPRecorder :=
  emit (Print Rule)
    (emit (Print PressCtrlC) (emit (Print (Status (size (processes r)))) r)).

(** No enabled entry of [cams] has the id [k]. *)
Definition others (k : string) (cams : list Camera) : Prop :=
  Forall (fun c => cam_enabled c = true -> cam_id c <> k) cams.

(** What follows the announcement of a launch in the trace: the error
    line if [Popen] raised, the [Launch] of the new handle first
    otherwise. *)
Definition attempt_ends (camera : Camera) (o : launch) (rest : list event)
  : Prop :=
  match o with
  | LaunchRaises e => rest = [Print (launch_error (cam_id camera) e)]
  | _ => exists p rest', rest = Launch camera p :: rest'
  end.

(** In [l] a launch for [camera] is announced and fails with [e]. *)
Definition failed_in (camera : Camera) (e : exn) (l : list event) : Prop :=
  exists la lb,
    l = la ++ [Print (StartingRecording camera);
               Print (launch_error (cam_id camera) e)] ++ lb.

(** In [l] a launch for [camera] is announced and fails with [e], and
    later a launch for it is announced again. *)
Definition retried (camera : Camera) (e : exn) (l : list event) : Prop :=
  exists la lb lc,
    l = la ++ [Print (StartingRecording camera);
               Print (launch_error (cam_id camera) e)]
           ++ lb ++ [Print (StartingRecording camera)] ++ lc.

(** The cameras of the configuration that are enabled. *)
Definition enabled_in (cfg : Config) (c : Camera) : Prop :=
  c ∈ cameras_of cfg /\ cam_enabled c = true.

(** The process still runs and the recorder has not killed it. *)
Definition alive (P : Popen) : Prop :=
  returncode P = None /\ killed P = false.

(** Every live subprocess is the registered handle of the camera it was
    launched for, and every registered handle is a subprocess launched
    for that camera. *)
Record supervised (r : RTSPRecorder) : Prop := {
  sup_live : forall p P, children r !! p = Some P -> alive P ->
             processes r !! cam_id (for_camera P) = Some p;
  sup_table : forall camera_id p, processes r !! camera_id = Some p ->
              exists P, children r !! p = Some P
                        /\ cam_id (for_camera P) = camera_id
}.

(** [f] lets a process end or be killed, nothing else. *)
Definition winds_down (f : Popen -> Popen) : Prop :=
  forall P, for_camera (f P) = for_camera P /\ (alive (f P) -> alive P).

(** The states of a recorder configured with [cfg] under calls of
    [start_recording], [stop_recording] and the loop body of the reconcile
    pass, subprocesses ending and time passing in between. *)
Inductive reachable (cfg : Config) : RTSPRecorder -> Prop :=
  | reach_init t : reachable cfg (RTSPRecorder_init cfg t)
  | reach_start r camera o :
      reachable cfg r -> reachable cfg (start_recording camera o r).2
  | reach_stop r camera_id w :
      reachable cfg r -> reachable cfg (stop_recording camera_id w r).2
  | reach_reconcile r camera o :
      reachable cfg r -> reachable cfg (reconcile_camera camera o r).2
  | reach_exit r p code out err :
      reachable cfg r -> reachable cfg (child_exits p code out err r).2
  | reach_sleep r d :
      reachable cfg r -> reachable cfg (sleep d r).2.

Definition is_status (e : event) : bool :=
  match e with
  | Print (Status _) => true
  | _ => false
  end.

(** The number of status lines printed so far. *)
Definition status_lines (r : RTSPRecorder) : nat :=
  length (filter (fun e => is_status e = true) (trace r)).

End RecorderSpec.

(** * recorder.py: shutdown on a signal *)
Module Shutdown.
Import Recorder.

(** How the interpreter leaves a handler: by [sys.exit(code)], or with an
    exception that nothing caught. *)
Inductive ending :=
  | SystemExit (code : Z)
  | Uncaught (e : exn).

Definition set_running (b : bool) (r : RTSPRecorder) : RTSPRecorder :=
  {| config := config r; processes := processes r; running := b;
     children := children r; now := now r; trace := trace r |}.

(** [RTSPRecorder._signal_handler] (lines 60-65); the line it prints is
    not kept in the trace. *)
Definition _signal_handler (ws : string -> option (Q * Z)) (r : RTSPRecorder)
  : ending * RTSPRecorder :=
  match stop_all_recordings ws (set_running false r) with
  | (Return _, r') => (SystemExit 0, r')
  | (Raise e, r') => (Uncaught e, r')
  end.

End Shutdown.

(** * start_system.py *)
Module Manager.

(** A [subprocess.Popen] object of the manager with the process behind it. *)
Record Popen := {
  argv : list string;
  returncode : option Z;       (* what poll() returns: None while it runs *)
  killed : bool                (* kill() was called on it *)
}.

(** The lines the manager prints. *)
Inductive line :=
  | Starting (name : string)                        (* line 59 *)
  | Started (name : string) (pid : nat)             (* line 69 *)
  | CommandNotFound (command : string)              (* line 72 *)
  | CommandNotFoundHint                             (* line 73 *)
  | StartFailed (name : string) (e : Recorder.exn)  (* line 75 *)
  | Stopping (name : string) (pid : nat)            (* line 82 *)
  | StoppedUnexpectedly (name : string)             (* line 99 *)
  | Cleaning                                        (* line 108 *)
  | CleanerFailed (e : Recorder.exn)                (* line 112 *)
  | Title                                           (* line 123 *)
  | Rule                                            (* lines 124, 147 *)
  | NoConfig                                        (* line 128 *)
  | NoConfigHint                                    (* line 129 *)
  | CleanerScheduled                                (* line 143 *)
  | SystemStarted (components : nat)                (* line 145 *)
  | PressCtrlC                                      (* line 146 *)
  | Status (components : nat)                       (* line 158 *)
  | SystemStopped.                                  (* line 164 *)

Inductive event :=
  | Print (l : line)
  | Launch (name : string) (pid : nat)   (* subprocess.Popen returned *)
  | Run (argv : list string)             (* subprocess.run returned *)
  | Sleep (d : Q)
  | Poll (pid : nat) (rc : option Z)
  | Terminate (pid : nat)
  | Wait (pid : nat) (timeout : Q)
  | Kill (pid : nat).

(** class SystemManager, with the world it acts on. *)
Record SystemManager := {
  processes : gmap string nat;   (* self.processes: name -> handle *)
  running : bool;
  children : list Popen;         (* every subprocess started with Popen *)
  cleaner_thread : bool;         (* the hourly cleaner thread was started *)
  cleaned : list (list string);  (* every command the cleaner thread ran *)
  now : Q;
  trace : list event
}.

(** [SystemManager.__init__] at wall-clock time [t]. *)
Definition SystemManager_init (t : Q) : SystemManager :=
  {| processes := ∅; running := true; children := [];
     cleaner_thread := false; cleaned := []; now := t; trace := [] |}.

Definition set_processes (tab : gmap string nat) (m : SystemManager) :=
  {| processes := tab; running := running m; children := children m;
     cleaner_thread := cleaner_thread m; cleaned := cleaned m;
     now := now m; trace := trace m |}.

Definition set_children (l : list Popen) (m : SystemManager) :=
  {| processes := processes m; running := running m; children := l;
     cleaner_thread := cleaner_thread m; cleaned := cleaned m;
     now := now m; trace := trace m |}.

Definition set_now (t : Q) (m : SystemManager) :=
  {| processes := processes m; running := running m; children := children m;
     cleaner_thread := cleaner_thread m; cleaned := cleaned m;
     now := t; trace := trace m |}.

Definition set_running (b : bool) (m : SystemManager) :=
  {| processes := processes m; running := b; children := children m;
     cleaner_thread := cleaner_thread m; cleaned := cleaned m;
     now := now m; trace := trace m |}.

Definition emit (e : event) (m : SystemManager) :=
  {| processes := processes m; running := running m; children := children m;
     cleaner_thread := cleaner_thread m; cleaned := cleaned m;
     now := now m; trace := trace m ++ [e] |}.

(** A method ends normally or with an exception; the state is kept in
    both cases. *)
Inductive outcome :=
  | Done (m : SystemManager)
  | Failed (e : Recorder.exn) (m : SystemManager).

Definition and_then (o : outcome) (k : SystemManager -> outcome) : outcome :=
  match o with
  | Done m => k m
  | Failed e m => Failed e m
  end.

(** The exit code of the process behind handle [p], None while it runs. *)
Definition status (m : SystemManager) (p : nat) : option Z :=
  children m !! p ≫= returncode.

(** The process behind [p] ends with [code], unless it has ended. *)
Definition exit_with (code : Z) (P : Popen) : Popen :=
  match returncode P with
  | Some _ => P
  | None => {| argv := argv P; returncode := Some code; killed := killed P |}
  end.

Definition child_exits (m : SystemManager) (pc : nat * Z) : SystemManager :=
  set_children (alter (exit_with pc.2) pc.1 (children m)) m.

(** [del self.processes[name]] *)
Definition del_process (name : string) (m : SystemManager) : outcome :=
  match processes m !! name with
  | Some _ => Done (set_processes (delete name (processes m)) m)
  | None => Failed Recorder.KeyError m
  end.

(** [SystemManager.start_process]; [o] is the exception [Popen] raises,
    if it raises one. *)
Definition start_process (name command : string) (args : option (list string))
    (o : option Recorder.exn) (m : SystemManager) : SystemManager :=
  let cmd := command :: default [] args in
  let m1 := emit (Print (Starting name)) m in
  match o with
  | None =>
      let p := length (children m1) in
      emit (Print (Started name p))
        (set_processes (<[name := p]> (processes m1))
           (emit (Launch name p)
              (set_children
                 (children m1 ++ [{| argv := cmd; returncode := None;
                                     killed := false |}]) m1)))
  | Some Recorder.FileNotFoundError =>
      emit (Print CommandNotFoundHint) (emit (Print (CommandNotFound command)) m1)
  | Some e => emit (Print (StartFailed name e)) m1
  end.

(** [SystemManager.stop_process]; [w] says how long the process takes to
    end after [terminate()] and with which code, if it ends at all. *)
Definition stop_process (name : string) (w : option (Q * Z))
    (m : SystemManager) : outcome :=
  match processes m !! name with
  | Some process =>
      let m1 := emit (Poll process (status m process)) m in
      let m2 :=
        match status m process with
        | None =>
            let m3 := emit (Wait process 10)
                        (emit (Terminate process)
                           (emit (Print (Stopping name process)) m1)) in
            match w with
            | Some (d, code) =>
                if Qle_bool d 10 then
                  child_exits (set_now (now m3 + d)%Q m3) (process, code)
                else
                  emit (Kill process)
                    (set_children
                       (alter (fun P => {| argv := argv P;
                                           returncode := returncode P;
                                           killed := true |})
                              process (children m3))
                       (set_now (now m3 + 10)%Q m3))
            | None =>
                emit (Kill process)
                  (set_children
                     (alter (fun P => {| argv := argv P;
                                         returncode := returncode P;
                                         killed := true |})
                            process (children m3))
                     (set_now (now m3 + 10)%Q m3))
            end
        | Some _ => m1
        end in
      del_process name m2
  | None => Done m
  end.

(** [SystemManager.stop_all_processes] *)
Definition stop_all_processes (ws : string -> option (Q * Z))
    (m : SystemManager) : outcome :=
  foldl (fun o name => and_then o (stop_process name (ws name)))
        (Done m) (map_to_list (processes m)).*1.

(** The body of the loop of [check_processes]. *)
Definition check_process (m : SystemManager) (np : string * nat) : outcome :=
  let m1 := emit (Poll np.2 (status m np.2)) m in
  match status m np.2 with
  | Some _ => del_process np.1 (emit (Print (StoppedUnexpectedly np.1)) m1)
  | None => Done m1
  end.

(** [SystemManager.check_processes] *)
Definition check_processes (m : SystemManager) : outcome :=
  foldl (fun o np => and_then o (fun m' => check_process m' np))
        (Done m) (map_to_list (processes m)).

(** Lines 155-158: the periodic status line. *)
Definition report_status (m : SystemManager) : SystemManager :=
  if bool_decide (py_int (now m) `mod` 300 = 0)
  then emit (Print (Status (size (processes m)))) m
  else m.

(** [threading.Thread(target=self.run_cleaner_periodically).start()] *)
Definition start_cleaner_thread (m : SystemManager) : SystemManager :=
  {| processes := processes m; running := running m; children := children m;
     cleaner_thread := true; cleaned := cleaned m;
     now := now m; trace := trace m |}.

(** One turn of the loop of [run_cleaner_periodically], taken when its
    sleep of 3600 ends (lines 106-112); [o] is the exception
    [subprocess.run] raises, if it raises one.  The call blocks the
    cleaner thread, not the manager. *)
Definition cleaner_turn (python : string) (m : SystemManager)
    (o : option Recorder.exn) : SystemManager :=
  if running m then
    let m1 := emit (Print Cleaning) m in
    match o with
    | None =>
        emit (Run [python; "cleaner.py"])
          {| processes := processes m1; running := running m1;
             children := children m1; cleaner_thread := cleaner_thread m1;
             cleaned := cleaned m1 ++ [[python; "cleaner.py"]];
             now := now m1; trace := trace m1 |}
    | Some e => emit (Print (CleanerFailed e)) m1
    end
  else m.

(** The turns the cleaner thread takes while the manager is busy
    elsewhere; without the thread there are none. *)
Definition cleaner_turns (python : string) (wakes : list (option Recorder.exn))
    (m : SystemManager) : SystemManager :=
  if cleaner_thread m then foldl (cleaner_turn python) m wakes else m.

(** What happens while the manager sleeps in one iteration of its loop:
    the subprocesses that end, and the turns of the cleaner thread. *)
Record tick := {
  ended : list (nat * Z);
  wakes : list (option Recorder.exn)
}.

(** Lines 151-158: the monitoring loop, for as many iterations as
    [ticks] has entries. *)
Fixpoint monitor (python : string) (ticks : list tick) (m : SystemManager)
  : outcome :=
  match ticks with
  | [] => Done m
  | t :: rest =>
      if running m then
        let m1 := emit (Sleep 30) (set_now (now m + 30)%Q m) in
        let m2 := cleaner_turns python (wakes t) (foldl child_exits m1 (ended t)) in
        and_then (check_processes m2)
                 (fun m3 => monitor python rest (report_status m3))
      else Done m
  end.

(** [try: body finally: cleanup] *)
Definition finally (body : outcome) (cleanup : SystemManager -> outcome)
  : outcome :=
  match body with
  | Done m => cleanup m
  | Failed e m =>
      match cleanup m with
      | Done m' => Failed e m'
      | Failed e' m' => Failed e' m'
      end
  end.

(** [SystemManager.run], cut after [length ticks] iterations of the
    loop.  [python] is [sys.executable]; [config_exists] is the test of
    line 127; [o_recorder] and [o_web] are the fates of the two launches;
    [late] are the turns the cleaner thread takes while the manager stops
    its subprocesses. *)
Definition run (start_recorder start_web start_cleaner : bool)
    (config_exists : bool) (python : string)
    (o_recorder o_web : option Recorder.exn)
    (ticks : list tick) (late : list (option Recorder.exn))
    (ws : string -> option (Q * Z))
    (m : SystemManager) : outcome :=
  let m0 := emit (Print Rule) (emit (Print Title) m) in
  if negb config_exists
  then Done (emit (Print NoConfigHint) (emit (Print NoConfig) m0))
  else
    let m1 := if start_recorder
              then start_process "Grabador" python (Some ["recorder.py"])
                                 o_recorder m0
              else m0 in
    let m2 := if start_web
              then start_process "Servidor Web" python (Some ["app.py"])
                                 o_web m1
              else m1 in
    let m3 := if start_cleaner
              then emit (Print CleanerScheduled) (start_cleaner_thread m2)
              else m2 in
    let m4 := emit (Print Rule)
                (emit (Print PressCtrlC)
                   (emit (Print (SystemStarted (size (processes m3)))) m3)) in
    finally (monitor python ticks m4)
            (fun m5 => and_then
                         (stop_all_processes ws (cleaner_turns python late m5))
                         (fun m6 => Done (emit (Print SystemStopped) m6))).

End Manager.

(** * cleaner.py *)
Module Cleaner.

(** The exceptions the modelled calls raise. *)
Inductive exn :=
  | PermissionError
  | FileNotFoundError
  | OSError
  | ValueError
  | OverflowError
  | RuntimeError.

(** [except (OSError, ValueError)]: the first three are subclasses of
    [OSError]. *)
Definition os_or_value_error (e : exn) : bool :=
  match e with
  | PermissionError | FileNotFoundError | OSError | ValueError => true
  | OverflowError | RuntimeError => false
  end.

(** What the cleaner takes from the Python library.  A naive local
    [datetime] is the number of seconds on the local wall clock. *)
Record Py := {
  suffix : string -> string;          (* Path(name).suffix *)
  lower : string -> string;           (* str.lower *)
  fromtimestamp : Q -> exn + Q;       (* datetime.fromtimestamp *)
  round2 : Q -> Q                     (* round(x, 2) *)
}.

Record stat_result := {
  st_size : Z;
  st_mtime : Q
}.

(** One entry of the recordings directory, with what the file system
    answers about it. *)
Record entry := {
  name : string;
  is_file : exn + bool;               (* file_path.is_file() *)
  stat : option stat_result           (* None: stat() raises an OSError *)
}.

(** The directory and its surroundings. *)
Record disk := {
  present : bool;                     (* recordings_path.exists() *)
  iterdir_error : option exn;         (* raised by iterdir(), if any *)
  files : list entry;
  unlink_error : string -> option exn;(* raised by unlink() of a name *)
  today : Q                           (* datetime.now() *)
}.

(** The dictionary built by [_get_file_info]. *)
Record file_info := {
  info_name : string;
  size_mb : Q;
  modified : Q;
  age_days : Z
}.

(** The lines the cleaner prints (separators and banners left out). *)
Inductive line :=
  | InfoError (name : string)                  (* line 110 *)
  | DateError (name : string)                  (* line 75 *)
  | MissingDirectory                           (* line 121 *)
  | Scanning                                   (* lines 128-130 *)
  | SkippingNonVideo (name : string)           (* line 149 *)
  | NoPermission                               (* line 152 *)
  | ScanFailed (e : exn)                       (* line 155 *)
  | NothingToDelete                            (* lines 182, 261 *)
  | DeletingMany (n : nat)                     (* line 185 *)
  | Deleting (i : file_info)                   (* lines 190-191 *)
  | DeleteDenied (name : string)               (* line 198 *)
  | AlreadyDeleted (name : string)             (* line 201 *)
  | DeleteFailed (name : string) (e : exn)     (* line 203 *)
  | Deleted (count : nat) (freed : Q) (errors : nat)   (* lines 207-211 *)
  | Summary (total : nat) (total_mb : Q) (deleted : nat) (freed : Q)
            (kept : nat) (errors : nat)        (* lines 229-242 *)
  | Started (dry_run : bool)                   (* lines 251-255 *)
  | WouldDelete (i : file_info)                (* lines 265-267 *)
  | DryRun (would_free : Q).                   (* lines 274-275 *)

(** class RecordingCleaner *)
Record RecordingCleaner := {
  recordings_path : string;
  retention_days : Q;
  cutoff_date : Q
}.

(** [RecordingCleaner.__init__], once the configuration is loaded. *)
Definition RecordingCleaner_init (path : string) (days : Q) (d : disk)
  : RecordingCleaner :=
  {| recordings_path := path; retention_days := days;
     cutoff_date := (today d - 86400 * days)%Q |}.

Section Methods.
Context (py : Py) (self : RecordingCleaner).

(** [RecordingCleaner._is_old_file]: the answer and what it prints; an
    exception other than [OSError] and [ValueError] escapes. *)
Definition _is_old_file (f : entry) : exn + (bool * list line) :=
  match stat f with
  | None => inr (false, [DateError (name f)])
  | Some st =>
      match fromtimestamp py (st_mtime st) with
      | inr file_mtime =>
          inr (if Qlt_le_dec file_mtime (cutoff_date self)
               then true else false, [])
      | inl e =>
          if os_or_value_error e then inr (false, [DateError (name f)])
          else inl e
      end
  end.

(** [RecordingCleaner._is_video_file] *)
Definition _is_video_file (f : entry) : bool :=
  bool_decide (lower py (suffix py (name f))
               ∈ [".mp4"; ".avi"; ".mov"; ".mkv"; ".flv"; ".wmv"]).

(** [RecordingCleaner._get_file_info] *)
Definition _get_file_info (d : disk) (f : entry)
  : exn + (option file_info * list line) :=
  match stat f with
  | None => inr (None, [InfoError (name f)])
  | Some st =>
      match fromtimestamp py (st_mtime st) with
      | inr file_mtime =>
          inr (Some {| info_name := name f;
                       size_mb := round2 py (inject_Z (st_size st)
                                             / 1048576)%Q;
                       modified := file_mtime;
                       age_days := Qfloor ((today d - file_mtime) / 86400)%Q |},
               [])
      | inl e =>
          if os_or_value_error e then inr (None, [InfoError (name f)])
          else inl e
      end
  end.

(** The accumulators of the loop of [scan_recordings]. *)
Record scan := {
  files_to_delete : list (entry * file_info);
  files_to_keep : list (entry * file_info);
  total_size : Q;
  printed : list line
}.

(** The body of the loop (lines 135-149): the new accumulators, or the
    exception that leaves the loop with what was printed until then. *)
Definition scan_file (d : disk) (a : scan) (f : entry)
  : exn * list line + scan :=
  match is_file f with
  | inl e => inl (e, printed a)
  | inr false => inr a
  | inr true =>
      match _get_file_info d f with
      | inl e => inl (e, printed a)
      | inr (None, out) =>
          inr {| files_to_delete := files_to_delete a;
                 files_to_keep := files_to_keep a;
                 total_size := total_size a; printed := printed a ++ out |}
      | inr (Some info, out) =>
          let total := (total_size a + size_mb info)%Q in
          if _is_video_file f then
            match _is_old_file f with
            | inl e => inl (e, printed a ++ out)
            | inr (true, out') =>
                inr {| files_to_delete := files_to_delete a ++ [(f, info)];
                       files_to_keep := files_to_keep a;
                       total_size := total;
                       printed := printed a ++ out ++ out' |}
            | inr (false, out') =>
                inr {| files_to_delete := files_to_delete a;
                       files_to_keep := files_to_keep a ++ [(f, info)];
                       total_size := total;
                       printed := printed a ++ out ++ out' |}
            end
          else
            inr {| files_to_delete := files_to_delete a;
                   files_to_keep := files_to_keep a;
                   total_size := total;
                   printed := printed a ++ out ++ [SkippingNonVideo (name f)] |}
      end
  end.

Fixpoint scan_files (d : disk) (a : scan) (fs : list entry)
  : exn * list line + scan :=
  match fs with
  | [] => inr a
  | f :: rest =>
      match scan_file d a f with
      | inl stop => inl stop
      | inr a' => scan_files d a' rest
      end
  end.

(** The dictionary of statistics; the early returns give no counts. *)
Record stats := {
  total_files : nat;
  total_size_mb : Q;
  counts : option (nat * nat)         (* files_to_delete, files_to_keep *)
}.

Definition no_stats : stats :=
  {| total_files := 0; total_size_mb := 0; counts := None |}.

(** [RecordingCleaner.scan_recordings]: the tuple it returns and the
    lines it prints. *)
Definition scan_recordings (d : disk)
  : (list (entry * file_info) * list (entry * file_info) * stats) * list line :=
  if negb (present d) then (([], [], no_stats), [MissingDirectory])
  else
    let start := {| files_to_delete := []; files_to_keep := [];
                    total_size := 0; printed := [Scanning] |} in
    let looped := match iterdir_error d with
                  | Some e => inl (e, printed start)
                  | None => scan_files d start (files d)
                  end in
    match looped with
    | inl (PermissionError, out) => (([], [], no_stats), out ++ [NoPermission])
    | inl (e, out) => (([], [], no_stats), out ++ [ScanFailed e])
    | inr a =>
        ((files_to_delete a, files_to_keep a,
          {| total_files := length (files_to_delete a)
                            + length (files_to_keep a);
             total_size_mb := round2 py (total_size a);
             counts := Some (length (files_to_delete a),
                             length (files_to_keep a)) |}),
         printed a)
    end.

(** The counters of [delete_old_files], with the entries of the listing
    that are still in the directory: an entry leaves it when its
    [unlink()] succeeds, and has left it when [unlink()] raises
    [FileNotFoundError]. *)
Record deletion := {
  deleted : nat;
  deleted_size : Q;
  errors : nat;
  remaining : list entry;
  said : list line
}.

(** The body of the loop of [delete_old_files] (lines 189-204). *)
Definition delete_file (d : disk) (s : deletion) (fi : entry * file_info)
  : deletion :=
  let out := said s ++ [Deleting fi.2] in
  match unlink_error d (name fi.1) with
  | None =>
      {| deleted := S (deleted s);
         deleted_size := (deleted_size s + size_mb fi.2)%Q;
         errors := errors s;
         remaining := filter (fun f => name f <> name fi.1) (remaining s);
         said := out |}
  | Some PermissionError =>
      {| deleted := deleted s; deleted_size := deleted_size s;
         errors := S (errors s); remaining := remaining s;
         said := out ++ [DeleteDenied (info_name fi.2)] |}
  | Some FileNotFoundError =>
      {| deleted := deleted s; deleted_size := deleted_size s;
         errors := errors s;
         remaining := filter (fun f => name f <> name fi.1) (remaining s);
         said := out ++ [AlreadyDeleted (info_name fi.2)] |}
  | Some e =>
      {| deleted := deleted s; deleted_size := deleted_size s;
         errors := S (errors s); remaining := remaining s;
         said := out ++ [DeleteFailed (info_name fi.2) e] |}
  end.

(** [RecordingCleaner.delete_old_files], started with the directory
    holding [fs]. *)
Definition delete_old_files (d : disk) (fs : list entry)
    (doomed : list (entry * file_info)) : deletion :=
  match doomed with
  | [] => {| deleted := 0; deleted_size := 0; errors := 0;
             remaining := fs; said := [NothingToDelete] |}
  | _ =>
      let s := foldl (delete_file d)
                 {| deleted := 0; deleted_size := 0; errors := 0;
                    remaining := fs;
                    said := [DeletingMany (length doomed)] |} doomed in
      {| deleted := deleted s; deleted_size := deleted_size s;
         errors := errors s; remaining := remaining s;
         said := said s ++ [Deleted (deleted s) (round2 py (deleted_size s))
                                    (errors s)] |}
  end.

(** [sum(info['size_mb'] for _, info in files_to_delete)] *)
Definition would_free (doomed : list (entry * file_info)) : Q :=
  foldl (fun t fi => (t + size_mb fi.2)%Q) 0%Q doomed.

(** [RecordingCleaner.run]: the files left in the directory and the
    lines printed. *)
Definition run (dry_run : bool) (d : disk) : list entry * list line :=
  let '((doomed, kept, st), out) := scan_recordings d in
  let out := Started dry_run :: out in
  match doomed with
  | [] => (files d, out ++ [NothingToDelete])
  | _ =>
      let out := out ++ (WouldDelete <$> doomed.*2) in
      if dry_run then (files d, out ++ [DryRun (would_free doomed)])
      else
        let s := delete_old_files d (files d) doomed in
        (remaining s,
         out ++ said s
             ++ [Summary (total_files st) (total_size_mb st) (deleted s)
                         (round2 py (deleted_size s)) (length kept)
                         (errors s)])
  end.

End Methods.

End Cleaner.

(** * scan_cameras.py *)
Module Scanner.

(** The seven URLs of [test_rtsp_connection], in the order tried. *)
Definition test_urls (ip : string) (port : Z) : list string :=
  let at_host := ip +:+ ":" +:+ pretty port in
  [ "rtsp://admin:admin@" +:+ at_host +:+ "/stream1";
    "rtsp://admin:123456@" +:+ at_host +:+ "/stream1";
    "rtsp://admin:password@" +:+ at_host +:+ "/stream1";
    "rtsp://admin:@" +:+ at_host +:+ "/stream1";
    "rtsp://" +:+ at_host +:+ "/stream1";
    "rtsp://admin:admin@" +:+ at_host
      +:+ "/cam/realmonitor?channel=1&subtype=0";
    "rtsp://admin:admin@" +:+ at_host +:+ "/h264/ch1/main/av_stream" ].

(** The loop of lines 50-57.  [ffprobe url] is the exit code of the
    [subprocess.run] of ffprobe on [url], or None when the call raises
    (the 10 second timeout, or ffprobe missing). *)
Fixpoint try_urls (ffprobe : string -> option Z) (urls : list string)
  : option string :=
  match urls with
  | [] => None
  | url :: rest =>
      match ffprobe url with
      | Some 0 => Some url
      | _ => try_urls ffprobe rest
      end
  end.

(** [test_rtsp_connection] *)
Definition test_rtsp_connection (ffprobe : string -> option Z)
    (ip : string) (port : Z) : option string :=
  try_urls ffprobe (test_urls ip port).

End Scanner.

(** * Predicates used to state further properties of recorder.py *)
Module SupervisionSpec.
Import Recorder RecorderSpec.

(** The line of lines 183-186 for an exit code. *)
Definition verdict (camera : Camera) (rc : Z) : message :=
  if decide (rc = 0) then FileCompleted camera else RecordingFailed camera.

(** Only polls of running handles. *)
Definition only_polls (l : list event) : Prop :=
  Forall (fun e => exists p, e = Poll p None) l.


End SupervisionSpec.

(** * Predicates used to state the properties of start_system.py *)
Module ManagerSpec.
Import Manager.

(** The command lines of the subprocesses launched so far. *)
Definition launched (m : SystemManager) : list (list string) :=
  argv <$> children m.

(** [terminate()] or [kill()] on the handle [p]. *)
Definition signals (p : nat) (e : event) : Prop :=
  e = Terminate p \/ e = Kill p.

(** The handle survives [check_processes] if its process still runs. *)
Definition if_running (m : SystemManager) (p : nat) : option nat :=
  match status m p with
  | None => Some p
  | Some _ => None
  end.





End ManagerSpec.

(** * Predicates used to state the properties of cleaner.py *)
Module CleanerSpec.
Import Cleaner.

Section Scan.
Context (py : Py) (self : RecordingCleaner) (d : disk).

(** A regular file with a recognised video extension whose size and
    date can be read: what [scan_recordings] puts in one of its lists. *)
Definition candidate (f : entry) : option (entry * file_info) :=
  match is_file f, _get_file_info py d f with
  | inr true, inr (Some i, _) =>
      if _is_video_file py f then Some (f, i) else None
  | _, _ => None
  end.

(** [_is_old_file] answers True. *)
Definition old (f : entry) : bool :=
  match _is_old_file py self f with
  | inr (true, _) => true
  | _ => false
  end.

(** Nothing raises past the handlers inside the loop. *)
Definition calm (f : entry) : Prop :=
  (exists b, is_file f = inr b)
  /\ forall st e, stat f = Some st -> fromtimestamp py (st_mtime st) = inl e ->
                  os_or_value_error e = true.

(** A regular file whose size and date can be read: what
    [scan_recordings] adds to [total_size]. *)
Definition measured (f : entry) : option file_info :=
  match is_file f, _get_file_info py d f with
  | inr true, inr (Some i, _) => Some i
  | _, _ => None
  end.

(** An exception leaves the loop of [scan_recordings] at this entry:
    [is_file()] raises, or [datetime.fromtimestamp] raises something
    [_get_file_info] does not catch. *)
Definition raising (f : entry) : Prop :=
  (exists e, is_file f = inl e)
  \/ (is_file f = inr true
      /\ exists st e, stat f = Some st
                      /\ fromtimestamp py (st_mtime st) = inl e
                      /\ os_or_value_error e = false).

End Scan.

(** How [unlink()] of the file of a pair ends. *)
Definition unlinks (d : disk) (fi : entry * file_info) : bool :=
  match unlink_error d (name fi.1) with
  | None => true
  | Some _ => false
  end.

Definition vanished (d : disk) (fi : entry * file_info) : bool :=
  match unlink_error d (name fi.1) with
  | Some FileNotFoundError => true
  | _ => false
  end.

Definition fails (d : disk) (fi : entry * file_info) : bool :=
  match unlink_error d (name fi.1) with
  | None | Some FileNotFoundError => false
  | Some _ => true
  end.

(** After [unlink()] the file is not in the directory: it was removed
    or it had disappeared. *)
Definition gone (d : disk) (fi : entry * file_info) : bool :=
  unlinks d fi || vanished d fi.

End CleanerSpec.

(** * Predicates used to state further properties of app.py *)
Module CaptureSpec.
Import App.

(** An upper bound on the steps [_capture_frames] still takes from a
    program point once [self.running] is False. *)
Definition rank (p : pc) : nat :=
  match p with
  | Finished => 0
  | LoopTop => 1
  | Sleeping _ => 2
  | ReadFailClear | ExceptClear => 3
  | ExceptRelease => 4
  | ReadFailRelease => 5
  | Read => 6
  | ConnectOpen => 7
  | ConnectRelease => 8
  | CheckCap => 9
  end.

(** Whether [cv2.VideoCapture(url)], respectively a successful read, can
    still happen from a program point once [self.running] is False. *)
Definition handle_budget (p : pc) : nat :=
  if (7 <=? rank p)%nat then 1%nat else 0%nat.

Definition frame_budget (p : pc) : nat :=
  if (6 <=? rank p)%nat then 1%nat else 0%nat.

Definition is_capture (a : action) : bool :=
  match a with
  | Capture _ => true
  | Stop _ => false
  end.

(** How many steps of a schedule belong to the capture thread. *)
Definition capture_steps (sched : list action) : nat :=
  length (List.filter is_capture sched).

(** A step that is not a read with [ret = True]. *)
Definition quiet (a : action) : Prop :=
  match a with
  | Capture e => match reads e with ReadOk _ => False | _ => True end
  | Stop _ => True
  end.

(** The server after [__init__] with a loaded configuration. *)
Definition serving (cfg : Config) : RTSPWebServer :=
  _initialize_cameras (RTSPWebServer_init (Some cfg)).

End CaptureSpec.

(** * A small recordings directory *)
Module CleanerScenario.
Import Cleaner.

Definition lower_ascii (c : Ascii.ascii) : Ascii.ascii :=
  let n := Ascii.nat_of_ascii c in
  if ((65 <=? n) && (n <=? 90))%nat then Ascii.ascii_of_nat (n + 32) else c.

Fixpoint lower_string (s : string) : string :=
  match s with
  | EmptyString => EmptyString
  | String c rest => String (lower_ascii c) (lower_string rest)
  end.

Fixpoint from_last_dot (s : string) (found : option string) : option string :=
  match s with
  | EmptyString => found
  | String c rest =>
      from_last_dot rest (if Ascii.eqb c (Ascii.ascii_of_nat 46) then Some s else found)
  end.

(** The library on ASCII names, with a local clock that reads every
    timestamp. *)
Definition ascii_py : Py :=
  {| suffix := fun n =>
       match n with
       | EmptyString => EmptyString
       | String _ rest =>
           match from_last_dot rest None with
           | Some x => if String.eqb x "." then EmptyString else x
           | None => EmptyString
           end
       end;
     lower := lower_string;
     fromtimestamp := inr;
     round2 := fun q => q |}.

Definition day : Q := 86400.

Definition regular (n : string) (mtime : Q) : entry :=
  {| name := n; is_file := inr true;
     stat := Some {| st_size := 2097152; st_mtime := mtime |} |}.

Definition old_mp4 : entry := regular "cam1_old.mp4" (1 * day).
Definition new_mp4 : entry := regular "cam1_new.MP4" (9 * day).
Definition locked_mkv : entry := regular "cam2_old.mkv" (2 * day).
Definition gone_avi : entry := regular "cam2_gone.avi" (2 * day).
Definition notes_txt : entry := regular "notes.txt" (1 * day).
Definition subdir : entry :=
  {| name := "archive"; is_file := inr false; stat := None |}.
Definition unreadable : entry :=
  {| name := "cam3.mp4"; is_file := inl PermissionError; stat := None |}.

(** Ten days after the epoch; one file is held by another program and
    one disappears before it is unlinked. *)
Definition recordings : disk :=
  {| present := true; iterdir_error := None;
     files := [old_mp4; new_mp4; subdir; notes_txt; locked_mkv; gone_avi];
     unlink_error := fun n =>
       if String.eqb n "cam2_old.mkv" then Some PermissionError
       else if String.eqb n "cam2_gone.avi" then Some FileNotFoundError
       else None;
     today := (10 * day)%Q |}.

Definition blocked : disk :=
  {| present := true; iterdir_error := None;
     files := [old_mp4; unreadable];
     unlink_error := fun _ => None;
     today := (10 * day)%Q |}.

Definition weekly (d : disk) : RecordingCleaner :=
  RecordingCleaner_init "recordings" 7 d.

End CleanerScenario.

(** * Scenarios used as concrete instances below *)
Module Scenario.

Definition cam1 : Camera :=
  {| cam_id := "cam1"; cam_name := "Entrada";
     cam_rtsp_url := "rtsp://192.168.1.10/stream1"; cam_enabled := true |}.

Definition cam2 : Camera :=
  {| cam_id := "cam2"; cam_name := "Patio";
     cam_rtsp_url := "rtsp://192.168.1.11/stream1"; cam_enabled := false |}.

Definition site (delay : Q) (cams : list Camera) : Config :=
  {| cameras_of := cams; ffmpeg_reconnect_delay := delay;
     segment_duration := 3600; recordings_path := "recordings" |}.

(** A camera that opens and delivers one frame [[1; 2; 3]] at time 50. *)
Definition good : App.env :=
  {| App.opens := true; App.reads := App.ReadOk [1; 2; 3]; App.clock := 50%Q |}.

(** A camera that opens and then fails its read. *)
Definition flaky : App.env :=
  {| App.opens := true; App.reads := App.ReadFail; App.clock := 50%Q |}.

(** [stop()] is called while the capture thread is blocked in its first
    [cv2.VideoCapture(url)]; the join times out, [stop()] finds
    [self.cap] still None and returns; then the open completes. *)
Definition slow_connect : list App.action :=
  [ App.Capture good;        (* while self.running: True *)
    App.Capture good;        (* self.cap is None: connect *)
    App.Capture good;        (* nothing to release; enters VideoCapture(url) *)
    App.Stop 0;              (* stop(): self.running = False *)
    App.Stop 0;              (* join(timeout=2) expires *)
    App.Stop 0;              (* if self.cap: None, nothing released; returns *)
    App.Capture good;        (* VideoCapture(url) returns, opened *)
    App.Capture good;        (* one frame is read and stored *)
    App.Capture good ].      (* while self.running: False, the thread ends *)

(** The thread has connected and is blocked in [cap.read()]. *)
Definition reading : list App.action :=
  [ App.Capture flaky; App.Capture flaky; App.Capture flaky;
    App.Capture flaky ].

(** [stop()] is called while the capture thread is blocked in
    [cap.read()]; the join times out and [stop()] finds [self.cap] set;
    the read fails and the thread releases the handle, and [stop()]
    releases it again. *)
Definition failed_read_race : list App.action :=
  reading ++
  [ App.Stop 0;              (* stop(): self.running = False *)
    App.Stop 0;              (* join(timeout=2) expires *)
    App.Stop 0;              (* stop(): if self.cap: true *)
    App.Capture flaky;       (* ret = False *)
    App.Capture flaky;       (* the thread: self.cap.release() *)
    App.Stop 0;              (* stop(): self.cap.release() *)
    App.Stop 0;              (* stop(): self.cap = None; returns *)
    App.Capture flaky;       (* the thread: self.cap = None *)
    App.Capture flaky;       (* time.sleep(2) *)
    App.Capture flaky ].     (* while self.running: False, the thread ends *)

(** The same race, with the thread one statement further when [stop()]
    reaches line 113: [self.cap] is None by then. *)
Definition cleared_under_stop : list App.action :=
  reading ++
  [ App.Stop 0;              (* stop(): self.running = False *)
    App.Stop 0;              (* join(timeout=2) expires *)
    App.Stop 0;              (* stop(): if self.cap: true *)
    App.Capture flaky;       (* ret = False *)
    App.Capture flaky;       (* the thread: self.cap.release() *)
    App.Capture flaky;       (* the thread: self.cap = None *)
    App.Stop 0;              (* stop(): None.release(), AttributeError *)
    App.Capture flaky;       (* time.sleep(2) *)
    App.Capture flaky ].     (* while self.running: False, the thread ends *)

(** [stop()] runs as a whole while the thread stays blocked in
    [cap.read()], which then fails. *)
Definition stop_while_reading : list App.action :=
  reading ++
  [ App.Stop 0; App.Stop 0; App.Stop 0; App.Stop 0; App.Stop 0;
    App.Capture flaky;       (* ret = False *)
    App.Capture flaky;       (* the thread: None.release(), caught *)
    App.Capture flaky;       (* if self.cap: false *)
    App.Capture flaky;       (* time.sleep(5) *)
    App.Capture flaky ].     (* while self.running: False, the thread ends *)

(** The thread streams one frame, [stop()] is called, the thread sees
    the flag and ends after 1/2 unit, then the join returns. *)
Definition clean_stop : list App.action :=
  [ App.Capture good; App.Capture good; App.Capture good;
    App.Capture good; App.Capture good;
    App.Stop 0;              (* stop(): self.running = False *)
    App.Capture good;        (* while self.running: False, the thread ends *)
    App.Stop (1 # 2);        (* join returns after 1/2 *)
    App.Stop 0;              (* if self.cap: true *)
    App.Stop 0;              (* self.cap.release() *)
    App.Stop 0 ].            (* self.cap = None; returns *)

(** A recorder configured with [cam1] (enabled) and [cam2] (disabled),
    created at time 1000. *)
Definition fresh : Recorder.RTSPRecorder :=
  Recorder.RTSPRecorder_init (site 30 [cam1; cam2]) 1000.

(** ... in which [cam1] has been recording since its launch succeeded. *)
Definition recording : Recorder.RTSPRecorder :=
  (Recorder.start_recording cam1 Recorder.LaunchRuns fresh).2.

(** ... and in which that ffmpeg has then ended with exit code 1. *)
Definition ended : Recorder.RTSPRecorder :=
  (Recorder.child_exits 0 1 "" "" recording).2.

(** A pass of the main loop during which nothing happens outside. *)
Definition idle : nat -> Recorder.tick :=
  fun _ => {| Recorder.exits := []; Recorder.launches := Recorder.LaunchRuns |}.

(** A recorder with no cameras, polling every [delay], created at [t]. *)
Definition unattended (delay t : Q) : Recorder.RTSPRecorder :=
  Recorder.RTSPRecorder_init (site delay []) t.

End Scenario.

(** * Properties of app.py *)
Module AppProofs.
Import App AppSpec Scenario.

(** ** The frame cache *)

Lemma after_writes_snoc camera_config ws w :
  after_writes camera_config (ws ++ [w])
  = store_frame w.1 w.2 (after_writes camera_config ws).
Proof. unfold after_writes. by rewrite fold_left_app. Qed.

(** After at least one write the cache holds the newest frame, which is
    the last array of the heap, and the time of that write. *)
Lemma after_writes_last camera_config ws px t :
  last ws = Some (px, t) ->
  let s := after_writes camera_config ws in
  exists f, last_frame s.2 = Some f /\ s.1 !! f = Some px
            /\ S f = length s.1 /\ last_frame_time s.2 = t.
Proof.
  destruct ws as [|w0 ws0] using rev_ind; [done|].
  rewrite last_snoc. intros [= ->]. rewrite after_writes_snoc. simpl.
  destruct (after_writes camera_config ws0) as [h cs]. simpl.
  exists (length h). split_and!; [done| |by rewrite length_app, Nat.add_1_r|done].
  by apply list_lookup_middle.
Qed.

(** With no write the cache is as [__init__] left it. *)
Lemma after_writes_nil camera_config :
  after_writes camera_config [] = ([], CameraStream_init camera_config).
Proof. reflexivity. Qed.

Lemma get_frame_stale now h cs :
  (10 <= now - last_frame_time cs)%Q -> get_frame now (h, cs) = (None, h).
Proof.
  intros Hold. unfold get_frame. destruct (last_frame cs); [|done].
  destruct (Qlt_le_dec _ _) as [Hlt|]; [|done].
  exfalso. apply (Qlt_not_le _ _ Hlt Hold).
Qed.

Lemma get_frame_fresh now h cs f px :
  last_frame cs = Some f -> h !! f = Some px ->
  (now - last_frame_time cs < 10)%Q ->
  get_frame now (h, cs) = (Some (length h), h ++ [px]).
Proof.
  intros Hf Hpx Hnew. unfold get_frame, ndarray_copy. rewrite Hf, Hpx.
  destruct (Qlt_le_dec _ _) as [|Hle]; [done|].
  exfalso. apply (Qlt_not_le _ _ Hnew Hle).
Qed.

(** A frame comes back only if one is cached and it is fresh. *)
Lemma get_frame_Some now h cs r h' :
  get_frame now (h, cs) = (Some r, h') ->
  exists f px, last_frame cs = Some f /\ h !! f = Some px
               /\ (now - last_frame_time cs < 10)%Q
               /\ r = length h /\ h' = h ++ [px].
Proof.
  unfold get_frame, ndarray_copy. destruct (last_frame cs) as [f|]; [|done].
  destruct (Qlt_le_dec _ _) as [Hlt|]; [|done].
  destruct (h !! f) as [px|] eqn:Hpx; [|done].
  intros [= <- <-]. by exists f, px.
Qed.

(** The newest of two writes, read five units later, comes back as a
    third array; read ten units later it is gone. *)
Example get_frame_two_writes :
  let s := after_writes cam1 [([1; 2; 3], 100%Q); ([4; 5; 6], 200%Q)] in
  get_frame 205 s = (Some 2%nat, [[1; 2; 3]; [4; 5; 6]; [4; 5; 6]])
  /\ get_frame 210 s = (None, [[1; 2; 3]; [4; 5; 6]]).
Proof. split; reflexivity. Qed.

(** C1. After any sequence of successful frame writes, and for any time
    [now] of the call: [get_frame] returns None when
    [now - last_frame_time >= 10]; and when the newest write [(px, t)] is
    younger than 10 units it returns a reference [copy] to a newly
    allocated array that holds the pixels [px] of the cached frame and is
    not the cached array [live] itself, all older arrays being left as
    they were. *)
Theorem get_frame_returns_fresh_copy camera_config
    (ws : list (ndarray * Q)) (now : Q) :
  let s := after_writes camera_config ws in
  ((10 <= now - last_frame_time s.2)%Q -> get_frame now s = (None, s.1))
  /\ forall px t, last ws = Some (px, t) ->
       last_frame_time s.2 = t
       /\ ((10 <= now - t)%Q -> get_frame now s = (None, s.1))
       /\ ((now - t < 10)%Q ->
           exists live copy h',
             last_frame s.2 = Some live /\ s.1 !! live = Some px
             /\ get_frame now s = (Some copy, h')
             /\ copy <> live /\ s.1 !! copy = None
             /\ h' !! copy = Some px
             /\ forall i, (i < length s.1)%nat -> h' !! i = s.1 !! i).
Proof.
  intros s. split.
  { destruct s as [h cs]. apply get_frame_stale. }
  intros px t Hlast.
  destruct (after_writes_last camera_config ws px t Hlast)
    as (f & Hf & Hpx & Hlen & Ht).
  fold s in Hf, Hpx, Hlen, Ht. destruct s as [h cs]. simpl in *.
  split_and!; [done| |].
  - intros Hold. apply get_frame_stale. by rewrite Ht.
  - intros Hnew. exists f, (length h), (h ++ [px]).
    split_and!; [done|done| | | | |].
    + apply get_frame_fresh with f; [done|done|by rewrite Ht].
    + lia.
    + by apply lookup_ge_None_2.
    + by apply list_lookup_middle.
    + intros i Hi. by apply lookup_app_l.
Qed.

Lemma get_frame_returns_fresh_copy_witness :
  let ws := [([1; 2; 3], 100%Q); ([4; 5; 6], 200%Q)] in
  let s := after_writes cam1 ws in
  last ws = Some ([4; 5; 6], 200%Q) /\ (205 - 200 < 10)%Q
  /\ exists live copy h',
       last_frame s.2 = Some live /\ s.1 !! live = Some [4; 5; 6]
       /\ get_frame 205 s = (Some copy, h')
       /\ copy <> live /\ s.1 !! copy = None
       /\ h' !! copy = Some [4; 5; 6]
       /\ forall i, (i < length s.1)%nat -> h' !! i = s.1 !! i.
Proof.
  intros ws s. split; [reflexivity|]. split; [reflexivity|].
  destruct (get_frame_returns_fresh_copy cam1 ws 205) as [_ H].
  destruct (H [4; 5; 6] 200%Q eq_refl) as (_ & _ & Hnew).
  apply Hnew. reflexivity.
Defined.

(** At a simulated time 5, within 10 units of the initial
    [last_frame_time = 0], a new worker still has no frame to give. *)
Example get_frame_initial_at_5 :
  get_frame 5 ([], CameraStream_init cam1) = (None, []).
Proof. reflexivity. Qed.

(** C9. A worker on which no frame was ever read ([last_frame] is None,
    [last_frame_time] is 0, started or not) answers None at every call
    time; and whenever [get_frame] does return a frame, a frame is cached
    and it is younger than 10 units. *)
Theorem get_frame_none_before_first_frame camera_config (now : Q) (h : heap) :
  last_frame (CameraStream_init camera_config) = None
  /\ last_frame_time (CameraStream_init camera_config) = 0%Q
  /\ get_frame now (h, CameraStream_init camera_config) = (None, h)
  /\ get_frame now (h, start (CameraStream_init camera_config)) = (None, h)
  /\ get_frame now (after_writes camera_config []) = (None, [])
  /\ forall cs r h',
       get_frame now (h, cs) = (Some r, h') ->
       exists f, last_frame cs = Some f /\ is_Some (h !! f)
                 /\ (now - last_frame_time cs < 10)%Q.
Proof.
  split_and!; try reflexivity.
  intros cs r h' Hget.
  destruct (get_frame_Some _ _ _ _ _ Hget) as (f & px & Hf & Hpx & Hnew & _).
  exists f. by rewrite Hpx.
Qed.

Lemma get_frame_none_before_first_frame_witness :
  let s := after_writes cam1 [([7; 7], 100%Q)] in
  get_frame 101 s = (Some 1%nat, [[7; 7]; [7; 7]])
  /\ exists f, last_frame s.2 = Some f /\ is_Some (s.1 !! f)
               /\ (101 - last_frame_time s.2 < 10)%Q.
Proof.
  intros s. split; [reflexivity|].
  destruct (get_frame_none_before_first_frame cam1 101 s.1)
    as (_ & _ & _ & _ & _ & H).
  apply (H s.2 1%nat [[7; 7]; [7; 7]]). reflexivity.
Defined.

(** ** Stopping a worker *)

Example clean_stop_runs :
  let w := run clean_stop (spawn cam1) in
  handles w = [{| isOpened := false; releases := 1 |}]
  /\ cap (self w) = None /\ join_waits w = [(1 # 2)%Q]
  /\ join_timeouts w = 0%nat /\ stops_returned w = 1%nat.
Proof. vm_compute. done. Qed.

Example slow_connect_runs :
  let w := run slow_connect (spawn cam1) in
  handles w = [{| isOpened := true; releases := 0 |}]
  /\ cap (self w) = Some 0%nat /\ thread (self w) = Some Finished
  /\ join_waits w = [2%Q] /\ stops_returned w = 1%nat.
Proof. vm_compute. done. Qed.

Example failed_read_race_runs :
  let w := run failed_read_race (spawn cam1) in
  handles w = [{| isOpened := false; releases := 2 |}]
  /\ cap (self w) = None /\ thread (self w) = Some Finished
  /\ join_waits w = [2%Q] /\ stops_returned w = 1%nat.
Proof. vm_compute. done. Qed.

Example cleared_under_stop_runs :
  let w := run cleared_under_stop (spawn cam1) in
  handles w = [{| isOpened := false; releases := 1 |}]
  /\ cap (self w) = None /\ thread (self w) = Some Finished
  /\ join_waits w = [2%Q] /\ stops_returned w = 0%nat
  /\ stops_raised w = 1%nat.
Proof. vm_compute. done. Qed.

Example stop_while_reading_runs :
  let w := run stop_while_reading (spawn cam1) in
  handles w = [{| isOpened := false; releases := 1 |}]
  /\ cap (self w) = None /\ thread (self w) = Some Finished
  /\ join_waits w = [2%Q] /\ join_timeouts w = 1%nat
  /\ stops_returned w = 1%nat /\ stops_raised w = 0%nat.
Proof. vm_compute. done. Qed.

(** *** The release count of every handle, as long as no join timed out *)

Lemma ok_none hs b b' : ok None b hs -> ok None b' hs.
Proof. intros [H _]. split; [|done]. intros i v Hv. by rewrite (H i v Hv). Qed.

Lemma ok_release c hs :
  ok (Some c) false hs -> ok (Some c) true (alter release c hs).
Proof.
  intros [H Hc]. split.
  - intros i v. destruct (decide (c = i)) as [->|Hne].
    + rewrite list_lookup_alter_eq. destruct (hs !! i) as [v0|] eqn:Hv0; [|done].
      intros [= <-]. rewrite decide_True by done. simpl.
      specialize (H i v0 Hv0). rewrite decide_True in H by done. by rewrite H.
    + rewrite list_lookup_alter_ne by done. intros Hv.
      rewrite (H i v Hv). by rewrite !decide_False by congruence.
  - intros i Hi. rewrite length_alter. by apply Hc.
Qed.

Lemma ok_clear c b hs : ok c true hs -> ok None b hs.
Proof.
  intros [H _]. split; [|done]. intros i v Hv. rewrite (H i v Hv).
  rewrite (decide_False (P := None = Some i)) by done. by case_decide.
Qed.

Lemma ok_released_open c hs b :
  ok c true hs ->
  ok (Some (length hs)) false (hs ++ [{| isOpened := b; releases := 0 |}]).
Proof.
  intros [H _]. split.
  - intros i v Hv. apply lookup_app_Some in Hv as [Hv|[Hge Hv]].
    + rewrite decide_False; [|intros [= Hi]; apply lookup_lt_Some in Hv; lia].
      rewrite (H i v Hv). by case_decide.
    + destruct (i - length hs)%nat as [|n] eqn:Hn; [|done].
      injection Hv as <-. rewrite decide_True; [done|f_equal; lia].
  - intros i [= <-]. rewrite length_app. simpl. lia.
Qed.

Lemma ok_unreleased c b hs : ok (Some c) false hs -> ok None b (alter release c hs).
Proof. intros H. apply ok_clear with (Some c). by apply ok_release. Qed.

(** The capture thread keeps the release counts right on its own. *)
Lemma thread_step_handles_ok e w : handles_ok w -> handles_ok (thread_step e w).
Proof.
  unfold handles_ok, thread_step. intros H.
  destruct (thread (self w)) as [p|] eqn:Hp; [|by rewrite Hp].
  destruct p; simpl in H;
    repeat match goal with
    | |- context [match cap (self w) with _ => _ end] =>
        destruct (cap (self w)) as [c|] eqn:Hc
    | |- context [if running (self w) then _ else _] =>
        destruct (running (self w))
    | |- context [if handle_open ?c w then _ else _] =>
        destruct (handle_open c w)
    | |- context [if opens e then _ else _] => destruct (opens e)
    | |- context [match reads e with _ => _ end] => destruct (reads e)
    end; simpl; rewrite ?Hc, ?Hp; simpl;
    eauto using ok_none, ok_release, ok_clear, ok_released_open.
Qed.

Lemma thread_step_caller e w :
  at_stop (thread_step e w) = at_stop w
  /\ join_waits (thread_step e w) = join_waits w
  /\ join_timeouts (thread_step e w) = join_timeouts w
  /\ stops_returned (thread_step e w) = stops_returned w
  /\ running (self (thread_step e w)) = running (self w).
Proof.
  unfold thread_step.
  destruct (thread (self w)) as [p|]; [|done].
  destruct p; try done;
    repeat match goal with
    | |- context [match cap (self w) with _ => _ end] =>
        destruct (cap (self w))
    | |- context [if ?b then _ else _] => destruct b eqn:?
    | |- context [match reads e with _ => _ end] => destruct (reads e)
    end; simpl; done.
Qed.

Lemma thread_step_finished e w :
  thread (self w) = Some Finished -> thread_step e w = w.
Proof. unfold thread_step. by intros ->. Qed.

Lemma thread_step_alive e w :
  thread (self w) <> None -> thread (self (thread_step e w)) <> None.
Proof.
  unfold thread_step.
  destruct (thread (self w)) as [p|] eqn:Hp; [|done]. intros _.
  destruct p; try (by rewrite Hp);
    repeat match goal with
    | |- context [match cap (self w) with _ => _ end] =>
        destruct (cap (self w))
    | |- context [if ?b then _ else _] => destruct b
    | |- context [match reads e with _ => _ end] => destruct (reads e)
    end; done.
Qed.

Lemma thread_step_raised e w :
  stops_raised (thread_step e w) = stops_raised w.
Proof.
  unfold thread_step.
  destruct (thread (self w)) as [p|]; [|done].
  destruct p; try done;
    repeat match goal with
    | |- context [match cap (self w) with _ => _ end] =>
        destruct (cap (self w))
    | |- context [if ?b then _ else _] => destruct b eqn:?
    | |- context [match reads e with _ => _ end] => destruct (reads e)
    end; simpl; done.
Qed.

Lemma spawn_joined_inv camera_config : joined_inv (spawn camera_config).
Proof.
  split; simpl; try done; try lia.
  - intros [?|?]; [done|lia].
  - by intros [?|?].
Qed.

Lemma spawn_handles_ok camera_config : handles_ok (spawn camera_config).
Proof. by split. Qed.

Lemma step_timeouts_mono w a :
  join_timeouts (step w a) = 0%nat -> join_timeouts w = 0%nat.
Proof.
  destruct a as [e|d]; simpl.
  - by destruct (thread_step_caller e w) as (_ & _ & -> & _).
  - unfold stop_step. destruct (at_stop w); simpl; try done.
    + destruct (thread (self w)) as [[]|]; simpl; done.
    + by destruct (cap (self w)).
    + by destruct (cap (self w)).
Qed.

Lemma step_joined_inv w a :
  joined_inv w -> join_timeouts (step w a) = 0%nat -> joined_inv (step w a).
Proof.
  intros [Hh Ht Hf Hr Hc Hx Hret] Hto. destruct a as [e|d]; simpl in *.
  - destruct (thread_step_caller e w) as (Es & _ & _ & Er & Erun).
    destruct (past_join (at_stop w)) eqn:Hpast.
    { rewrite thread_step_finished by auto. split; rewrite ?Hpast; auto. }
    split; rewrite ?Es, ?Er, ?Erun, ?thread_step_raised, ?Hpast; try done.
    + assert (stop_pending (at_stop w) = false) as Hsp
        by (destruct (at_stop w); done).
      rewrite Hsp, orb_false_r in Hh |- *.
      by apply thread_step_handles_ok.
    + by apply thread_step_alive.
    + intros [H|H]; by rewrite H in Hpast.
    + intros H. destruct (Hret H) as [Hfin Hcap].
      rewrite thread_step_finished; auto.
  - unfold stop_step in *. destruct (at_stop w) eqn:Hs; simpl in *.
    + split; simpl; try done. by intros [?|?].
    + destruct (thread (self w)) as [p|] eqn:Hp; [|done].
      destruct p; simpl in *; try done.
      split; simpl; rewrite ?Hp; try done; auto. by intros [?|?].
    + specialize (Hr eq_refl). rewrite Hr in Hh. simpl in Hh.
      assert (running (self w) = false) as Hrun by (apply Hf; by left).
      destruct (cap (self w)) as [c|] eqn:Hcap; simpl in *;
        split; simpl; rewrite ?Hr, ?Hcap; simpl; try done;
        try (by intros [?|?]).
      intros H. by destruct (Hret H).
    + specialize (Hr eq_refl). rewrite Hr in Hh. simpl in Hh.
      assert (running (self w) = false) as Hrun by (apply Hf; by left).
      destruct (cap (self w)) as [c|] eqn:Hcap; [|by destruct Hc; auto].
      split; simpl; rewrite ?Hr, ?Hcap; simpl; try done.
      * by apply ok_release.
      * intros H. by destruct (Hret H).
    + specialize (Hr eq_refl). rewrite Hr in Hh. simpl in Hh.
      assert (running (self w) = false) as Hrun by (apply Hf; by left).
      split; simpl; rewrite ?Hr; simpl; try done.
      * by apply ok_clear with (cap (self w)).
      * by intros [?|?].
Qed.

Lemma run_timeouts_mono sched w :
  join_timeouts (run sched w) = 0%nat -> join_timeouts w = 0%nat.
Proof.
  revert w. induction sched as [|a sched IH]; intros w Hto; [done|].
  simpl in Hto. apply IH in Hto. by apply step_timeouts_mono in Hto.
Qed.

Lemma run_joined_inv sched w :
  joined_inv w -> join_timeouts (run sched w) = 0%nat -> joined_inv (run sched w).
Proof.
  revert w. induction sched as [|a sched IH]; intros w Hw Hto; [done|].
  simpl in *. apply IH; [|done]. apply step_joined_inv; [done|].
  by apply run_timeouts_mono in Hto.
Qed.

(** No join ever blocks its caller for more than the timeout. *)
Lemma join_blocked_le timeout d : (join_blocked timeout d <= timeout)%Q.
Proof.
  unfold join_blocked. destruct (Qlt_le_dec d timeout) as [H|H].
  - by apply Qlt_le_weak.
  - apply Qle_refl.
Qed.

Lemma step_join_waits w a :
  Forall (fun d => (d <= 2)%Q) (join_waits w) ->
  Forall (fun d => (d <= 2)%Q) (join_waits (step w a)).
Proof.
  intros H. destruct a as [e|d]; simpl.
  - by destruct (thread_step_caller e w) as (_ & -> & _).
  - unfold stop_step. destruct (at_stop w); simpl; try done.
    + destruct (thread (self w)) as [[]|]; simpl; rewrite ?app_nil_r;
        try done;
        apply Forall_app; split; try done; apply Forall_singleton;
        try apply Qle_refl; apply join_blocked_le.
    + by destruct (cap (self w)).
    + by destruct (cap (self w)).
Qed.

Lemma run_join_waits sched w :
  Forall (fun d => (d <= 2)%Q) (join_waits w) ->
  Forall (fun d => (d <= 2)%Q) (join_waits (run sched w)).
Proof.
  revert w. induction sched as [|a sched IH]; intros w Hw; [done|].
  simpl. apply IH. by apply step_join_waits.
Qed.

(** A further [stop()] on a worker whose thread has ended and whose
    handle is gone changes neither the handles, nor the object, nor the
    frames, and does not raise. *)
Lemma stop_again d w :
  at_stop w = StopIdle -> thread (self w) = Some Finished ->
  cap (self w) = None -> running (self w) = false ->
  handles (stop d w) = handles w /\ self (stop d w) = self w
  /\ frames (stop d w) = frames w /\ at_stop (stop d w) = StopIdle
  /\ join_timeouts (stop d w) = join_timeouts w
  /\ stops_raised (stop d w) = stops_raised w.
Proof.
  intros Hs Ht Hc Hr.
  destruct w as [cs fr hs st jw jt sr sx]. destruct cs. simpl in *. subst.
  done.
Qed.

(** C3. Release of the capture handle exactly once after [stop()] is
    broken in three ways, each by a race between [stop()] and the
    capture thread over [self.cap], which no lock protects, after a join
    that timed out.  For every camera:
    - [stop()] called during a slow first connect returns having
      released nothing, and the handle the thread then opens is never
      released (leak);
    - [stop()] called during a blocked read that then fails releases the
      handle the thread has just released (double release);
    - in the same race one statement later, [stop()] finds [self.cap]
      set at line 112 and None at line 113, and ends with an
      [AttributeError] instead of returning.
    When [stop()] runs as a whole while the thread stays blocked in the
    read, the same code releases the handle exactly once. *)
Theorem stop_races_with_capture (camera_config : Camera) :
  (let w := run slow_connect (spawn camera_config) in
   at_stop w = StopIdle /\ stops_returned w = 1%nat
   /\ thread (self w) = Some Finished
   /\ handles w = [{| isOpened := true; releases := 0 |}]
   /\ ~ released_exactly_once w)
  /\ (let w := run failed_read_race (spawn camera_config) in
      at_stop w = StopIdle /\ stops_returned w = 1%nat
      /\ thread (self w) = Some Finished
      /\ handles w = [{| isOpened := false; releases := 2 |}]
      /\ ~ released_exactly_once w)
  /\ (let w := run cleared_under_stop (spawn camera_config) in
      at_stop w = StopIdle /\ stops_returned w = 0%nat
      /\ stops_raised w = 1%nat
      /\ thread (self w) = Some Finished
      /\ handles w = [{| isOpened := false; releases := 1 |}])
  /\ (let w := run stop_while_reading (spawn camera_config) in
      at_stop w = StopIdle /\ stops_returned w = 1%nat
      /\ stops_raised w = 0%nat /\ join_timeouts w = 1%nat
      /\ thread (self w) = Some Finished
      /\ released_exactly_once w).
Proof.
  split_and!; intros w; split_and!; try reflexivity.
  - intros H. apply Forall_inv in H. discriminate H.
  - intros H. apply Forall_inv in H. discriminate H.
  - by repeat constructor.
Qed.

(** X23. Under every interleaving of the capture thread and of calls of
    [stop()]: no join blocks the caller for more than 2 units; and once
    [stop()] has returned, if every join so far returned because the
    capture thread had ended (none timed out), then no call of [stop()]
    has raised, [self.cap] is None, every capture handle the worker
    constructed has been released exactly once, and a further [stop()]
    changes nothing. *)
Theorem stop_releases_once_when_joined camera_config (sched : list action) :
  let w := run sched (spawn camera_config) in
  Forall (fun d => (d <= 2)%Q) (join_waits w)
  /\ (at_stop w = StopIdle -> (1 <= stops_returned w)%nat ->
      join_timeouts w = 0%nat ->
      stops_raised w = 0%nat
      /\ cap (self w) = None
      /\ thread (self w) = Some Finished
      /\ released_exactly_once w
      /\ forall d, handles (stop d w) = handles w
                   /\ self (stop d w) = self w
                   /\ frames (stop d w) = frames w
                   /\ stops_raised (stop d w) = 0%nat
                   /\ released_exactly_once (stop d w)).
Proof.
  intros w. split.
  { apply run_join_waits. constructor. }
  intros Hidle Hret Hto.
  destruct (run_joined_inv sched _ (spawn_joined_inv camera_config) Hto)
    as [Hh _ Hf _ _ Hx Hr].
  fold w in Hh, Hf, Hx, Hr. destruct (Hr Hret) as [Hfin Hcap].
  assert (released_exactly_once w) as Honce.
  { apply Forall_forall. intros v Hv.
    apply list_elem_of_lookup in Hv as [i Hi].
    destruct Hh as [Hh _]. rewrite (Hh i v Hi), Hcap. by case_decide. }
  split_and!; try done.
  intros d.
  destruct (stop_again d w Hidle Hfin Hcap) as (Eh & Es & Ef & _ & _ & Ex).
  { apply Hf. by right. }
  split_and!; try done; [congruence|].
  unfold released_exactly_once. by rewrite Eh.
Qed.

Lemma stop_releases_once_when_joined_witness :
  let w := run clean_stop (spawn cam1) in
  at_stop w = StopIdle /\ (1 <= stops_returned w)%nat
  /\ join_timeouts w = 0%nat
  /\ stops_raised w = 0%nat
  /\ cap (self w) = None
  /\ thread (self w) = Some Finished
  /\ released_exactly_once w
  /\ forall d, handles (stop d w) = handles w
               /\ self (stop d w) = self w
               /\ frames (stop d w) = frames w
               /\ stops_raised (stop d w) = 0%nat
               /\ released_exactly_once (stop d w).
Proof.
  intros w.
  assert (at_stop w = StopIdle) as H1 by reflexivity.
  assert (1 <= stops_returned w)%nat as H2 by (vm_compute; lia).
  assert (join_timeouts w = 0%nat) as H3 by reflexivity.
  split; [exact H1|]. split; [exact H2|]. split; [exact H3|].
  exact (proj2 (stop_releases_once_when_joined cam1 clean_stop) H1 H2 H3).
Defined.

(** ** Which workers the preview server creates *)

Lemma initialize_camera_enabled_only cams srv c :
  c ∈ cams -> enabled_only cams srv ->
  enabled_only cams (initialize_camera srv c).
Proof.
  intros Hin [Hth Hcam]. unfold initialize_camera.
  destruct (cam_enabled c) eqn:He; [|done]. split; simpl.
  - apply Forall_app. split; [done|]. by apply Forall_singleton.
  - intros k cs. destruct (decide (cam_id c = k)) as [<-|Hne].
    + rewrite lookup_insert_eq. intros [= <-]. by exists c.
    + rewrite lookup_insert_ne by done. apply Hcam.
Qed.

Lemma initialize_cameras_enabled_only cams l srv :
  (forall c, c ∈ l -> c ∈ cams) -> enabled_only cams srv ->
  enabled_only cams (fold_left initialize_camera l srv).
Proof.
  revert srv. induction l as [|c l IH]; intros srv Hsub Hsrv; [done|].
  simpl. apply IH.
  - intros c' Hc'. apply Hsub. by apply list_elem_of_further.
  - apply initialize_camera_enabled_only; [|done].
    apply Hsub. apply list_elem_of_here.
Qed.

Lemma _initialize_cameras_enabled_only cfg :
  enabled_only (from_option cameras_of [] cfg)
               (_initialize_cameras (RTSPWebServer_init cfg)).
Proof.
  unfold _initialize_cameras. simpl.
  assert (forall cams, enabled_only cams (RTSPWebServer_init cfg)) as H0.
  { intros cams. split; simpl; [constructor|]. intros k cs.
    by rewrite lookup_empty. }
  destruct cfg as [cfg|]; simpl; [|apply H0].
  by apply initialize_cameras_enabled_only.
Qed.

Example initialize_two_cameras :
  let srv := _initialize_cameras
               (RTSPWebServer_init (Some (site 30 [cam1; cam2]))) in
  threads_started srv = [cam1]
  /\ cameras srv !! "cam1" = Some (start (CameraStream_init cam1))
  /\ cameras srv !! "cam2" = None.
Proof. vm_compute. done. Qed.

End AppProofs.

(** * Properties of recorder.py *)
Module RecorderProofs.
Import Recorder RecorderSpec Scenario.

(** Unfolding the plumbing of [M]. *)
Ltac run_M :=
  unfold mbind, M_bind, mret, M_ret, try_except, raise, get, modify,
         print, sleep, poll, terminate, kill, communicate, child_exits,
         subprocess_Popen, _build_ffmpeg_command, settle, del_process
    in *; simpl in *.

(** ** start_recording *)

Lemma already_recording_true r camera_id :
  already_recording r camera_id = true <->
  exists p, processes r !! camera_id = Some p /\ status r p = None.
Proof.
  unfold already_recording. destruct (processes r !! camera_id) as [p|].
  - rewrite bool_decide_eq_true. split; [by exists p|by intros (? & [= <-] & ?)].
  - split; [done|by intros (? & ? & ?)].
Qed.

Lemma start_recording_live camera o r :
  already_recording r (cam_id camera) = true ->
  start_recording camera o r
  = (Return tt,
     emit (Print (AlreadyRecording (cam_id camera)))
       (after_guard r (cam_id camera))).
Proof.
  intros (p & Hp & Hs)%already_recording_true.
  unfold start_recording, after_guard. run_M. rewrite Hp. run_M.
  rewrite Hs. done.
Qed.

Lemma guard_not_live camera_id r :
  already_recording r camera_id = false ->
  (match processes r !! camera_id with
   | Some process =>
       rc ← poll process; mret (bool_decide (rc = None))
   | None => mret false
   end) r = (Return false, after_guard r camera_id).
Proof.
  unfold after_guard, already_recording.
  destruct (processes r !! camera_id) as [p|] eqn:Hp; [|done].
  intros Hn. run_M. by rewrite Hn.
Qed.

Lemma after_guard_none r camera_id :
  processes r !! camera_id = None -> after_guard r camera_id = r.
Proof. unfold after_guard. by intros ->. Qed.

Lemma after_guard_fields r camera_id :
  config (after_guard r camera_id) = config r
  /\ processes (after_guard r camera_id) = processes r
  /\ running (after_guard r camera_id) = running r
  /\ children (after_guard r camera_id) = children r
  /\ now (after_guard r camera_id) = now r.
Proof. unfold after_guard. by destruct (processes r !! camera_id). Qed.

Lemma start_recording_raises camera e r :
  already_recording r (cam_id camera) = false ->
  start_recording camera (LaunchRaises e) r
  = (Return tt,
     emit (Print (launch_error (cam_id camera) e))
       (emit (Print (StartingRecording camera))
          (after_guard r (cam_id camera)))).
Proof.
  intros Hn. unfold start_recording.
  unfold mbind at 1, M_bind at 1, get at 1.
  unfold mbind at 1, M_bind at 1. rewrite (guard_not_live _ _ Hn).
  run_M. by destruct e.
Qed.

Lemma start_recording_exits camera code out err r :
  already_recording r (cam_id camera) = false ->
  let p := length (children r) in
  start_recording camera (LaunchExits code out err) r
  = (Return tt,
     emit (Print (FfmpegFailedImmediately out err))
       (emit (Communicate p)
          (emit (Poll p (Some code))
             (launched camera
                (exit_with code out err (new_child camera r)) r)))).
Proof.
  intros Hn p. unfold start_recording.
  unfold mbind at 1, M_bind at 1, get at 1.
  unfold mbind at 1, M_bind at 1. rewrite (guard_not_live _ _ Hn).
  subst p. unfold launched, after_guard. clear Hn.
  destruct r as [cfg tab run ch t tr]. simpl.
  assert (forall P : Popen, (ch ++ [P]) !! length ch = Some P) as Hnew
    by (intros; by apply list_lookup_middle).
  assert (forall (f : Popen -> Popen) P,
            alter f (length ch) (ch ++ [P]) = ch ++ [f P]) as Halt.
  { intros f P. rewrite (alter_app_r_alt _ _ _ (length ch)) by lia.
    by rewrite Nat.sub_diag. }
  destruct (tab !! cam_id camera) as [q|];
    unfold try_except, mbind, M_bind, _build_ffmpeg_command, print, modify,
           subprocess_Popen, sleep, settle, child_exits, poll, communicate,
           status, emit, set_now, set_children, new_child; simpl;
    rewrite Halt; simpl; repeat (rewrite Hnew; simpl);
    by rewrite <- !(assoc_L (++)).
Qed.

Lemma start_recording_runs camera r :
  already_recording r (cam_id camera) = false ->
  let p := length (children r) in
  start_recording camera LaunchRuns r
  = (Return tt,
     emit (Print (RecordingStarted p))
       (set_processes (<[cam_id camera := p]> (processes r))
          (emit (Poll p None) (launched camera (new_child camera r) r)))).
Proof.
  intros Hn p. unfold start_recording.
  unfold mbind at 1, M_bind at 1, get at 1.
  unfold mbind at 1, M_bind at 1. rewrite (guard_not_live _ _ Hn).
  subst p. unfold launched, after_guard. clear Hn.
  destruct r as [cfg tab run ch t tr]. simpl.
  assert (forall P : Popen, (ch ++ [P]) !! length ch = Some P) as Hnew
    by (intros; by apply list_lookup_middle).
  destruct (tab !! cam_id camera) as [q|];
    unfold try_except, mbind, M_bind, _build_ffmpeg_command, print, modify,
           subprocess_Popen, sleep, settle, mret, M_ret, poll, status,
           emit, set_now, set_children, set_processes, new_child; simpl;
    repeat (rewrite Hnew; simpl);
    by rewrite <- !(assoc_L (++)).
Qed.

Example recording_state :
  processes recording !! "cam1" = Some 0%nat
  /\ status recording 0 = None
  /\ already_recording recording "cam1" = true
  /\ already_recording ended "cam1" = false
  /\ already_recording fresh "cam1" = false.
Proof. vm_compute. done. Qed.

(** C4. If the camera's registered subprocess is still running,
    [start_recording] only polls it and prints the warning: the process
    table, the subprocesses and the clock are as before.  If no
    registered subprocess is running and the launched ffmpeg has ended
    with [code] when it is polled, once, after the sleep of 2, then its
    output is drained with [communicate()] and printed, and the process
    table is left as it was: the new handle is not registered. *)
Theorem start_recording_skips_or_reports camera (r : RTSPRecorder) :
  (forall o, already_recording r (cam_id camera) = true ->
     exists p r',
       processes r !! cam_id camera = Some p
       /\ start_recording camera o r = (Return tt, r')
       /\ processes r' = processes r /\ children r' = children r
       /\ now r' = now r
       /\ trace r' = trace r ++ [Poll p None;
                                 Print (AlreadyRecording (cam_id camera))])
  /\ (forall code out err, already_recording r (cam_id camera) = false ->
        exists r',
          let p := length (children r) in
          start_recording camera (LaunchExits code out err) r = (Return tt, r')
          /\ processes r' = processes r
          /\ now r' = (now r + 2)%Q
          /\ status r' p = Some code
          /\ trace r' = trace (after_guard r (cam_id camera))
                        ++ [Print (StartingRecording camera);
                            Launch camera p; Sleep 2; Poll p (Some code);
                            Communicate p;
                            Print (FfmpegFailedImmediately out err)]).
Proof.
  split.
  - intros o Hlive. rewrite (start_recording_live _ o _ Hlive).
    apply already_recording_true in Hlive as (p & Hp & Hs).
    exists p. eexists. split; [done|]. split; [done|].
    unfold after_guard. rewrite Hp, Hs. simpl.
    by rewrite <- (assoc_L (++)).
  - intros code out err Hn. rewrite (start_recording_exits _ code out err _ Hn).
    eexists. split; [done|]. simpl. split_and!; try done.
    + unfold status. simpl. by rewrite list_lookup_middle.
    + by rewrite <- !(assoc_L (++)).
Qed.

Lemma start_recording_skips_or_reports_witness :
  already_recording recording (cam_id cam1) = true
  /\ already_recording fresh (cam_id cam1) = false
  /\ (exists p r',
        processes recording !! cam_id cam1 = Some p
        /\ start_recording cam1 LaunchRuns recording = (Return tt, r')
        /\ processes r' = processes recording
        /\ children r' = children recording
        /\ now r' = now recording
        /\ trace r' = trace recording
                      ++ [Poll p None; Print (AlreadyRecording (cam_id cam1))])
  /\ (exists r',
        let p := length (children fresh) in
        start_recording cam1 (LaunchExits 1 "" "no route to host") fresh
        = (Return tt, r')
        /\ processes r' = processes fresh
        /\ now r' = (now fresh + 2)%Q
        /\ status r' p = Some 1
        /\ trace r' = trace (after_guard fresh (cam_id cam1))
                      ++ [Print (StartingRecording cam1);
                          Launch cam1 p; Sleep 2; Poll p (Some 1);
                          Communicate p;
                          Print (FfmpegFailedImmediately "" "no route to host")]).
Proof.
  assert (already_recording recording (cam_id cam1) = true) as H1
    by reflexivity.
  assert (already_recording fresh (cam_id cam1) = false) as H2
    by reflexivity.
  split; [exact H1|]. split; [exact H2|]. split.
  - exact (proj1 (start_recording_skips_or_reports cam1 recording)
             LaunchRuns H1).
  - exact (proj2 (start_recording_skips_or_reports cam1 fresh)
             1 ""%string "no route to host"%string H2).
Defined.

(** ** stop_recording *)

Lemma stop_recording_absent camera_id w r :
  processes r !! camera_id = None ->
  stop_recording camera_id w r = (Return tt, r).
Proof. intros Hp. unfold stop_recording. run_M. by rewrite Hp. Qed.

Lemma stop_recording_registered camera_id w r p :
  processes r !! camera_id = Some p ->
  exists r',
    stop_recording camera_id w r = (Return tt, r')
    /\ processes r' = delete camera_id (processes r)
    /\ (now r' <= now r + 10)%Q
    /\ match status r p with
       | Some rc =>
           trace r' = trace r ++ [Poll p (Some rc)]
           /\ children r' = children r /\ now r' = now r
       | None =>
           trace r' = trace r
                      ++ [Poll p None; Print (StoppingRecording camera_id p);
                          Terminate p; Wait p 10]
                      ++ (if ends_in_time w then [] else [Kill p])
           /\ (ends_in_time w = false -> now r' = (now r + 10)%Q)
       end.
Proof.
  intros Hp. unfold stop_recording, wait. run_M. rewrite Hp. run_M.
  destruct (status r p) as [rc|] eqn:Hs; run_M; rewrite ?Hp.
  - eexists. split; [done|]. simpl. split_and!; try done.
    rewrite <- (Qplus_0_r (now r)) at 1. apply Qplus_le_r. done.
  - destruct w as [[d code]|]; simpl.
    + destruct (Qle_bool d 10) eqn:Hd; run_M; rewrite ?Hp.
      * eexists. split; [done|]. simpl. split_and!; try done.
        -- apply Qplus_le_r. by apply Qle_bool_iff.
        -- by rewrite <- !(assoc_L (++)).
      * eexists. split; [done|]. simpl. split_and!; try done.
        -- apply Qle_refl.
        -- by rewrite <- !(assoc_L (++)).
    + rewrite ?Hp. eexists. split; [done|]. simpl. split_and!; try done.
      * apply Qle_refl.
      * by rewrite <- !(assoc_L (++)).
Qed.

(** C5. With a handle [p] registered for the camera, [stop_recording]
    returns normally with no handle registered for that camera and the
    entries of the other cameras untouched, whatever the process did.  If
    [p] was still running it is sent [terminate()] and waited for with a
    timeout of 10, and [kill()] follows exactly when the wait timed out;
    if [p] had already ended it is only polled.  The call takes at most
    10 units. *)
Theorem stop_recording_unregisters camera_id (w : option (Q * Z))
    (r : RTSPRecorder) (p : nat) :
  processes r !! camera_id = Some p ->
  exists r',
    stop_recording camera_id w r = (Return tt, r')
    /\ processes r' !! camera_id = None
    /\ (forall k, k <> camera_id -> processes r' !! k = processes r !! k)
    /\ (now r' <= now r + 10)%Q
    /\ match status r p with
       | Some rc =>
           trace r' = trace r ++ [Poll p (Some rc)]
           /\ children r' = children r /\ now r' = now r
       | None =>
           trace r' = trace r
                      ++ [Poll p None; Print (StoppingRecording camera_id p);
                          Terminate p; Wait p 10]
                      ++ (if ends_in_time w then [] else [Kill p])
           /\ (ends_in_time w = false -> now r' = (now r + 10)%Q)
       end.
Proof.
  intros Hp.
  destruct (stop_recording_registered camera_id w r p Hp)
    as (r' & Hrun & Htab & Hnow & Htrace).
  exists r'. split_and!; try done.
  - rewrite Htab. apply lookup_delete_eq.
  - intros k Hk. rewrite Htab. by apply lookup_delete_ne.
Qed.

Lemma stop_recording_unregisters_witness :
  processes recording !! "cam1" = Some 0%nat
  /\ exists r',
       stop_recording "cam1" None recording = (Return tt, r')
       /\ processes r' !! "cam1" = None
       /\ (forall k, k <> "cam1" -> processes r' !! k = processes recording !! k)
       /\ (now r' <= now recording + 10)%Q
       /\ match status recording 0 with
          | Some rc =>
              trace r' = trace recording ++ [Poll 0 (Some rc)]
              /\ children r' = children recording /\ now r' = now recording
          | None =>
              trace r' = trace recording
                         ++ [Poll 0 None;
                             Print (StoppingRecording "cam1" 0);
                             Terminate 0; Wait 0 10]
                         ++ (if ends_in_time None then [] else [Kill 0])
              /\ (ends_in_time None = false ->
                  now r' = (now recording + 10)%Q)
          end.
Proof.
  split; [reflexivity|].
  apply (stop_recording_unregisters "cam1" None recording 0). reflexivity.
Defined.

(** The three ways a registered ffmpeg can meet [stop_recording]. *)
Example stop_recording_cases :
  trace (stop_recording "cam1" (Some (3%Q, 255)) recording).2
  = trace recording ++ [Poll 0 None; Print (StoppingRecording "cam1" 0);
                        Terminate 0; Wait 0 10]
  /\ trace (stop_recording "cam1" None recording).2
     = trace recording ++ [Poll 0 None; Print (StoppingRecording "cam1" 0);
                           Terminate 0; Wait 0 10; Kill 0]
  /\ trace (stop_recording "cam1" None ended).2
     = trace ended ++ [Poll 0 (Some 1)].
Proof. split_and!; reflexivity. Qed.

(** *** stop_all_recordings *)

Lemma stop_recording_total camera_id w r :
  exists r',
    stop_recording camera_id w r = (Return tt, r')
    /\ processes r' = delete camera_id (processes r).
Proof.
  destruct (processes r !! camera_id) as [p|] eqn:Hp.
  - destruct (stop_recording_registered camera_id w r p Hp) as (r' & ? & ? & _).
    by exists r'.
  - exists r. split; [by apply stop_recording_absent|].
    by rewrite delete_id.
Qed.

Lemma stop_each_total (ws : string -> option (Q * Z)) ids r :
  exists r',
    for_each ids (fun camera_id => stop_recording camera_id (ws camera_id)) r
    = (Return tt, r')
    /\ forall k, processes r' !! k
                 = if decide (k ∈ ids) then None else processes r !! k.
Proof.
  revert r. induction ids as [|i ids IH]; intros r.
  - exists r. split; [done|]. intros k. rewrite decide_False; [done|].
    apply not_elem_of_nil.
  - destruct (stop_recording_total i (ws i) r) as (r1 & Hrun & Htab).
    destruct (IH r1) as (r' & Hrest & Hlook).
    exists r'. split.
    + simpl. unfold mbind, M_bind. by rewrite Hrun.
    + intros k. rewrite Hlook, Htab.
      destruct (decide (k = i)) as [->|Hne].
      * rewrite (decide_True (P := i ∈ i :: ids)) by apply list_elem_of_here.
        rewrite lookup_delete_eq. by case_decide.
      * rewrite lookup_delete_ne by done.
        destruct (decide (k ∈ ids)) as [Hin|Hnin].
        -- rewrite decide_True; [done|]. by apply list_elem_of_further.
        -- rewrite decide_False; [done|].
           intros [?|?]%elem_of_cons; done.
Qed.

Lemma stop_all_recordings_empties ws r :
  exists r',
    stop_all_recordings ws r = (Return tt, r') /\ processes r' = ∅.
Proof.
  unfold stop_all_recordings. run_M.
  destruct (stop_each_total ws (map_to_list (processes r)).*1 r)
    as (r' & Hrun & Hlook).
  exists r'. split; [done|]. apply map_eq. intros k.
  rewrite Hlook, lookup_empty. case_decide as Hin; [done|].
  destruct (processes r !! k) as [p|] eqn:Hk; [|done].
  exfalso. apply Hin. apply list_elem_of_fmap. exists (k, p).
  split; [done|]. by apply elem_of_map_to_list.
Qed.

Lemma stop_all_recordings_empty ws r :
  processes r = ∅ -> stop_all_recordings ws r = (Return tt, r).
Proof.
  intros He. unfold stop_all_recordings. run_M.
  by rewrite He, map_to_list_empty.
Qed.

(** C10. [stop_recording] on a camera with no entry in the process table
    returns normally and changes nothing; so does the second of two
    calls in a row for one camera; [stop_all_recordings] on an empty
    table returns normally and changes nothing, and so does every
    [stop_all_recordings] that follows another. *)
Theorem stop_recording_absent_is_noop camera_id (r : RTSPRecorder) :
  (forall w, processes r !! camera_id = None ->
     stop_recording camera_id w r = (Return tt, r))
  /\ (forall w1 w2,
        let r1 := (stop_recording camera_id w1 r).2 in
        (stop_recording camera_id w1 r).1 = Return tt
        /\ stop_recording camera_id w2 r1 = (Return tt, r1))
  /\ (forall ws, processes r = ∅ ->
        stop_all_recordings ws r = (Return tt, r))
  /\ (forall ws1 ws2,
        let r1 := (stop_all_recordings ws1 r).2 in
        (stop_all_recordings ws1 r).1 = Return tt
        /\ stop_all_recordings ws2 r1 = (Return tt, r1)).
Proof.
  split_and!.
  - intros w. apply stop_recording_absent.
  - intros w1 w2.
    destruct (stop_recording_total camera_id w1 r) as (r' & Hrun & Htab).
    rewrite Hrun. simpl. split; [done|].
    apply stop_recording_absent. rewrite Htab. apply lookup_delete_eq.
  - intros ws. apply stop_all_recordings_empty.
  - intros ws1 ws2.
    destruct (stop_all_recordings_empties ws1 r) as (r' & Hrun & Htab).
    rewrite Hrun. simpl. split; [done|].
    by apply stop_all_recordings_empty.
Qed.

Lemma stop_recording_absent_is_noop_witness :
  processes fresh !! "cam1" = None /\ processes fresh = ∅
  /\ stop_recording "cam1" None fresh = (Return tt, fresh)
  /\ stop_all_recordings (fun _ => None) fresh = (Return tt, fresh).
Proof.
  assert (processes fresh !! "cam1" = None) as H1 by reflexivity.
  assert (processes fresh = ∅) as H2 by reflexivity.
  destruct (stop_recording_absent_is_noop "cam1" fresh) as (Ha & _ & Hb & _).
  split; [exact H1|]. split; [exact H2|]. split.
  - exact (Ha None H1).
  - exact (Hb (fun _ => None) H2).
Defined.

(** ** Every call of start_recording returns *)

Lemma start_recording_total camera o r :
  exists r',
    start_recording camera o r = (Return tt, r')
    /\ config r' = config r /\ running r' = running r
    /\ started camera r r'.
Proof.
  destruct (after_guard_fields r (cam_id camera)) as (Ec & Ep & Er & Eh & En).
  destruct (already_recording r (cam_id camera)) eqn:Hlive.
  - rewrite (start_recording_live _ o _ Hlive). eexists. split; [done|].
    simpl. split_and!; try done. by apply started_skipped.
  - destruct o as [e|code out err|].
    + rewrite (start_recording_raises _ e _ Hlive). eexists. split; [done|].
      simpl. split_and!; try done. by apply started_raised.
    + rewrite (start_recording_exits _ code out err _ Hlive).
      eexists. split; [done|]. simpl. split_and!; try done.
      by apply started_exited with code out err.
    + rewrite (start_recording_runs _ _ Hlive).
      eexists. split; [done|]. simpl. split_and!; try done.
      by apply started_registered.
Qed.

(** ** reconcile: the body of check_and_restart_recordings *)

Lemma before_restart_fields camera r :
  config (before_restart camera r) = config r
  /\ running (before_restart camera r) = running r
  /\ processes (before_restart camera r) = delete (cam_id camera) (processes r)
  /\ children (before_restart camera r) = children r
  /\ now (before_restart camera r) = now r
  /\ already_recording (before_restart camera r) (cam_id camera) = false.
Proof.
  unfold before_restart, already_recording.
  destruct (processes r !! cam_id camera) as [p|] eqn:Hp; simpl.
  - rewrite lookup_delete_eq. done.
  - rewrite Hp. split_and!; try done. by rewrite delete_id.
Qed.

Lemma reconcile_camera_disabled camera o r :
  cam_enabled camera = false -> reconcile_camera camera o r = (Return tt, r).
Proof. intros He. unfold reconcile_camera. by rewrite He. Qed.

Lemma reconcile_camera_recording camera o r :
  cam_enabled camera = true ->
  already_recording r (cam_id camera) = true ->
  reconcile_camera camera o r = (Return tt, after_guard r (cam_id camera)).
Proof.
  intros He (p & Hp & Hs)%already_recording_true.
  unfold reconcile_camera, after_guard. rewrite He. run_M. rewrite Hp.
  run_M. rewrite Hs. done.
Qed.

Lemma reconcile_camera_due camera o r :
  cam_enabled camera = true ->
  already_recording r (cam_id camera) = false ->
  reconcile_camera camera o r = start_recording camera o (before_restart camera r).
Proof.
  intros He Hn. unfold reconcile_camera, before_restart, already_recording in *.
  rewrite He. run_M.
  destruct (processes r !! cam_id camera) as [p|] eqn:Hp; run_M; [|done].
  apply bool_decide_eq_false in Hn.
  destruct (status r p) as [rc|] eqn:Hs; [|done].
  rewrite bool_decide_eq_true_2 by done.
  replace (status (emit (Poll p (Some rc)) r) p) with (Some rc) by done.
  destruct rc as [|?|?]; simpl; rewrite Hp; done.
Qed.

(** What one pass of the loop body can have done for its camera. *)
Lemma reconcile_camera_total camera o r :
  exists r',
    reconcile_camera camera o r = (Return tt, r')
    /\ config r' = config r /\ running r' = running r
    /\ ((processes r' = processes r /\ children r' = children r
         /\ now r' = now r)
        \/ (cam_enabled camera = true
            /\ already_recording r (cam_id camera) = false
            /\ started camera (before_restart camera r) r')).
Proof.
  destruct (cam_enabled camera) eqn:He.
  - destruct (already_recording r (cam_id camera)) eqn:Hlive.
    + rewrite (reconcile_camera_recording _ o _ He Hlive).
      destruct (after_guard_fields r (cam_id camera)) as (Ec & Ep & Er & Eh & En).
      eexists. split; [done|]. split_and!; try done. by left.
    + rewrite (reconcile_camera_due _ o _ He Hlive).
      destruct (before_restart_fields camera r) as (Ec & Er & _).
      destruct (start_recording_total camera o (before_restart camera r))
        as (r' & Hrun & Hc & Hr & Hst).
      exists r'. split; [done|]. rewrite Hc, Hr. split_and!; try done.
      by right.
  - rewrite (reconcile_camera_disabled _ o _ He). exists r.
    split_and!; try done. by left.
Qed.

(** ** Which subprocesses a method launches, and that it returns *)

Lemma extends_refl A r : extends A r r.
Proof.
  split_and!; try done. exists []. split; [by rewrite app_nil_r|constructor].
Qed.

Lemma extends_trans A r1 r2 r3 :
  extends A r1 r2 -> extends A r2 r3 -> extends A r1 r3.
Proof.
  intros (Ec & Er & l & El & Hl) (Ec' & Er' & l' & El' & Hl').
  split_and!; [congruence|congruence|].
  exists (l ++ l'). split; [by rewrite El', El, (assoc_L (++))|].
  by apply Forall_app.
Qed.

Lemma extends_weaken (A B : Camera -> Prop) r r' :
  (forall c, A c -> B c) -> extends A r r' -> extends B r r'.
Proof.
  intros HAB (Ec & Er & l & El & Hl). split_and!; try done.
  exists l. split; [done|]. by apply (Forall_impl A).
Qed.

Lemma returns_weaken (A B : Camera -> Prop) m r :
  (forall c, A c -> B c) -> returns_at A m r -> returns_at B m r.
Proof.
  intros HAB (r' & Hrun & Hext). exists r'. split; [done|].
  by apply extends_weaken with A.
Qed.

Lemma returns_seq A (m k : M unit) r :
  returns_at A m r -> (forall r', returns_at A k r') ->
  returns_at A (m;; k) r.
Proof.
  intros (r1 & Hm & H1) Hk. destruct (Hk r1) as (r2 & Hk2 & H2).
  exists r2. split; [|by apply extends_trans with r1].
  unfold mbind, M_bind. by rewrite Hm.
Qed.

Lemma returns_ret A r : returns_at A (mret tt) r.
Proof. exists r. split; [done|apply extends_refl]. Qed.

(** A step that leaves the subprocess owners, the configuration and the
    flag alone. *)
Lemma returns_quiet A (m : M unit) r r' :
  m r = (Return tt, r') -> config r' = config r -> running r' = running r ->
  owners r' = owners r -> returns_at A m r.
Proof.
  intros Hm Ec Er Eo. exists r'. split; [done|]. split_and!; try done.
  exists []. split; [by rewrite app_nil_r|constructor].
Qed.

Lemma owners_alter (f : Popen -> Popen) p (l : list Popen) :
  (forall P, for_camera (f P) = for_camera P) ->
  for_camera <$> alter f p l = for_camera <$> l.
Proof.
  intros Hf. revert p. induction l as [|P l IH]; intros [|p]; simpl; try done.
  - by rewrite Hf.
  - f_equal. apply IH.
Qed.

Lemma exit_with_owner code out err P :
  for_camera (exit_with code out err P) = for_camera P.
Proof. unfold exit_with. by destruct (returncode P). Qed.

Lemma returns_child_exits A p code out err r :
  returns_at A (child_exits p code out err) r.
Proof.
  eapply returns_quiet; [done..|]. unfold owners. simpl.
  apply owners_alter. intros P. apply exit_with_owner.
Qed.

Lemma returns_print A m r : returns_at A (print m) r.
Proof. by eapply returns_quiet. Qed.

Lemma sleep_ok d r :
  Qle_bool 0 d = true ->
  sleep d r = (Return tt, emit (Sleep d) (set_now (now r + d)%Q r)).
Proof. unfold sleep. by intros ->. Qed.

Lemma sleep_negative d r :
  Qle_bool 0 d = false -> sleep d r = (Raise ValueError, r).
Proof. unfold sleep. by intros ->. Qed.

Lemma returns_sleep A d r :
  Qle_bool 0 d = true -> returns_at A (sleep d) r.
Proof. intros Hd. eapply returns_quiet; [by apply sleep_ok|done..]. Qed.

Lemma returns_start_recording camera o r :
  returns_at (fun c => c = camera) (start_recording camera o) r.
Proof.
  destruct (start_recording_total camera o r) as (r' & Hrun & Ec & Er & Hst).
  exists r'. split; [done|]. split_and!; try done. unfold owners.
  destruct Hst as [_ _ Eh _|_ _ Eh _|code out err _ _ Eh|_ _ Eh]; rewrite Eh.
  - exists []. split; [by rewrite app_nil_r|constructor].
  - exists []. split; [by rewrite app_nil_r|constructor].
  - exists [camera]. rewrite fmap_app. simpl. rewrite ?exit_with_owner.
    split; [done|]. by repeat constructor.
  - exists [camera]. rewrite fmap_app. split; [done|]. by repeat constructor.
Qed.

Lemma returns_reconcile_camera camera o r :
  returns_at (fun c => c = camera /\ cam_enabled c = true)
             (reconcile_camera camera o) r.
Proof.
  destruct (cam_enabled camera) eqn:He.
  - destruct (already_recording r (cam_id camera)) eqn:Hlive.
    + destruct (after_guard_fields r (cam_id camera)) as (Ec & Ep & Er & Eh & En).
      eapply returns_quiet;
        [by apply reconcile_camera_recording|done..|].
      unfold owners. by rewrite Eh.
    + destruct (before_restart_fields camera r) as (Ec & Er & _ & Eh & _).
      destruct (returns_start_recording camera o (before_restart camera r))
        as (r' & Hrun & Ec' & Er' & l & El & Hl).
      exists r'. split; [by rewrite (reconcile_camera_due _ o _ He Hlive)|].
      split_and!; [congruence|congruence|].
      exists l. unfold owners in *. rewrite Eh in El. split; [done|].
      apply (Forall_impl _ _ _ Hl). by intros c ->.
  - eapply returns_quiet; [by apply reconcile_camera_disabled|done..].
Qed.

Lemma returns_exits A (l : list (nat * Z)) r :
  returns_at A (for_each l (fun pc => child_exits pc.1 pc.2 "" "")) r.
Proof.
  revert r. induction l as [|x l IH]; intros r; [apply returns_ret|].
  simpl. apply returns_seq; [apply returns_child_exits|done].
Qed.

Lemma returns_check_cameras cams os r :
  returns_at (fun c => c ∈ cams /\ cam_enabled c = true)
             (check_cameras cams os) r.
Proof.
  revert os r. induction cams as [|camera cams IH]; intros os r;
    [apply returns_ret|].
  simpl. apply returns_seq; [apply returns_exits|]. intros r1.
  apply returns_seq.
  - eapply returns_weaken; [|apply returns_reconcile_camera].
    intros c [-> ?]. split; [apply list_elem_of_here|done].
  - intros r2. eapply returns_weaken; [|apply IH].
    intros c [? ?]. split; [by apply list_elem_of_further|done].
Qed.

Lemma returns_start_cameras cams os r :
  returns_at (fun c => c ∈ cams /\ cam_enabled c = true)
             (start_cameras cams os) r.
Proof.
  revert os r. induction cams as [|camera cams IH]; intros os r;
    [apply returns_ret|].
  simpl. apply returns_seq.
  - destruct (cam_enabled camera) eqn:He; [|apply returns_ret].
    eapply returns_weaken; [|apply returns_start_recording].
    intros c ->. split; [apply list_elem_of_here|done].
  - intros r2. eapply returns_weaken; [|apply IH].
    intros c [? ?]. split; [by apply list_elem_of_further|done].
Qed.

Lemma returns_check_and_restart os r :
  returns_at (enabled_in (config r)) (check_and_restart_recordings os) r.
Proof.
  unfold check_and_restart_recordings.
  destruct (returns_check_cameras (cameras_of (config r)) os r)
    as (r' & Hrun & Hext).
  exists r'. split; [|done]. by run_M.
Qed.

Lemma returns_report_status A r : returns_at A report_status r.
Proof.
  destruct (bool_decide (py_int (now r) `mod` 300 = 0)) eqn:Hdue.
  - eapply (returns_quiet _ _ _ (emit (Print (Status (active_count r))) r));
      try done.
    unfold report_status. run_M. by rewrite Hdue.
  - eapply (returns_quiet _ _ _ r); try done.
    unfold report_status. run_M. by rewrite Hdue.
Qed.

Lemma returns_main_loop ticks r :
  delay_ok r = true ->
  returns_at (enabled_in (config r)) (main_loop ticks) r.
Proof.
  revert r. induction ticks as [|os ticks IH]; intros r Hd;
    [apply returns_ret|].
  unfold returns_at. simpl. unfold mbind at 1, M_bind at 1, get at 1.
  destruct (running r); [|apply returns_ret].
  destruct (returns_sleep (enabled_in (config r))
              (ffmpeg_reconnect_delay (config r)) r Hd) as (r1 & H1 & E1).
  destruct (returns_check_and_restart os r1) as (r2 & H2 & E2).
  destruct (returns_report_status (enabled_in (config r)) r2) as (r3 & H3 & E3).
  assert (config r1 = config r) as C1 by apply E1.
  assert (config r3 = config r) as C3.
  { destruct E2 as (? & _), E3 as (? & _). congruence. }
  destruct (IH r3) as (r4 & H4 & E4).
  { unfold delay_ok in *. by rewrite C3. }
  rewrite C1 in E2. rewrite C3 in E4.
  exists r4. split.
  - unfold mbind, M_bind. by rewrite H1, H2, H3.
  - eauto using extends_trans.
Qed.

(** With a negative delay the first [time.sleep] of the loop raises. *)
Lemma main_loop_negative ticks r :
  delay_ok r = false ->
  main_loop ticks r
  = (match ticks with
     | [] => Return tt
     | _ :: _ => if running r then Raise ValueError else Return tt
     end, r).
Proof.
  intros Hd. destruct ticks as [|os ticks]; [done|]. simpl.
  unfold mbind at 1, M_bind at 1, get at 1. destruct (running r); [|done].
  unfold mbind, M_bind. by rewrite (sleep_negative _ _ Hd).
Qed.

Lemma ends_main_loop ticks r :
  ends_at (enabled_in (config r)) (main_loop ticks) r.
Proof.
  destruct (delay_ok r) eqn:Hd.
  - destruct (returns_main_loop ticks r Hd) as (r' & H & E). by exists (Return tt), r'.
  - unfold ends_at. rewrite (main_loop_negative _ _ Hd). eexists _, r.
    split; [done|]. apply extends_refl.
Qed.

Lemma extends_quiet A r r' :
  config r' = config r -> running r' = running r -> owners r' = owners r ->
  extends A r r'.
Proof.
  intros Ec Er Eo. split_and!; try done.
  exists []. split; [by rewrite app_nil_r|constructor].
Qed.

Lemma stop_recording_owners A camera_id w r :
  returns_at A (stop_recording camera_id w) r.
Proof.
  destruct (processes r !! camera_id) as [p|] eqn:Hp.
  - unfold returns_at, stop_recording, wait. run_M. rewrite Hp. run_M.
    assert (forall f, (forall P, for_camera (f P) = for_camera P) ->
              for_camera <$> alter f p (children r) = owners r) as Halt
      by (intros; by apply owners_alter).
    destruct (status r p) as [rc|] eqn:Hs; run_M; rewrite ?Hp.
    + eexists. split; [done|]. by apply extends_quiet.
    + destruct w as [[d code]|]; simpl;
        [destruct (Qle_bool d 10) eqn:Hd; run_M|]; rewrite ?Hp;
        (eexists; split; [done|]; apply extends_quiet; try done);
        unfold owners; simpl;
        apply Halt; intros P; try apply exit_with_owner; done.
  - eapply returns_quiet; [by apply stop_recording_absent|done..].
Qed.

Lemma returns_stop_all A ws r : returns_at A (stop_all_recordings ws) r.
Proof.
  unfold returns_at, stop_all_recordings.
  unfold mbind at 1, M_bind at 1, get at 1.
  generalize ((map_to_list (processes r)).*1). intros ids. revert r.
  induction ids as [|i ids IH]; intros r; [apply returns_ret|].
  simpl. apply returns_seq; [apply stop_recording_owners|done].
Qed.

(** [run] as a whole: the outcome is that of the main loop, unless
    [mkdir] raises, and the final state is reached through the startup
    pass, the loop and [stop_all_recordings]. *)
Lemma run_outcome mkdir startup ticks ws r :
  match mkdir with
  | Some e =>
      run mkdir startup ticks ws r
      = (Raise e, emit (Print Rule) (emit (Print Welcome) r))
  | None =>
      exists r1 r2 r3,
        start_cameras (cameras_of (config r)) startup (opened r)
        = (Return tt, r1)
        /\ stop_all_recordings ws r3 = (Return tt, r2)
        /\ run mkdir startup ticks ws r
           = ((main_loop ticks (ready r1)).1, emit (Print Stopped) r2)
        /\ r3 = (main_loop ticks (ready r1)).2
        /\ extends (enabled_in (config r)) r r1
        /\ extends (enabled_in (config r)) r3 r2
  end.
Proof.
  destruct mkdir as [e|]; [done|].
  destruct (returns_start_cameras (cameras_of (config r)) startup (opened r))
    as (r1 & H1 & E1).
  destruct (main_loop ticks (ready r1)) as [res r3] eqn:H3.
  destruct (returns_stop_all (enabled_in (config r)) ws r3) as (r2 & H2 & E2).
  exists r1, r2, r3. split; [exact H1|]. split; [exact H2|]. split_and!.
  - unfold run, _create_recordings_directory, try_finally, mbind, M_bind,
      print, modify, get. simpl. fold (opened r). rewrite H1. simpl.
    fold (ready r1). rewrite H3. simpl. by rewrite H2.
  - by rewrite H3.
  - destruct E1 as (? & ? & l & ? & ?). split_and!; try done. by exists l.
  - done.
Qed.

Lemma ends_run mkdir startup ticks ws r :
  ends_at (enabled_in (config r)) (run mkdir startup ticks ws) r.
Proof.
  pose proof (run_outcome mkdir startup ticks ws r) as H.
  destruct mkdir as [e|].
  { unfold ends_at. rewrite H. eexists _, _. split; [done|].
    by apply extends_quiet. }
  destruct H as (r1 & r2 & r3 & H1 & H2 & Hrun & E3 & E1 & E2).
  unfold ends_at. rewrite Hrun. eexists _, _. split; [done|].
  assert (config r1 = config r) as C1 by apply E1.
  destruct (ends_main_loop ticks (ready r1)) as (res & r3' & H3 & E3').
  assert (r3' = r3) as -> by (rewrite E3, H3; done).
  simpl in E3'. rewrite C1 in E3'.
  assert (extends (enabled_in (config r)) r1 (ready r1)) as E1'
    by (by apply extends_quiet).
  assert (extends (enabled_in (config r)) r2 (emit (Print Stopped) r2)) as E4
    by (by apply extends_quiet).
  eauto using extends_trans.
Qed.

Lemma returns_run startup ticks ws r :
  delay_ok r = true ->
  returns_at (enabled_in (config r)) (run None startup ticks ws) r.
Proof.
  intros Hd. destruct (ends_run None startup ticks ws r) as (res & r' & H & E).
  exists r'. split; [|done]. rewrite H. f_equal.
  destruct (run_outcome None startup ticks ws r)
    as (r1 & r2 & r3 & H1 & H2 & Hrun & E3 & E1 & E2).
  rewrite Hrun in H. injection H as <- _.
  destruct (returns_main_loop ticks (ready r1)) as (r4 & -> & _); [|done].
  unfold delay_ok in *. simpl. destruct E1 as (-> & _). done.
Qed.

(** ** A launch that fails *)

(** Whatever its fate, a launch that is attempted is announced first. *)
Lemma start_recording_attempt camera o r :
  already_recording r (cam_id camera) = false ->
  exists r' rest,
    start_recording camera o r = (Return tt, r')
    /\ trace r' = trace (after_guard r (cam_id camera))
                  ++ [Print (StartingRecording camera)] ++ rest
    /\ attempt_ends camera o rest
    /\ (forall e, o = LaunchRaises e -> processes r' = processes r)
    /\ (o = LaunchRuns -> already_recording r' (cam_id camera) = true).
Proof.
  intros Hn. destruct o as [e|code out err|].
  - rewrite (start_recording_raises _ e _ Hn). eexists. eexists.
    split; [done|]. simpl. split; [by rewrite <- !(assoc_L (++))|].
    split; [done|]. split; [|done]. intros _ _.
    by destruct (after_guard_fields r (cam_id camera)) as (_ & -> & _).
  - rewrite (start_recording_exits _ code out err _ Hn). eexists. eexists.
    split; [done|]. simpl. split; [by rewrite <- !(assoc_L (++))|].
    split; [by eexists _, _|]. by split.
  - rewrite (start_recording_runs _ _ Hn). eexists. eexists.
    split; [done|]. simpl. split; [by rewrite <- !(assoc_L (++))|].
    split; [by eexists _, _|]. split; [done|].
    intros _. unfold already_recording, status. simpl.
    rewrite lookup_insert_eq. by rewrite list_lookup_middle.
Qed.

Example failed_launch_does_not_stop_the_pass :
  let cam3 := {| cam_id := "cam3"; cam_name := "Garage";
                 cam_rtsp_url := "rtsp://192.168.1.12/stream1";
                 cam_enabled := true |} in
  let r := RTSPRecorder_init (site 30 [cam1; cam2; cam3]) 1000 in
  let os i := {| exits := [];
                 launches := match i with
                             | 0%nat => LaunchRaises FileNotFoundError
                             | _ => LaunchRuns
                             end |} in
  let r' := (check_and_restart_recordings os r).2 in
  (check_and_restart_recordings os r).1 = Return tt
  /\ processes r' !! "cam1" = None
  /\ processes r' !! "cam2" = None
  /\ processes r' !! "cam3" = Some 0%nat.
Proof. vm_compute. done. Qed.

(** *** What a step keeps: the trace grows, the entries of other cameras
    stay, and a subprocess that has ended stays ended *)

Lemma after_guard_trace r k : exists l, trace (after_guard r k) = trace r ++ l.
Proof.
  unfold after_guard. destruct (processes r !! k); simpl; [eauto|].
  exists []. by rewrite app_nil_r.
Qed.

Lemma status_keeps_app (ch : list Popen) P p rc :
  ch !! p ≫= returncode = Some rc ->
  (ch ++ [P]) !! p ≫= returncode = Some rc.
Proof.
  destruct (ch !! p) as [P0|] eqn:Hp; [|done]. intros H.
  by rewrite (lookup_app_l_Some _ _ _ _ Hp).
Qed.

Lemma status_keeps_exit (ch : list Popen) p' code out err p rc :
  ch !! p ≫= returncode = Some rc ->
  alter (exit_with code out err) p' ch !! p ≫= returncode = Some rc.
Proof.
  destruct (ch !! p) as [P0|] eqn:Hp; [|done]. simpl. intros H.
  destruct (decide (p' = p)) as [->|Hne].
  - rewrite list_lookup_alter_eq, Hp. simpl. unfold exit_with. by rewrite H.
  - rewrite list_lookup_alter_ne by done. by rewrite Hp.
Qed.

Lemma not_recording_keeps r r' k :
  already_recording r k = false ->
  processes r' !! k = processes r !! k ->
  (forall p rc, status r p = Some rc -> status r' p = Some rc) ->
  already_recording r' k = false.
Proof.
  unfold already_recording. intros Hn -> Hst.
  destruct (processes r !! k) as [p|]; [|done].
  apply bool_decide_eq_false in Hn. apply bool_decide_eq_false.
  destruct (status r p) as [rc|] eqn:Hs; [|done]. by rewrite (Hst p rc Hs).
Qed.

Lemma start_recording_keeps camera o r :
  exists r' l,
    start_recording camera o r = (Return tt, r')
    /\ trace r' = trace r ++ l
    /\ config r' = config r /\ running r' = running r
    /\ (forall k, k <> cam_id camera -> processes r' !! k = processes r !! k)
    /\ (forall p rc, status r p = Some rc -> status r' p = Some rc).
Proof.
  destruct (after_guard_fields r (cam_id camera)) as (Ec & Ep & Er & Eh & _).
  destruct (after_guard_trace r (cam_id camera)) as [l0 Et].
  destruct (already_recording r (cam_id camera)) eqn:Hlive.
  { rewrite (start_recording_live _ o _ Hlive). eexists _, _.
    split; [done|]. simpl. rewrite Et, Ec, Ep, Er.
    split; [by rewrite <- (assoc_L (++))|]. split_and!; try done.
    intros p rc. unfold status. simpl. by rewrite Eh. }
  destruct o as [e|code out err|].
  - rewrite (start_recording_raises _ e _ Hlive). eexists _, _.
    split; [done|]. simpl. rewrite Et, Ec, Ep, Er.
    split; [by rewrite <- !(assoc_L (++))|]. split_and!; try done.
    intros p rc. unfold status. simpl. by rewrite Eh.
  - rewrite (start_recording_exits _ code out err _ Hlive). eexists _, _.
    split; [done|]. simpl. rewrite Et.
    split; [by rewrite <- !(assoc_L (++))|]. split_and!; try done.
    intros p rc. unfold status. simpl. apply status_keeps_app.
  - rewrite (start_recording_runs _ _ Hlive). eexists _, _.
    split; [done|]. simpl. rewrite Et.
    split; [by rewrite <- !(assoc_L (++))|]. split_and!; try done.
    + intros k Hk. by rewrite lookup_insert_ne.
    + intros p rc. unfold status. simpl. apply status_keeps_app.
Qed.

Lemma before_restart_trace camera r :
  exists l, trace (before_restart camera r)
            = trace r ++ l ++ [Print (StartingNew camera)].
Proof.
  unfold before_restart. destruct (processes r !! cam_id camera); simpl.
  - eexists [_; _]. by rewrite <- !(assoc_L (++)).
  - by exists [].
Qed.

Lemma reconcile_camera_keeps camera o r :
  exists r' l,
    reconcile_camera camera o r = (Return tt, r')
    /\ trace r' = trace r ++ l
    /\ config r' = config r /\ running r' = running r
    /\ (forall k, (cam_enabled camera = true -> cam_id camera <> k) ->
                  processes r' !! k = processes r !! k)
    /\ (forall p rc, status r p = Some rc -> status r' p = Some rc).
Proof.
  destruct (cam_enabled camera) eqn:He.
  2:{ rewrite (reconcile_camera_disabled _ o _ He). exists r, [].
      rewrite app_nil_r. by split_and!. }
  destruct (already_recording r (cam_id camera)) eqn:Hlive.
  { rewrite (reconcile_camera_recording _ o _ He Hlive).
    destruct (after_guard_fields r (cam_id camera)) as (Ec & Ep & Er & Eh & _).
    destruct (after_guard_trace r (cam_id camera)) as [l0 Et].
    eexists _, l0. split; [done|]. rewrite Ep. split_and!; try done.
    intros p rc. unfold status. by rewrite Eh. }
  rewrite (reconcile_camera_due _ o _ He Hlive).
  destruct (before_restart_fields camera r) as (Ec & Er & Ep & Eh & _).
  destruct (before_restart_trace camera r) as [l0 Et].
  destruct (start_recording_keeps camera o (before_restart camera r))
    as (r' & l & H & Et' & Ec' & Er' & Ek & Es).
  exists r', ((l0 ++ [Print (StartingNew camera)]) ++ l).
  split; [done|]. rewrite Et', Et, Ec', Er'.
  split; [by rewrite <- !(assoc_L (++))|]. split_and!; try done.
  - intros k Hk. specialize (Hk eq_refl).
    rewrite Ek by done. rewrite Ep. by apply lookup_delete_ne.
  - intros p rc Hs. apply Es. unfold status in *. by rewrite Eh.
Qed.

(** A camera that is enabled and not recording is relaunched: the new
    launch is announced, and if it fails the camera has no entry. *)
Lemma reconcile_camera_announced camera o r :
  cam_enabled camera = true ->
  already_recording r (cam_id camera) = false ->
  exists r' la rest,
    reconcile_camera camera o r = (Return tt, r')
    /\ trace r' = trace r ++ la ++ [Print (StartingRecording camera)] ++ rest
    /\ attempt_ends camera o rest
    /\ (forall e, o = LaunchRaises e -> processes r' !! cam_id camera = None).
Proof.
  intros He Hlive. rewrite (reconcile_camera_due _ o _ He Hlive).
  destruct (before_restart_fields camera r) as (_ & _ & Ep & _ & _ & Hn).
  destruct (before_restart_trace camera r) as [l0 Et].
  destruct (start_recording_attempt camera o _ Hn)
    as (r' & rest & H & Et' & Hends & Hraise & _).
  assert (processes (before_restart camera r) !! cam_id camera = None) as Hnone
    by (rewrite Ep; apply lookup_delete_eq).
  rewrite (after_guard_none _ _ Hnone) in Et'.
  exists r', (l0 ++ [Print (StartingNew camera)]), rest.
  split; [done|]. rewrite Et', Et.
  split; [by rewrite <- !(assoc_L (++))|]. split; [done|].
  intros e ->. by rewrite (Hraise e eq_refl).
Qed.

Lemma exits_keeps (l : list (nat * Z)) r :
  exists r',
    for_each l (fun pc => child_exits pc.1 pc.2 "" "") r = (Return tt, r')
    /\ trace r' = trace r /\ config r' = config r /\ running r' = running r
    /\ processes r' = processes r
    /\ (forall p rc, status r p = Some rc -> status r' p = Some rc).
Proof.
  revert r. induction l as [|[p code] l IH]; intros r; [by exists r|].
  simpl. unfold mbind at 1, M_bind at 1, child_exits at 1, modify at 1.
  destruct (IH (set_children (alter (exit_with code "" "") p (children r)) r))
    as (r' & -> & Et & Ec & Er & Ep & Es).
  exists r'. split; [done|]. split_and!; try done.
  intros q rc Hs. apply Es. unfold status in *. simpl.
  by apply status_keeps_exit.
Qed.

Lemma check_cameras_keeps cams : forall os r,
  exists r' l,
    check_cameras cams os r = (Return tt, r')
    /\ trace r' = trace r ++ l
    /\ config r' = config r /\ running r' = running r
    /\ (forall k, others k cams -> processes r' !! k = processes r !! k)
    /\ (forall p rc, status r p = Some rc -> status r' p = Some rc).
Proof.
  induction cams as [|c cams IH]; intros os r.
  { exists r, []. rewrite app_nil_r. by split_and!. }
  simpl. unfold mbind, M_bind.
  destruct (exits_keeps (exits (os 0%nat)) r)
    as (r1 & -> & Et1 & Ec1 & Er1 & Ep1 & Es1).
  destruct (reconcile_camera_keeps c (launches (os 0%nat)) r1)
    as (r2 & l2 & -> & Et2 & Ec2 & Er2 & Ek2 & Es2).
  destruct (IH (fun i => os (S i)) r2) as (r3 & l3 & -> & Et3 & Ec3 & Er3 & Ek3 & Es3).
  exists r3, (l2 ++ l3). split; [done|].
  rewrite Et3, Et2, Et1, Ec3, Ec2, Ec1, Er3, Er2, Er1.
  split; [by rewrite <- (assoc_L (++))|]. split_and!; try done.
  - intros k [Hc Hk]%Forall_cons. rewrite Ek3, Ek2, Ep1; done.
  - intros p rc Hs. auto.
Qed.

(** The pass reaches every camera: whatever the launches made for the
    cameras before it do, an enabled camera that is not recording when
    the pass starts has its launch announced, and if the launch fails
    the camera has no entry when the pass ends. *)
Lemma check_cameras_announced before camera after : forall os r,
  others (cam_id camera) before -> others (cam_id camera) after ->
  cam_enabled camera = true ->
  already_recording r (cam_id camera) = false ->
  exists r' la rest lb,
    check_cameras (before ++ camera :: after) os r = (Return tt, r')
    /\ trace r' = trace r ++ la ++ [Print (StartingRecording camera)]
                          ++ rest ++ lb
    /\ attempt_ends camera (launches (os (length before))) rest
    /\ config r' = config r /\ running r' = running r
    /\ (forall e, launches (os (length before)) = LaunchRaises e ->
                  processes r' !! cam_id camera = None).
Proof.
  induction before as [|c before IH]; intros os r Hb Ha He Hlive.
  - simpl. unfold mbind, M_bind.
    destruct (exits_keeps (exits (os 0%nat)) r)
      as (r1 & -> & Et1 & Ec1 & Er1 & Ep1 & Es1).
    assert (already_recording r1 (cam_id camera) = false) as Hlive1.
    { apply (not_recording_keeps r); [done|by rewrite Ep1|done]. }
    destruct (reconcile_camera_keeps camera (launches (os 0%nat)) r1)
      as (r2 & l2 & H2 & _ & Ec2 & Er2 & _).
    destruct (reconcile_camera_announced camera (launches (os 0%nat)) r1
                He Hlive1) as (r2' & la & rest & H2' & Et2 & Hends & Hnone).
    assert (r2' = r2) as -> by congruence. rewrite H2.
    destruct (check_cameras_keeps after (fun i => os (S i)) r2)
      as (r3 & l3 & -> & Et3 & Ec3 & Er3 & Ek3 & _).
    exists r3, la, rest, l3. split; [done|].
    rewrite Et3, Et2, Et1, Ec3, Ec2, Ec1, Er3, Er2, Er1.
    split; [by rewrite <- !(assoc_L (++))|]. split_and!; try done.
    intros e Hraise. rewrite Ek3 by done. by apply (Hnone e).
  - apply Forall_cons in Hb as [Hc Hb]. simpl. unfold mbind, M_bind.
    destruct (exits_keeps (exits (os 0%nat)) r)
      as (r1 & -> & Et1 & Ec1 & Er1 & Ep1 & Es1).
    destruct (reconcile_camera_keeps c (launches (os 0%nat)) r1)
      as (r2 & l2 & -> & Et2 & Ec2 & Er2 & Ek2 & Es2).
    assert (already_recording r2 (cam_id camera) = false) as Hlive2.
    { apply (not_recording_keeps r); [done| |by auto].
      rewrite Ek2 by done. by rewrite Ep1. }
    destruct (IH (fun i => os (S i)) r2 Hb Ha He Hlive2)
      as (r3 & la & rest & lb & -> & Et3 & Hends & Ec3 & Er3 & Hnone).
    exists r3, (l2 ++ la), rest, lb. split; [done|].
    rewrite Et3, Et2, Et1, Ec3, Ec2, Ec1, Er3, Er2, Er1.
    split; [by rewrite <- !(assoc_L (++))|]. by split_and!.
Qed.

Lemma start_cameras_keeps cams : forall os r,
  exists r' l,
    start_cameras cams os r = (Return tt, r')
    /\ trace r' = trace r ++ l
    /\ config r' = config r /\ running r' = running r
    /\ (forall k, others k cams -> processes r' !! k = processes r !! k)
    /\ (forall p rc, status r p = Some rc -> status r' p = Some rc).
Proof.
  induction cams as [|c cams IH]; intros os r.
  { exists r, []. rewrite app_nil_r. by split_and!. }
  simpl. unfold mbind, M_bind. destruct (cam_enabled c) eqn:Hen.
  - destruct (start_recording_keeps c (os 0%nat) r)
      as (r2 & l2 & -> & Et2 & Ec2 & Er2 & Ek2 & Es2).
    destruct (IH (fun i => os (S i)) r2)
      as (r3 & l3 & -> & Et3 & Ec3 & Er3 & Ek3 & Es3).
    exists r3, (l2 ++ l3). split; [done|]. rewrite Et3, Et2, Ec3, Ec2, Er3, Er2.
    split; [by rewrite <- (assoc_L (++))|]. split_and!; try done.
    + intros k [Hc Hk]%Forall_cons. rewrite Ek3, Ek2; try done.
      intros Heq. by apply Hc.
    + auto.
  - unfold mret, M_ret.
    destruct (IH (fun i => os (S i)) r)
      as (r3 & l3 & -> & Et3 & Ec3 & Er3 & Ek3 & Es3).
    exists r3, l3. split; [done|]. split_and!; try done.
    intros k [_ Hk]%Forall_cons. by apply Ek3.
Qed.

(** The startup pass reaches every camera in the same way. *)
Lemma start_cameras_announced before camera after : forall os r,
  others (cam_id camera) before -> others (cam_id camera) after ->
  cam_enabled camera = true ->
  already_recording r (cam_id camera) = false ->
  exists r' la rest lb,
    start_cameras (before ++ camera :: after) os r = (Return tt, r')
    /\ trace r' = trace r ++ la ++ [Print (StartingRecording camera)]
                          ++ rest ++ lb
    /\ attempt_ends camera (os (length before)) rest
    /\ config r' = config r /\ running r' = running r
    /\ (forall e, os (length before) = LaunchRaises e ->
                  already_recording r' (cam_id camera) = false).
Proof.
  induction before as [|c before IH]; intros os r Hb Ha He Hlive.
  - simpl. unfold mbind, M_bind. rewrite He.
    destruct (start_recording_keeps camera (os 0%nat) r)
      as (r2 & l2 & H2 & _ & Ec2 & Er2 & _ & Es2).
    destruct (start_recording_attempt camera (os 0%nat) r Hlive)
      as (r2' & rest & H2' & Et2 & Hends & Hraise & _).
    assert (r2' = r2) as -> by congruence. rewrite H2.
    destruct (after_guard_trace r (cam_id camera)) as [l0 Et0].
    destruct (start_cameras_keeps after (fun i => os (S i)) r2)
      as (r3 & l3 & -> & Et3 & Ec3 & Er3 & Ek3 & Es3).
    exists r3, l0, rest, l3. split; [done|].
    rewrite Et3, Et2, Et0, Ec3, Ec2, Er3, Er2.
    split; [by rewrite <- !(assoc_L (++))|]. split_and!; try done.
    intros e Hfail. apply (not_recording_keeps r); [done| |by auto].
    rewrite Ek3 by done. by rewrite (Hraise e).
  - apply Forall_cons in Hb as [Hc Hb]. simpl. unfold mbind, M_bind.
    assert (exists r2 l2,
              (if cam_enabled c then start_recording c (os 0%nat)
               else mret tt) r = (Return tt, r2)
              /\ trace r2 = trace r ++ l2
              /\ config r2 = config r /\ running r2 = running r
              /\ already_recording r2 (cam_id camera) = false)
      as (r2 & l2 & -> & Et2 & Ec2 & Er2 & Hlive2).
    { destruct (cam_enabled c) eqn:Hen.
      - destruct (start_recording_keeps c (os 0%nat) r)
          as (r2 & l2 & H2 & Et2 & Ec2 & Er2 & Ek2 & Es2).
        exists r2, l2. split_and!; try done.
        apply (not_recording_keeps r); [done| |done].
        apply Ek2. intros Heq. by apply Hc.
      - exists r, []. rewrite app_nil_r. by split_and!. }
    destruct (IH (fun i => os (S i)) r2 Hb Ha He Hlive2)
      as (r3 & la & rest & lb & -> & Et3 & Hends & Ec3 & Er3 & Hnone).
    exists r3, (l2 ++ la), rest, lb. split; [done|].
    rewrite Et3, Et2, Ec3, Ec2, Er3, Er2.
    split; [by rewrite <- !(assoc_L (++))|]. by split_and!.
Qed.

Lemma report_status_keeps r :
  exists r' l,
    report_status r = (Return tt, r') /\ trace r' = trace r ++ l
    /\ config r' = config r /\ running r' = running r
    /\ processes r' = processes r /\ children r' = children r.
Proof.
  unfold report_status. run_M. case_bool_decide.
  - eexists _, _. by split_and!.
  - exists r, []. rewrite app_nil_r. by split_and!.
Qed.

(** One iteration of the main loop: sleep, reconcile, status line. *)
Lemma main_loop_round os r :
  running r = true -> delay_ok r = true ->
  let d := ffmpeg_reconnect_delay (config r) in
  let slept := emit (Sleep d) (set_now (now r + d)%Q r) in
  exists r1 r2 l,
    check_and_restart_recordings os slept = (Return tt, r1)
    /\ trace r2 = trace r1 ++ l
    /\ config r2 = config r /\ running r2 = true
    /\ processes r2 = processes r1 /\ children r2 = children r1
    /\ forall rest, main_loop (os :: rest) r = main_loop rest r2.
Proof.
  intros Hrun Hd d slept.
  destruct (check_cameras_keeps (cameras_of (config slept)) os slept)
    as (r1 & l1 & H1 & _ & Ec1 & Er1 & _).
  destruct (report_status_keeps r1) as (r2 & l & H2 & Et2 & Ec2 & Er2 & Ep2 & Eh2).
  exists r1, r2, l. split; [exact H1|]. split_and!; try done.
  - by rewrite Ec2, Ec1.
  - by rewrite Er2, Er1.
  - intros rest. simpl. unfold mbind at 1, M_bind at 1, get at 1.
    rewrite Hrun. unfold mbind, M_bind.
    rewrite (sleep_ok _ _ Hd). fold d. fold slept.
    unfold check_and_restart_recordings in H1 |- *.
    unfold mbind, M_bind, get in H1 |- *. by rewrite H1, H2.
Qed.

Lemma main_loop_grows ticks : forall r,
  delay_ok r = true ->
  exists r' l,
    main_loop ticks r = (Return tt, r') /\ trace r' = trace r ++ l
    /\ config r' = config r.
Proof.
  induction ticks as [|os ticks IH]; intros r Hd.
  { exists r, []. by rewrite app_nil_r. }
  destruct (running r) eqn:Hrun.
  2:{ exists r, []. rewrite app_nil_r. simpl.
      unfold mbind, M_bind, get. by rewrite Hrun. }
  destruct (main_loop_round os r Hrun Hd)
    as (r1 & r2 & l & H1 & Et2 & Ec2 & Er2 & _ & _ & Hloop).
  destruct (check_cameras_keeps (cameras_of (config r)) os
              (emit (Sleep (ffmpeg_reconnect_delay (config r)))
                 (set_now (now r + ffmpeg_reconnect_delay (config r))%Q r)))
    as (r1' & l1 & H1' & Et1 & _).
  assert (r1' = r1) as ->.
  { unfold check_and_restart_recordings, mbind, M_bind, get in H1.
    simpl in H1. congruence. }
  destruct (IH r2) as (r' & l' & H' & Et' & Ec').
  { unfold delay_ok in *. by rewrite Ec2. }
  exists r', ([Sleep (ffmpeg_reconnect_delay (config r))] ++ l1 ++ l ++ l').
  rewrite Hloop. split; [done|]. rewrite Et', Et2, Et1, Ec', Ec2. simpl.
  split; [by rewrite <- !(assoc_L (++))|done].
Qed.

Lemma stop_recording_grows camera_id w r :
  exists r' l,
    stop_recording camera_id w r = (Return tt, r') /\ trace r' = trace r ++ l.
Proof.
  destruct (processes r !! camera_id) as [p|] eqn:Hp.
  - destruct (stop_recording_registered camera_id w r p Hp)
      as (r' & H & _ & _ & Ht).
    exists r'. destruct (status r p); destruct Ht as [Ht _]; eauto.
  - rewrite (stop_recording_absent _ w _ Hp). exists r, [].
    by rewrite app_nil_r.
Qed.

Lemma stop_all_grows ws r :
  exists r' l,
    stop_all_recordings ws r = (Return tt, r') /\ trace r' = trace r ++ l
    /\ processes r' = ∅.
Proof.
  destruct (stop_all_recordings_empties ws r) as (r' & H & He).
  exists r'. rewrite H.
  assert (exists l, trace r' = trace r ++ l) as [l El]; [|by exists l].
  replace r' with (stop_all_recordings ws r).2 by (by rewrite H).
  unfold stop_all_recordings. unfold mbind at 1, M_bind at 1, get at 1.
  generalize ((map_to_list (processes r)).*1). intros ids. clear.
  revert r. induction ids as [|i ids IH]; intros r.
  { exists []. by rewrite app_nil_r. }
  simpl. unfold mbind, M_bind.
  destruct (stop_recording_grows i (ws i) r) as (r1 & l1 & -> & Et1).
  destruct (IH r1) as [l2 Et2]. exists (l1 ++ l2).
  by rewrite Et2, Et1, (assoc_L (++)).
Qed.

Lemma failed_in_pad camera e a l b :
  failed_in camera e l -> failed_in camera e (a ++ l ++ b).
Proof.
  intros (la & lb & ->). exists (a ++ la), (lb ++ b).
  by rewrite <- !(assoc_L (++)).
Qed.

Lemma retried_intro camera e l1 l2 :
  failed_in camera e l1 -> Print (StartingRecording camera) ∈ l2 ->
  retried camera e (l1 ++ l2).
Proof.
  intros (la & lb & ->) (x & y & ->)%list_elem_of_split.
  exists la, (lb ++ x), y. by rewrite <- !(assoc_L (++)).
Qed.

Lemma retried_pad camera e a l b :
  retried camera e l -> retried camera e (a ++ l ++ b).
Proof.
  intros (la & lb & lc & ->). exists (a ++ la), lb, (lc ++ b).
  by rewrite <- !(assoc_L (++)).
Qed.

(** *** The pass and the loop around one camera *)

Lemma pass_announces before camera after os r :
  cameras_of (config r) = before ++ camera :: after ->
  others (cam_id camera) (before ++ after) ->
  cam_enabled camera = true ->
  already_recording r (cam_id camera) = false ->
  exists r1 l1,
    check_and_restart_recordings os r = (Return tt, r1)
    /\ trace r1 = trace r ++ l1
    /\ Print (StartingRecording camera) ∈ l1
    /\ config r1 = config r /\ running r1 = running r
    /\ (forall e, launches (os (length before)) = LaunchRaises e ->
          failed_in camera e l1 /\ processes r1 !! cam_id camera = None)
    /\ (launches (os (length before)) = LaunchRuns ->
          exists p, Launch camera p ∈ l1).
Proof.
  intros Hcams [Hb Ha]%Forall_app He Hlive.
  destruct (check_cameras_announced before camera after os r Hb Ha He Hlive)
    as (r1 & la & rest & lb & H1 & Et & Hends & Ec & Er & Hnone).
  exists r1, (la ++ [Print (StartingRecording camera)] ++ rest ++ lb).
  split.
  { unfold check_and_restart_recordings, mbind, M_bind, get.
    by rewrite Hcams. }
  split; [done|]. split.
  { apply elem_of_app. right. apply list_elem_of_here. }
  split; [done|]. split; [done|]. split.
  - intros e Hfail. split; [|by apply (Hnone e)].
    rewrite Hfail in Hends. simpl in Hends. subst rest. by exists la, lb.
  - intros Hruns. rewrite Hruns in Hends. destruct Hends as (p & rest' & ->).
    exists p. apply elem_of_app. right. simpl.
    apply list_elem_of_further, list_elem_of_here.
Qed.

Lemma round_announces before camera after os r :
  cameras_of (config r) = before ++ camera :: after ->
  others (cam_id camera) (before ++ after) ->
  cam_enabled camera = true ->
  already_recording r (cam_id camera) = false ->
  running r = true -> delay_ok r = true ->
  exists r2 l,
    (forall rest, main_loop (os :: rest) r = main_loop rest r2)
    /\ trace r2 = trace r ++ l
    /\ Print (StartingRecording camera) ∈ l
    /\ config r2 = config r /\ running r2 = true
    /\ (forall e, launches (os (length before)) = LaunchRaises e ->
          failed_in camera e l /\ processes r2 !! cam_id camera = None).
Proof.
  intros Hcams Hoth He Hlive Hrun Hd.
  destruct (main_loop_round os r Hrun Hd)
    as (r1 & r2 & l & H1 & Et2 & Ec2 & Er2 & Ep2 & _ & Hloop).
  set (d := ffmpeg_reconnect_delay (config r)) in *.
  set (slept := emit (Sleep d) (set_now (now r + d)%Q r)) in *.
  destruct (pass_announces before camera after os slept Hcams Hoth He Hlive)
    as (r1' & l1 & H1' & Et1 & Hin & _ & _ & Hfail & _).
  assert (r1' = r1) as -> by congruence.
  exists r2, ([Sleep d] ++ l1 ++ l). split; [done|].
  rewrite Et2, Et1. simpl. split; [by rewrite <- !(assoc_L (++))|].
  split.
  { apply list_elem_of_further, elem_of_app. by left. }
  split; [done|]. split; [done|].
  intros e Hraise. destruct (Hfail e Hraise) as [Hf Hnone]. split.
  - by apply (failed_in_pad camera e [Sleep d] l1 l).
  - by rewrite Ep2.
Qed.

(** C6. An enabled camera whose id no other enabled entry of the
    configuration shares is not recording.
    - A launch for it in which [Popen] raises (ffmpeg not found, or any
      other exception) makes [start_recording] print the error and
      return normally, with the process table and the subprocesses as
      they were.
    - A reconcile pass in which that launch fails returns normally,
      whatever the launches for the other cameras do, having announced
      the launch and printed the error, and leaves no entry for the
      camera; the next pass announces a launch for the camera again, and
      launches it if [Popen] does not raise again.
    - The main loop, and [run] after a failed launch in its startup
      pass, go on to that retry and return normally.
    - Whatever the launches do, the main loop returns normally as long as
      its delay is not negative; with a negative delay its first
      [time.sleep] raises [ValueError]. *)
Theorem launch_failure_is_contained (before after : list Camera)
    (camera : Camera) (e : exn) (r : RTSPRecorder) :
  cameras_of (config r) = before ++ camera :: after ->
  others (cam_id camera) (before ++ after) ->
  cam_enabled camera = true ->
  already_recording r (cam_id camera) = false ->
  let n := length before in
  (exists r',
     start_recording camera (LaunchRaises e) r = (Return tt, r')
     /\ processes r' = processes r /\ children r' = children r
     /\ trace r' = trace (after_guard r (cam_id camera))
                   ++ [Print (StartingRecording camera);
                       Print (launch_error (cam_id camera) e)]
     /\ (processes r !! cam_id camera = None ->
         processes r' !! cam_id camera = None))
  /\ (forall os, launches (os n) = LaunchRaises e ->
      exists r1 l1,
        check_and_restart_recordings os r = (Return tt, r1)
        /\ trace r1 = trace r ++ l1
        /\ failed_in camera e l1
        /\ processes r1 !! cam_id camera = None
        /\ forall os', exists r2 l2,
             check_and_restart_recordings os' r1 = (Return tt, r2)
             /\ trace r2 = trace r1 ++ l2
             /\ retried camera e (l1 ++ l2)
             /\ (launches (os' n) = LaunchRuns ->
                 exists p, Launch camera p ∈ l2))
  /\ (running r = true -> delay_ok r = true ->
      forall os os' rest, launches (os n) = LaunchRaises e ->
      exists r' l,
        main_loop (os :: os' :: rest) r = (Return tt, r')
        /\ trace r' = trace r ++ l /\ retried camera e l)
  /\ (running r = true -> delay_ok r = true ->
      forall startup os rest ws, startup n = LaunchRaises e ->
      exists r' l,
        run None startup (os :: rest) ws r = (Return tt, r')
        /\ trace r' = trace r ++ l /\ retried camera e l
        /\ processes r' = ∅)
  /\ (delay_ok r = true ->
      forall ticks, exists r', main_loop ticks r = (Return tt, r'))
  /\ (running r = true -> delay_ok r = false ->
      forall os rest, main_loop (os :: rest) r = (Raise ValueError, r)).
Proof.
  intros Hcams Hoth He Hlive n. split_and!.
  - rewrite (start_recording_raises _ e _ Hlive). eexists. split; [done|].
    destruct (after_guard_fields r (cam_id camera)) as (_ & Ep & _ & Eh & _).
    simpl. split_and!; try done.
    + by rewrite <- !(assoc_L (++)).
    + by rewrite Ep.
  - intros os Hfail.
    destruct (pass_announces before camera after os r Hcams Hoth He Hlive)
      as (r1 & l1 & H1 & Et1 & _ & Ec1 & _ & Hf & _).
    destruct (Hf e Hfail) as [Hfailed Hnone].
    exists r1, l1. split_and!; try done. intros os'.
    assert (already_recording r1 (cam_id camera) = false) as Hlive1
      by (unfold already_recording; by rewrite Hnone).
    rewrite <- Ec1 in Hcams.
    destruct (pass_announces before camera after os' r1 Hcams Hoth He Hlive1)
      as (r2 & l2 & H2 & Et2 & Hin & _ & _ & _ & Hruns).
    exists r2, l2. split_and!; try done. by apply retried_intro.
  - intros Hrun Hd os os' rest Hfail.
    destruct (round_announces before camera after os r Hcams Hoth He Hlive
                Hrun Hd) as (r2 & l & Hloop & Et & _ & Ec & Er & Hf).
    destruct (Hf e Hfail) as [Hfailed Hnone].
    assert (already_recording r2 (cam_id camera) = false) as Hlive2
      by (unfold already_recording; by rewrite Hnone).
    assert (delay_ok r2 = true) as Hd2 by (unfold delay_ok in *; by rewrite Ec).
    rewrite <- Ec in Hcams.
    destruct (round_announces before camera after os' r2 Hcams Hoth He Hlive2
                Er Hd2) as (r3 & l' & Hloop' & Et' & Hin & Ec' & _ & _).
    assert (delay_ok r3 = true) as Hd3
      by (unfold delay_ok in *; by rewrite Ec').
    destruct (main_loop_grows rest r3 Hd3) as (r4 & l'' & H4 & Et'' & _).
    exists r4, ((l ++ l') ++ l''). rewrite Hloop, Hloop'.
    split; [done|]. rewrite Et'', Et', Et.
    split; [by rewrite <- !(assoc_L (++))|].
    apply (retried_pad camera e [] (l ++ l') l''). by apply retried_intro.
  - intros Hrun Hd startup os rest ws Hfail.
    destruct (run_outcome None startup (os :: rest) ws r)
      as (r1 & r2 & r3 & H1 & H2 & Hrunall & E3 & _ & _).
    set (r0 := opened r) in *.
    rewrite Hcams in H1.
    pose proof Hoth as [Hb Ha]%Forall_app.
    destruct (start_cameras_announced before camera after startup r0
                Hb Ha He Hlive)
      as (r1' & la & rest0 & lb & H1' & Et1 & Hends & Ec1 & Er1 & Hstill).
    assert (r1' = r1) as -> by congruence.
    fold n in Hends. rewrite Hfail in Hends. simpl in Hends. subst rest0.
    set (r1' := ready r1) in *.
    assert (already_recording r1' (cam_id camera) = false) as Hlive1
      by exact (Hstill e Hfail).
    assert (config r1' = config r) as Ec1' by exact Ec1.
    assert (delay_ok r1' = true) as Hd1
      by (unfold delay_ok in *; by rewrite Ec1').
    rewrite <- Ec1' in Hcams.
    destruct (round_announces before camera after os r1' Hcams Hoth He
                Hlive1)
      as (r4 & l & Hloop & Et & Hin & Ec & Er & _); [by rewrite <- Hrun|done|].
    assert (delay_ok r4 = true) as Hd4
      by (unfold delay_ok in *; by rewrite Ec).
    destruct (main_loop_grows rest r4 Hd4) as (r5 & l' & H5 & Et' & _).
    rewrite Hloop, H5 in E3, Hrunall. simpl in E3. subst r3.
    destruct (stop_all_grows ws r5) as (r2' & l'' & H2' & Et'' & Hempty).
    assert (r2' = r2) as -> by congruence.
    exists (emit (Print Stopped) r2),
      ([Print Welcome; Print Rule; Print RecordingsDirectory]
         ++ ((la ++ [Print (StartingRecording camera);
                     Print (launch_error (cam_id camera) e)] ++ lb)
             ++ ([Print (Status (size (processes r1))); Print PressCtrlC;
                  Print Rule] ++ l))
         ++ (l' ++ l'' ++ [Print Stopped])).
    split; [done|]. split; [|split; [|done]].
    + simpl. rewrite Et'', Et', Et. simpl. rewrite Et1. simpl.
      by repeat (rewrite <- (assoc_L (++)); simpl).
    + apply retried_pad. apply retried_intro; [by exists la, lb|].
      by do 3 apply list_elem_of_further.
  - intros Hd ticks. destruct (main_loop_grows ticks r Hd) as (r' & _ & H & _).
    by exists r'.
  - intros Hrun Hd os rest. rewrite (main_loop_negative _ _ Hd).
    by rewrite Hrun.
Qed.

Lemma launch_failure_is_contained_witness :
  let missing := LaunchRaises FileNotFoundError in
  let failing := fun _ : nat => {| exits := []; launches := missing |} in
  cameras_of (config fresh) = [] ++ cam1 :: [cam2]
  /\ others (cam_id cam1) ([] ++ [cam2])
  /\ cam_enabled cam1 = true
  /\ already_recording fresh (cam_id cam1) = false
  /\ processes fresh !! cam_id cam1 = None
  /\ running fresh = true /\ delay_ok fresh = true
  /\ (exists r',
        start_recording cam1 missing fresh = (Return tt, r')
        /\ processes r' !! cam_id cam1 = None)
  /\ (exists r' l,
        main_loop [failing; idle] fresh = (Return tt, r')
        /\ trace r' = trace fresh ++ l
        /\ retried cam1 FileNotFoundError l)
  /\ (exists r' l,
        run None (fun _ => missing) [idle] (fun _ => None) fresh
        = (Return tt, r')
        /\ trace r' = trace fresh ++ l
        /\ retried cam1 FileNotFoundError l
        /\ processes r' = ∅).
Proof.
  intros missing failing.
  assert (cameras_of (config fresh) = [] ++ cam1 :: [cam2]) as H1
    by reflexivity.
  assert (others (cam_id cam1) ([] ++ [cam2])) as H2.
  { apply Forall_singleton. simpl. discriminate. }
  assert (cam_enabled cam1 = true) as H3 by reflexivity.
  assert (already_recording fresh (cam_id cam1) = false) as H4 by reflexivity.
  assert (processes fresh !! cam_id cam1 = None) as H5 by reflexivity.
  assert (running fresh = true) as H6 by reflexivity.
  assert (delay_ok fresh = true) as H7 by reflexivity.
  destruct (launch_failure_is_contained [] [cam2] cam1 FileNotFoundError
              fresh H1 H2 H3 H4) as (Ha & _ & Hc & Hd & _).
  split; [exact H1|]. split; [exact H2|]. split; [exact H3|].
  split; [exact H4|]. split; [exact H5|]. split; [exact H6|].
  split; [exact H7|]. split; [|split].
  - destruct Ha as (r' & Hrun & _ & _ & _ & Hnone).
    exists r'. split; [exact Hrun|exact (Hnone H5)].
  - exact (Hc H6 H7 failing idle [] eq_refl).
  - exact (Hd H6 H7 (fun _ => missing) idle [] (fun _ => None) eq_refl).
Defined.

(** An ffmpeg that has ended is relaunched, the relaunch fails, and the
    next pass tries again. *)
Example relaunch_fails_then_succeeds :
  let failing := fun _ : nat => {| exits := [];
                                   launches := LaunchRaises OSError |} in
  let r1 := (check_and_restart_recordings failing ended).2 in
  let r2 := (check_and_restart_recordings idle r1).2 in
  processes ended !! "cam1" = Some 0%nat
  /\ processes r1 !! "cam1" = None
  /\ processes r2 !! "cam1" = Some 1%nat
  /\ trace r2 = trace ended
       ++ [Poll 0 (Some 1); Print (RecordingFailed cam1);
           Print (StartingNew cam1); Print (StartingRecording cam1);
           Print (StartError "cam1" OSError);
           Print (StartingNew cam1); Print (StartingRecording cam1);
           Launch cam1 1; Sleep 2; Poll 1 None; Print (RecordingStarted 1)].
Proof. by vm_compute. Qed.

(** ** At most one live recording per camera *)

Lemma exit_with_winds_down code out err : winds_down (exit_with code out err).
Proof.
  intros P. unfold exit_with, alive.
  destruct (returncode P) eqn:Hrc; simpl; (split; [done|]).
  - intros [? ?]. congruence.
  - by intros [? ?].
Qed.

Lemma supervised_alter f q r r' :
  winds_down f -> processes r' = processes r ->
  children r' = alter f q (children r) -> supervised r -> supervised r'.
Proof.
  intros Hf Ep Eh [Hlive Htab]. split.
  - intros p P'. rewrite Eh, Ep. destruct (decide (q = p)) as [->|Hne].
    + rewrite list_lookup_alter_eq.
      destruct (children r !! p) as [P|] eqn:HP; [|done].
      intros [= <-] Ha. destruct (Hf P) as [-> Hal]. apply Hlive; auto.
    + rewrite list_lookup_alter_ne by done. apply Hlive.
  - intros camera_id p. rewrite Eh, Ep. intros Hp.
    destruct (Htab _ _ Hp) as (P & HP & Ho).
    destruct (decide (q = p)) as [->|Hne].
    + exists (f P). rewrite list_lookup_alter_eq, HP. split; [done|].
      by destruct (Hf P) as [-> _].
    + exists P. by rewrite list_lookup_alter_ne.
Qed.

(** Dropping the entry of a camera whose registered process is dead. *)
Lemma supervised_delete camera_id r r' :
  (forall p P, processes r !! camera_id = Some p ->
               children r !! p = Some P -> ~ alive P) ->
  processes r' = delete camera_id (processes r) ->
  children r' = children r -> supervised r -> supervised r'.
Proof.
  intros Hdead Ep Eh [Hlive Htab]. split.
  - intros p P. rewrite Eh, Ep. intros HP Ha.
    pose proof (Hlive p P HP Ha) as Hreg.
    destruct (decide (cam_id (for_camera P) = camera_id)) as [<-|Hne].
    + exfalso. by apply (Hdead p P).
    + by rewrite lookup_delete_ne.
  - intros k p. rewrite Eh, Ep. intros Hp.
    apply lookup_delete_Some in Hp as [_ Hp]. by apply Htab.
Qed.

Lemma not_recording_dead r camera_id p P :
  already_recording r camera_id = false ->
  processes r !! camera_id = Some p -> children r !! p = Some P -> ~ alive P.
Proof.
  unfold already_recording, status. intros Hn Hp HP [Hrc _].
  rewrite Hp, HP in Hn. simpl in Hn. by rewrite Hrc in Hn.
Qed.

Lemma supervised_started camera r r' :
  started camera r r' -> supervised r -> supervised r'.
Proof.
  intros Hst Hsup. pose proof Hsup as [Hlive Htab].
  destruct Hst as [_ Ep Eh _|_ Ep Eh _|code out err Hn Ep Eh|Hn Ep Eh].
  - split; rewrite Ep, Eh; done.
  - split; rewrite Ep, Eh; done.
  - split.
    + intros p P. rewrite Eh, Ep. intros [HP|[_ HP]]%lookup_app_Some.
      * by apply Hlive.
      * destruct (p - length (children r))%nat; [|done].
        injection HP as <-. by intros [[=] _].
    + intros k p. rewrite Eh, Ep. intros Hp.
      destruct (Htab _ _ Hp) as (P & HP & Ho). exists P.
      split; [|done]. by apply lookup_app_l_Some.
  - split.
    + intros p P. rewrite Eh, Ep. intros [HP|[Hge HP]]%lookup_app_Some Ha.
      * pose proof (Hlive p P HP Ha) as Hreg.
        rewrite lookup_insert_ne; [done|]. intros Heq.
        rewrite <- Heq in Hreg.
        by apply (not_recording_dead r (cam_id camera) p P).
      * destruct (p - length (children r))%nat eqn:Hd; [|done].
        injection HP as <-. simpl.
        replace p with (length (children r)) by lia.
        apply lookup_insert_eq.
    + intros k p. rewrite Eh, Ep.
      destruct (decide (cam_id camera = k)) as [<-|Hne].
      * rewrite lookup_insert_eq. intros [= <-].
        exists (new_child camera r). split; [|done].
        by apply list_lookup_middle.
      * rewrite lookup_insert_ne by done. intros Hp.
        destruct (Htab _ _ Hp) as (P & HP & Ho). exists P.
        split; [|done]. by apply lookup_app_l_Some.
Qed.

Lemma supervised_before_restart camera r :
  already_recording r (cam_id camera) = false ->
  supervised r -> supervised (before_restart camera r).
Proof.
  intros Hn. destruct (before_restart_fields camera r) as (_ & _ & Ep & Eh & _).
  apply (supervised_delete (cam_id camera)); try done.
  intros p P. by apply not_recording_dead.
Qed.

Lemma supervised_reconcile_camera camera o r :
  supervised r -> supervised (reconcile_camera camera o r).2.
Proof.
  intros Hsup.
  destruct (reconcile_camera_total camera o r)
    as (r' & -> & _ & _ & [(Ep & Eh & _)|(_ & Hn & Hst)]); simpl.
  - destruct Hsup as [Hlive Htab]. split; rewrite Ep, Eh; done.
  - apply (supervised_started camera (before_restart camera r)); [done|].
    by apply supervised_before_restart.
Qed.

Lemma supervised_start_recording camera o r :
  supervised r -> supervised (start_recording camera o r).2.
Proof.
  intros Hsup.
  destruct (start_recording_total camera o r) as (r' & -> & _ & _ & Hst).
  by apply (supervised_started camera r).
Qed.

Lemma supervised_child_exits p code out err r :
  supervised r -> supervised (child_exits p code out err r).2.
Proof.
  apply (supervised_alter (exit_with code out err) p); try done.
  apply exit_with_winds_down.
Qed.

Lemma stop_recording_winds_down camera_id w r p :
  processes r !! camera_id = Some p ->
  exists f,
    winds_down f
    /\ processes (stop_recording camera_id w r).2
       = delete camera_id (processes r)
    /\ children (stop_recording camera_id w r).2 = alter f p (children r)
    /\ forall P, children r !! p = Some P -> ~ alive (f P).
Proof.
  intros Hp. unfold stop_recording, wait. run_M. rewrite Hp. run_M.
  destruct (status r p) as [rc|] eqn:Hs; run_M; rewrite ?Hp.
  - exists (fun P => P). split_and!; try done.
    + simpl. by rewrite list_alter_id.
    + intros P HP [Hrc _]. unfold status in Hs. rewrite HP in Hs.
      simpl in Hs. congruence.
  - assert (forall P, children r !! p = Some P -> returncode P = None) as Hrun.
    { intros P HP. unfold status in Hs. by rewrite HP in Hs. }
    assert (exists g, g = (fun P => {| for_camera := for_camera P;
                                       args := args P;
                                       returncode := returncode P;
                                       killed := true; stdout := stdout P;
                                       stderr := stderr P |})
                      /\ winds_down g /\ forall P, ~ alive (g P))
      as (g & Eg & Hg & Hdead).
    { eexists. split; [done|]. split.
      - intros P. split; [done|]. by intros [_ ?].
      - by intros P [_ ?]. }
    destruct w as [[d code]|]; simpl;
      [destruct (Qle_bool d 10) eqn:Hd; run_M|]; rewrite ?Hp; simpl.
    + exists (exit_with code "" ""). split_and!; try done.
      * apply exit_with_winds_down.
      * intros P HP [Hrc _]. unfold exit_with in Hrc.
        by rewrite (Hrun P HP) in Hrc.
    + exists g. subst g. split_and!; done.
    + exists g. subst g. split_and!; done.
Qed.

Lemma supervised_stop_recording camera_id w r :
  supervised r -> supervised (stop_recording camera_id w r).2.
Proof.
  intros Hsup. destruct (processes r !! camera_id) as [p|] eqn:Hp.
  - destruct (stop_recording_winds_down camera_id w r p Hp)
      as (f & Hf & Ep & Eh & Hdead).
    set (r1 := set_children (alter f p (children r)) r).
    assert (supervised r1) as H1 by (by apply (supervised_alter f p r)).
    apply (supervised_delete camera_id r1); try done.
    intros p' P'. simpl. rewrite Hp. intros [= <-].
    rewrite list_lookup_alter_eq.
    destruct (children r !! p) as [P|] eqn:HP; [|done].
    intros [= <-]. by apply Hdead.
  - by rewrite (stop_recording_absent _ w _ Hp).
Qed.

Lemma reachable_supervised cfg r : reachable cfg r -> supervised r.
Proof.
  induction 1 as [t|r camera o _ IH|r camera_id w _ IH|r camera o _ IH
                 |r p code out err _ IH|r d _ IH].
  - split; simpl; intros ? ?; [by rewrite lookup_nil|by rewrite lookup_empty].
  - by apply supervised_start_recording.
  - by apply supervised_stop_recording.
  - by apply supervised_reconcile_camera.
  - by apply supervised_child_exits.
  - unfold sleep. destruct (Qle_bool 0 d); [|done]. destruct IH. by split.
Qed.

Lemma seq_snd (m k : M unit) r r1 :
  m r = (Return tt, r1) -> (m;; k) r = k r1.
Proof. intros Hm. unfold mbind, M_bind. by rewrite Hm. Qed.

Lemma reachable_exits cfg (l : list (nat * Z)) r :
  reachable cfg r ->
  reachable cfg (for_each l (fun pc => child_exits pc.1 pc.2 "" "") r).2.
Proof.
  revert r. induction l as [|x l IH]; intros r Hr; [done|].
  simpl. rewrite (seq_snd _ _ r (child_exits x.1 x.2 "" "" r).2) by done.
  apply IH. by apply reach_exit.
Qed.

Lemma reachable_check_cameras cfg cams os r :
  reachable cfg r -> reachable cfg (check_cameras cams os r).2.
Proof.
  revert os r. induction cams as [|camera cams IH]; intros os r Hr; [done|].
  simpl.
  destruct (returns_exits (fun _ => True) (exits (os 0%nat)) r)
    as (r1 & H1 & _).
  rewrite (seq_snd _ _ r r1 H1).
  assert (reachable cfg r1) as Hr1.
  { replace r1 with (for_each (exits (os 0%nat))
                       (fun pc => child_exits pc.1 pc.2 "" "") r).2
      by (by rewrite H1).
    by apply reachable_exits. }
  destruct (reconcile_camera_total camera (launches (os 0%nat)) r1)
    as (r2 & H2 & _).
  rewrite (seq_snd _ _ r1 r2 H2). apply IH.
  replace r2 with (reconcile_camera camera (launches (os 0%nat)) r1).2
    by (by rewrite H2).
  by apply reach_reconcile.
Qed.

Lemma reachable_check_and_restart cfg os r :
  reachable cfg r -> reachable cfg (check_and_restart_recordings os r).2.
Proof. intros Hr. by apply reachable_check_cameras. Qed.

(** C2. In every state the recorder reaches through [start_recording],
    [stop_recording] and reconcile passes, with subprocesses ending at
    any moment: two registered handles of subprocesses of one camera
    that both still run are the same handle; more, two subprocesses of
    one camera that both still run (and were not killed by
    [stop_recording]) are the same subprocess, and it is the handle
    registered for that camera; every registered handle is a subprocess
    launched for its camera; [start_recording] and the body of the
    reconcile pass launch a subprocess only when the handle registered
    for the camera is absent or has ended; and a whole reconcile pass
    leads to such a state again. *)
Theorem one_live_recording_per_camera cfg (r : RTSPRecorder) :
  reachable cfg r ->
  (forall k1 k2 p q P Q,
     processes r !! k1 = Some p -> processes r !! k2 = Some q ->
     children r !! p = Some P -> children r !! q = Some Q ->
     returncode P = None -> returncode Q = None ->
     cam_id (for_camera P) = cam_id (for_camera Q) -> p = q)
  /\ (forall p q P Q,
        children r !! p = Some P -> children r !! q = Some Q ->
        alive P -> alive Q ->
        cam_id (for_camera P) = cam_id (for_camera Q) -> p = q)
  /\ (forall p P, children r !! p = Some P -> alive P ->
        processes r !! cam_id (for_camera P) = Some p)
  /\ (forall camera_id p, processes r !! camera_id = Some p ->
        exists P, children r !! p = Some P
                  /\ cam_id (for_camera P) = camera_id)
  /\ (forall camera o,
        (length (children r)
         < length (children (start_recording camera o r).2))%nat ->
        already_recording r (cam_id camera) = false)
  /\ (forall camera o,
        (length (children r)
         < length (children (reconcile_camera camera o r).2))%nat ->
        already_recording r (cam_id camera) = false)
  /\ (forall os, reachable cfg (check_and_restart_recordings os r).2).
Proof.
  intros Hr. destruct (reachable_supervised cfg r Hr) as [Hlive Htab].
  split_and!; try done.
  - intros k1 k2 p q P Q Hp Hq HP HQ _ _ Hsame.
    destruct (Htab _ _ Hp) as (P' & HP' & <-).
    destruct (Htab _ _ Hq) as (Q' & HQ' & <-).
    assert (P' = P) as -> by congruence.
    assert (Q' = Q) as -> by congruence.
    rewrite Hsame in Hp. congruence.
  - intros p q P Q HP HQ HaP HaQ Hsame.
    pose proof (Hlive p P HP HaP) as H1.
    pose proof (Hlive q Q HQ HaQ) as H2. congruence.
  - intros camera o.
    destruct (start_recording_total camera o r) as (r' & -> & _ & _ & Hst).
    simpl. destruct Hst as [_ _ Eh _| | |]; try done. rewrite Eh. lia.
  - intros camera o.
    destruct (reconcile_camera_total camera o r)
      as (r' & -> & _ & _ & [(_ & Eh & _)|(_ & Hn & _)]); simpl; [|done].
    rewrite Eh. lia.
  - intros os. by apply reachable_check_and_restart.
Qed.

Lemma one_live_recording_per_camera_witness :
  let cfg := site 30 [cam1; cam2] in
  reachable cfg recording
  /\ (forall p q P Q,
        children recording !! p = Some P -> children recording !! q = Some Q ->
        alive P -> alive Q ->
        cam_id (for_camera P) = cam_id (for_camera Q) -> p = q)
  /\ (forall camera o,
        (length (children recording)
         < length (children (start_recording camera o recording).2))%nat ->
        already_recording recording (cam_id camera) = false).
Proof.
  intros cfg.
  assert (reachable cfg recording) as Hr
    by exact (reach_start cfg fresh cam1 LaunchRuns (reach_init cfg 1000)).
  destruct (one_live_recording_per_camera cfg recording Hr)
    as (_ & H1 & _ & _ & H4 & _).
  split; [exact Hr|]. split; [exact H1|exact H4].
Defined.

(** ** The periodic status line *)

Example status_line_runs :
  let r := (main_loop (replicate 20 idle) (unattended 30 10)).2 in
  let r' := (main_loop (replicate 5 idle) (unattended (1 # 4) (1199 # 4))).2 in
  Qeq (now r) 610 /\ status_lines r = 0%nat
  /\ Qeq (now r') 301 /\ status_lines r' = 4%nat.
Proof. vm_compute. done. Qed.

Lemma py_int_Z (x : Q) (z : Z) : 0 <= z -> Qeq x (inject_Z z) -> py_int x = z.
Proof.
  intros Hz Hx. unfold py_int. destruct (Qlt_le_dec x 0) as [Hneg|_].
  - exfalso. rewrite Hx in Hneg. apply (Qlt_not_le _ _ Hneg).
    change 0%Q with (inject_Z 0). by rewrite <- Zle_Qle.
  - rewrite (Qfloor_comp _ _ Hx). apply Qfloor_Z.
Qed.

(** One iteration of the main loop, 30 units after a time of the form
    [10 + 30 k], prints no status line. *)
Lemma idle_tick_silent (r : RTSPRecorder) (k : Z) rest :
  config r = site 30 [] -> running r = true -> 0 <= k ->
  Qeq (now r) (inject_Z (10 + 30 * k)) ->
  exists r',
    main_loop (idle :: rest) r = main_loop rest r'
    /\ config r' = site 30 [] /\ running r' = true
    /\ Qeq (now r') (inject_Z (10 + 30 * (k + 1)))
    /\ status_lines r' = status_lines r.
Proof.
  intros Hc Hr Hk Hnow.
  exists (emit (Sleep 30) (set_now (now r + 30)%Q r)).
  assert (Qeq (now r + 30) (inject_Z (10 + 30 * (k + 1)))) as Hnext.
  { rewrite Hnow. change 30%Q with (inject_Z 30). rewrite <- inject_Z_plus.
    apply inject_Z_injective. lia. }
  split_and!; try done.
  - simpl. unfold mbind at 1, M_bind at 1, get at 1. rewrite Hr, Hc. simpl.
    unfold check_and_restart_recordings, report_status. run_M. rewrite Hc.
    simpl. rewrite (py_int_Z _ (10 + 30 * (k + 1))) by (done || lia).
    rewrite bool_decide_eq_false_2; [done|].
    intros Hmod. apply Z.mod_divide in Hmod; [|done].
    destruct Hmod as [m Hm]. lia.
  - unfold status_lines. simpl. rewrite filter_app. simpl.
    rewrite filter_cons_False by done. rewrite filter_nil.
    by rewrite app_nil_r.
Qed.

Lemma idle_loop_silent n (r : RTSPRecorder) (k : Z) :
  config r = site 30 [] -> running r = true -> 0 <= k ->
  Qeq (now r) (inject_Z (10 + 30 * k)) ->
  let r' := (main_loop (replicate n idle) r).2 in
  Qeq (now r') (inject_Z (10 + 30 * (k + Z.of_nat n)))
  /\ status_lines r' = status_lines r.
Proof.
  revert r k. induction n as [|n IH]; intros r k Hc Hr Hk Hnow.
  - simpl. split; [|done]. rewrite Hnow. apply inject_Z_injective. lia.
  - destruct (idle_tick_silent r k (replicate n idle) Hc Hr Hk Hnow)
      as (r1 & Hstep & Hc1 & Hr1 & Hnow1 & Hs1).
    simpl replicate. cbv zeta. rewrite Hstep.
    destruct (IH r1 (k + 1) Hc1 Hr1 ltac:(lia) Hnow1) as [Hn' Hs'].
    split; [|congruence]. rewrite Hn'. apply inject_Z_injective. lia.
Qed.

(** C8. What [run] does about its status line ("Mostrar estado cada 5
    minutos"): the line is printed when an iteration of the main loop
    happens to end in a second that is a multiple of 300.  Polling every
    30 units from time 1700000020, no iteration ever does, so however
    long the loop runs no status line is printed; polling every quarter
    unit from time 299.75, four status lines are printed within one
    unit. *)
Theorem status_line_is_not_periodic :
  (forall n,
     let r := (main_loop (replicate n idle) (unattended 30 1700000020)).2 in
     Qeq (now r) (inject_Z (1700000020 + 30 * Z.of_nat n))
     /\ status_lines r = 0%nat)
  /\ (let r := (main_loop (replicate 5 idle)
                  (unattended (1 # 4) (1199 # 4))).2 in
      Qeq (now r) 301 /\ status_lines r = 4%nat).
Proof.
  split.
  - intros n.
    destruct (idle_loop_silent n (unattended 30 1700000020) 56666667)
      as [Hnow Hs]; try done.
    split; [|done]. rewrite Hnow. apply inject_Z_injective. lia.
  - vm_compute. done.
Qed.

End RecorderProofs.

(** * Properties of the system as a whole *)
Module SystemProofs.
Import Scenario.

(** C7. A camera entry configured with [enabled = false] gets no stream
    worker from [RTSPWebServer._initialize_cameras]: it is not among the
    workers started, and if no enabled entry shares its id then
    [self.cameras] has nothing under that id.  No subprocess is launched
    for it by the startup pass of [RTSPRecorder.run] or by a reconcile
    pass, which return normally, or by [run] as a whole, however it
    ends; [run] returns normally when the recordings directory can be
    created and the delay of the loop is not negative. *)
Theorem disabled_camera_gets_nothing (camera : Camera) :
  cam_enabled camera = false ->
  (forall cfg,
     let srv := App._initialize_cameras (App.RTSPWebServer_init cfg) in
     (camera ∉ App.threads_started srv)
     /\ ((forall c, c ∈ from_option cameras_of [] cfg ->
                    cam_id c = cam_id camera -> cam_enabled c = false) ->
         App.cameras srv !! cam_id camera = None))
  /\ (forall r startup, exists r' l,
        Recorder.start_cameras (cameras_of (Recorder.config r)) startup r
        = (Recorder.Return tt, r')
        /\ RecorderSpec.owners r' = RecorderSpec.owners r ++ l
        /\ camera ∉ l)
  /\ (forall r os, exists r' l,
        Recorder.check_and_restart_recordings os r = (Recorder.Return tt, r')
        /\ RecorderSpec.owners r' = RecorderSpec.owners r ++ l
        /\ camera ∉ l)
  /\ (forall r mkdir startup ticks ws, exists res r' l,
        Recorder.run mkdir startup ticks ws r = (res, r')
        /\ RecorderSpec.owners r' = RecorderSpec.owners r ++ l
        /\ (camera ∉ l)
        /\ (mkdir = None -> RecorderSpec.delay_ok r = true ->
            res = Recorder.Return tt)).
Proof.
  intros Hoff.
  assert (forall (A : Camera -> Prop) l,
            (forall c, A c -> cam_enabled c = true) ->
            Forall A l -> camera ∉ l) as Hnot.
  { intros A l HA Hl Hin. rewrite Forall_forall in Hl.
    specialize (HA _ (Hl _ Hin)). congruence. }
  split_and!.
  - intros cfg srv.
    destruct (AppProofs._initialize_cameras_enabled_only cfg) as [Hth Hcam].
    fold srv in Hth, Hcam. split.
    + apply (Hnot _ _ (fun c H => proj2 H) Hth).
    + intros Hall. destruct (App.cameras srv !! cam_id camera) as [cs|] eqn:Hk;
        [|done].
      destruct (Hcam _ _ Hk) as (c & Hin & He & Hid & _).
      specialize (Hall c Hin Hid). congruence.
  - intros r startup.
    destruct (RecorderProofs.returns_start_cameras
                (cameras_of (Recorder.config r)) startup r)
      as (r' & Hrun & _ & _ & l & El & Hl).
    exists r', l. split_and!; try done.
    apply (Hnot _ _ (fun c H => proj2 H) Hl).
  - intros r os.
    destruct (RecorderProofs.returns_check_and_restart os r)
      as (r' & Hrun & _ & _ & l & El & Hl).
    exists r', l. split_and!; try done.
    apply (Hnot _ _ (fun c H => proj2 H) Hl).
  - intros r mkdir startup ticks ws.
    destruct (RecorderProofs.ends_run mkdir startup ticks ws r)
      as (res & r' & Hrun & _ & _ & l & El & Hl).
    exists res, r', l. split_and!; try done.
    + apply (Hnot _ _ (fun c H => proj2 H) Hl).
    + intros -> Hd.
      destruct (RecorderProofs.returns_run startup ticks ws r Hd)
        as (r'' & Hret & _).
      congruence.
Qed.

Lemma disabled_camera_gets_nothing_witness :
  cam_enabled cam2 = false
  /\ (let srv := App._initialize_cameras
                   (App.RTSPWebServer_init (Some (site 30 [cam1; cam2]))) in
      cam2 ∉ App.threads_started srv)
  /\ exists r' l,
       Recorder.run None (fun _ => Recorder.LaunchRuns) [] (fun _ => None)
                    fresh
       = (Recorder.Return tt, r')
       /\ RecorderSpec.owners r' = RecorderSpec.owners fresh ++ l
       /\ cam2 ∉ l.
Proof.
  assert (cam_enabled cam2 = false) as H by reflexivity.
  destruct (disabled_camera_gets_nothing cam2 H) as (Ha & _ & _ & Hd).
  split; [exact H|]. split.
  - exact (proj1 (Ha (Some (site 30 [cam1; cam2])))).
  - destruct (Hd fresh None (fun _ => Recorder.LaunchRuns) []
                 (fun _ => None)) as (res & r' & l & Hrun & El & Hl & Hres).
    exists r', l. rewrite Hrun, (Hres eq_refl eq_refl). by split_and!.
Defined.

End SystemProofs.

(** * Further properties of recorder.py *)
Module RecorderExtra.
Import Recorder RecorderSpec SupervisionSpec Shutdown Scenario RecorderProofs.

(** ** One camera: start, start again, stop *)

(** X1. While the subprocess of a successful launch runs, a second
    [start_recording] for the camera launches nothing: it polls the handle
    and prints the warning, whatever a launch would have done. *)
Theorem start_recording_twice camera (o : launch) (r : RTSPRecorder) :
  already_recording r (cam_id camera) = false ->
  let r1 := (start_recording camera LaunchRuns r).2 in
  let p := length (children r) in
  processes r1 !! cam_id camera = Some p
  /\ status r1 p = None
  /\ exists r2,
       start_recording camera o r1 = (Return tt, r2)
       /\ processes r2 = processes r1 /\ children r2 = children r1
       /\ now r2 = now r1
       /\ trace r2 = trace r1 ++ [Poll p None;
                                  Print (AlreadyRecording (cam_id camera))].
Proof.
  intros Hn r1 p. subst r1. rewrite (start_recording_runs _ _ Hn). simpl.
  fold p.
  assert (status (emit (Print (RecordingStarted p))
            (set_processes (<[cam_id camera := p]> (processes r))
               (emit (Poll p None) (launched camera (new_child camera r) r))))
            p = None) as Hs.
  { unfold status. simpl. subst p. by rewrite list_lookup_middle. }
  split; [apply lookup_insert_eq|]. split; [exact Hs|].
  set (r1 := emit _ _) in *.
  assert (already_recording r1 (cam_id camera) = true) as Hlive.
  { apply already_recording_true. exists p. split; [apply lookup_insert_eq|done]. }
  rewrite (start_recording_live _ o _ Hlive). eexists. split; [done|].
  unfold after_guard.
  replace (processes r1 !! cam_id camera) with (Some p)
    by (symmetry; apply lookup_insert_eq).
  rewrite Hs. simpl. split_and!; try done. by rewrite <- (assoc_L (++)).
Qed.

Lemma start_recording_twice_witness :
  let r1 := (start_recording cam1 LaunchRuns ended).2 in
  already_recording ended (cam_id cam1) = false
  /\ processes r1 !! cam_id cam1 = Some 1%nat
  /\ exists r2,
       start_recording cam1 (LaunchRaises OSError) r1 = (Return tt, r2)
       /\ processes r2 = processes r1 /\ children r2 = children r1
       /\ now r2 = now r1
       /\ trace r2 = trace r1 ++ [Poll 1 None;
                                  Print (AlreadyRecording (cam_id cam1))].
Proof.
  assert (already_recording ended (cam_id cam1) = false) as H by reflexivity.
  destruct (start_recording_twice cam1 (LaunchRaises OSError) ended H)
    as (H1 & _ & H3).
  split; [exact H|]. split; [exact H1|exact H3].
Defined.

(** X2. A successful [start_recording] followed by [stop_recording]
    leaves the process table as it was without the camera's entry; the
    subprocess launched in between has ended or has been killed; the
    subprocesses that existed before are as they were; and the two calls
    take at most 12 units together. *)
Theorem start_then_stop camera (w : option (Q * Z)) (r : RTSPRecorder) :
  already_recording r (cam_id camera) = false ->
  let r1 := (start_recording camera LaunchRuns r).2 in
  exists r2,
    stop_recording (cam_id camera) w r1 = (Return tt, r2)
    /\ processes r2 = delete (cam_id camera) (processes r)
    /\ (exists P, children r2 !! length (children r) = Some P
                  /\ for_camera P = camera /\ ~ alive P)
    /\ (forall i P, children r !! i = Some P -> children r2 !! i = Some P)
    /\ (now r2 <= now r + 12)%Q.
Proof.
  intros Hn r1. set (p := length (children r)).
  assert (processes r1 = <[cam_id camera := p]> (processes r)
          /\ children r1 = children r ++ [new_child camera r]
          /\ now r1 = (now r + 2)%Q) as (Ep & Eh & En).
  { subst r1. by rewrite (start_recording_runs _ _ Hn). }
  assert (processes r1 !! cam_id camera = Some p) as Hp
    by (rewrite Ep; apply lookup_insert_eq).
  destruct (stop_recording_registered (cam_id camera) w r1 p Hp)
    as (r2 & Hrun & Etab & Hnow & _).
  destruct (stop_recording_winds_down (cam_id camera) w r1 p Hp)
    as (f & Hf & _ & Ech & Hdead).
  rewrite Hrun in Ech. simpl in Ech.
  assert (children r2 = children r ++ [f (new_child camera r)]) as Ech'.
  { rewrite Ech, Eh. subst p.
    rewrite (alter_app_r_alt _ _ _ (length (children r))) by lia.
    by rewrite Nat.sub_diag. }
  exists r2. split_and!; try done.
  - rewrite Etab, Ep. apply delete_insert_eq.
  - exists (f (new_child camera r)). split_and!.
    + rewrite Ech'. by apply list_lookup_middle.
    + by destruct (Hf (new_child camera r)) as [-> _].
    + apply Hdead. rewrite Eh. by apply list_lookup_middle.
  - intros i P HP. rewrite Ech'. by apply lookup_app_l_Some.
  - rewrite En in Hnow. eapply Qle_trans; [exact Hnow|].
    rewrite <- Qplus_assoc. apply Qle_refl.
Qed.

Lemma start_then_stop_witness :
  let r1 := (start_recording cam1 LaunchRuns fresh).2 in
  already_recording fresh (cam_id cam1) = false
  /\ exists r2,
       stop_recording (cam_id cam1) None r1 = (Return tt, r2)
       /\ processes r2 = delete (cam_id cam1) (processes fresh)
       /\ (exists P, children r2 !! length (children fresh) = Some P
                     /\ for_camera P = cam1 /\ ~ alive P)
       /\ (forall i P, children fresh !! i = Some P ->
                       children r2 !! i = Some P)
       /\ (now r2 <= now fresh + 12)%Q.
Proof.
  assert (already_recording fresh (cam_id cam1) = false) as H by reflexivity.
  split; [exact H|]. exact (start_then_stop cam1 None fresh H).
Defined.

(** ** One camera of a reconcile pass *)

(** X3. When the registered subprocess of an enabled camera has ended
    with code [rc], the reconcile pass polls it, prints "completed" if
    [rc] is 0 and "failed" otherwise, announces and attempts a new launch
    whatever [rc] is, and leaves the other cameras' entries alone.  The
    camera's entry is the new handle if the new ffmpeg survives the settle
    delay and is gone otherwise. *)
Theorem reconcile_restarts_ended camera (o : launch) (r : RTSPRecorder)
    (p : nat) (rc : Z) :
  cam_enabled camera = true ->
  processes r !! cam_id camera = Some p -> status r p = Some rc ->
  exists r' rest,
    reconcile_camera camera o r = (Return tt, r')
    /\ trace r' = trace r ++ [Poll p (Some rc); Print (verdict camera rc);
                              Print (StartingNew camera);
                              Print (StartingRecording camera)] ++ rest
    /\ (forall k, k <> cam_id camera -> processes r' !! k = processes r !! k)
    /\ processes r' !! cam_id camera
       = match o with
         | LaunchRuns => Some (length (children r))
         | _ => None
         end
    /\ (o = LaunchRuns -> already_recording r' (cam_id camera) = true).
Proof.
  intros He Hp Hs.
  assert (already_recording r (cam_id camera) = false) as Hn.
  { unfold already_recording. rewrite Hp, Hs. done. }
  rewrite (reconcile_camera_due _ o _ He Hn).
  destruct (before_restart_fields camera r) as (_ & _ & Ep & Eh & _ & Hn').
  assert (trace (before_restart camera r)
          = trace r ++ [Poll p (Some rc); Print (verdict camera rc);
                        Print (StartingNew camera)]) as Et.
  { unfold before_restart, verdict. rewrite Hp, Hs. simpl.
    rewrite <- !(assoc_L (++)). simpl. by destruct rc. }
  assert (after_guard (before_restart camera r) (cam_id camera)
          = before_restart camera r) as Eg.
  { apply after_guard_none. rewrite Ep. apply lookup_delete_eq. }
  assert (forall k, k <> cam_id camera ->
            processes (before_restart camera r) !! k = processes r !! k) as Hk.
  { intros k Hne. rewrite Ep. by apply lookup_delete_ne. }
  destruct o as [e|code out err|].
  - rewrite (start_recording_raises _ e _ Hn'). eexists. eexists.
    split; [done|]. simpl. rewrite Eg, Et. split_and!; try done.
    + rewrite <- !(assoc_L (++)). simpl. done.
    + rewrite Ep. apply lookup_delete_eq.
  - rewrite (start_recording_exits _ code out err _ Hn'). eexists. eexists.
    split; [done|]. simpl. rewrite Eg, Et. split_and!; try done.
    + rewrite <- !(assoc_L (++)). simpl. done.
    + rewrite Ep. apply lookup_delete_eq.
  - rewrite (start_recording_runs _ _ Hn'). eexists. eexists.
    split; [done|]. simpl. rewrite Eg, Et, Eh. split_and!.
    + rewrite <- !(assoc_L (++)). simpl. done.
    + intros k Hne. rewrite lookup_insert_ne by done. by apply Hk.
    + apply lookup_insert_eq.
    + intros _. unfold already_recording, status. simpl.
      rewrite lookup_insert_eq, Eh. by rewrite list_lookup_middle.
Qed.

Lemma reconcile_restarts_ended_witness :
  cam_enabled cam1 = true
  /\ processes ended !! cam_id cam1 = Some 0%nat
  /\ status ended 0 = Some 1
  /\ exists r' rest,
       reconcile_camera cam1 LaunchRuns ended = (Return tt, r')
       /\ trace r' = trace ended
                     ++ [Poll 0 (Some 1); Print (verdict cam1 1);
                         Print (StartingNew cam1);
                         Print (StartingRecording cam1)] ++ rest
       /\ (forall k, k <> cam_id cam1 ->
                     processes r' !! k = processes ended !! k)
       /\ processes r' !! cam_id cam1 = Some (length (children ended))
       /\ (LaunchRuns = LaunchRuns ->
           already_recording r' (cam_id cam1) = true).
Proof.
  assert (cam_enabled cam1 = true) as H1 by reflexivity.
  assert (processes ended !! cam_id cam1 = Some 0%nat) as H2 by reflexivity.
  assert (status ended 0 = Some 1) as H3 by reflexivity.
  split; [exact H1|]. split; [exact H2|]. split; [exact H3|].
  exact (reconcile_restarts_ended cam1 LaunchRuns ended 0 1 H1 H2 H3).
Defined.

(** ** Whole passes *)

(** A launch for one camera does not disturb a camera that is recording. *)
Lemma started_keeps_recording camera r r' k :
  started camera r r' ->
  (forall p, processes r !! k = Some p -> is_Some (children r !! p)) ->
  already_recording r k = true -> already_recording r' k = true.
Proof.
  intros Hst Hreg (p & Hp & Hs)%already_recording_true.
  apply already_recording_true. exists p.
  destruct (Hreg p Hp) as [P HP].
  assert (forall x, (children r ++ [x]) !! p ≫= returncode = None) as Happ.
  { intros x. rewrite (lookup_app_l_Some _ _ _ _ HP).
    unfold status in Hs. by rewrite HP in Hs. }
  destruct Hst as [_ Ep Eh _|_ Ep Eh _|code out err Hn Ep Eh|Hn Ep Eh].
  - unfold status. by rewrite Ep, Eh.
  - unfold status. by rewrite Ep, Eh.
  - rewrite Ep. split; [done|]. unfold status. rewrite Eh. apply Happ.
  - assert (cam_id camera <> k) as Hne.
    { intros <-. unfold already_recording in Hn. rewrite Hp, Hs in Hn.
      by rewrite bool_decide_eq_true_2 in Hn. }
    rewrite Ep, lookup_insert_ne by done. split; [done|].
    unfold status. rewrite Eh. apply Happ.
Qed.

Lemma supervised_registered r k p :
  supervised r -> processes r !! k = Some p -> is_Some (children r !! p).
Proof. intros [_ Htab] Hp. destruct (Htab _ _ Hp) as (P & -> & _). done. Qed.

Lemma reconcile_camera_keeps_recording camera o r k :
  supervised r -> already_recording r k = true ->
  already_recording (reconcile_camera camera o r).2 k = true.
Proof.
  intros Hsup Hk.
  destruct (reconcile_camera_total camera o r)
    as (r' & -> & _ & _ & [(Ep & Eh & _)|(_ & Hn & Hst)]); simpl.
  - unfold already_recording, status in *. by rewrite Ep, Eh.
  - destruct (before_restart_fields camera r) as (_ & _ & Ep & Eh & _).
    assert (cam_id camera <> k) as Hne by (intros <-; congruence).
    apply (started_keeps_recording camera (before_restart camera r)); [done| |].
    + intros p. rewrite Ep, Eh, lookup_delete_ne by done.
      by apply supervised_registered.
    + unfold already_recording, status in *.
      by rewrite Ep, Eh, lookup_delete_ne.
Qed.

Lemma start_recording_keeps_recording camera o r k :
  supervised r -> already_recording r k = true ->
  already_recording (start_recording camera o r).2 k = true.
Proof.
  intros Hsup Hk.
  destruct (start_recording_total camera o r) as (r' & -> & _ & _ & Hst).
  apply (started_keeps_recording camera r); [done| |done].
  intros p. by apply supervised_registered.
Qed.

(** X4. If no subprocess ends during a reconcile pass and every launch
    made in it survives the settle delay, then at the end of the pass
    every enabled camera of the list is recording, and so is every camera
    that was recording before. *)
Theorem reconcile_pass_heals cams (os : nat -> tick) (r : RTSPRecorder) :
  supervised r ->
  (forall i, exits (os i) = []) ->
  (forall i, launches (os i) = LaunchRuns) ->
  exists r',
    check_cameras cams os r = (Return tt, r')
    /\ supervised r'
    /\ (forall k, already_recording r k = true ->
                  already_recording r' k = true)
    /\ (forall c, c ∈ cams -> cam_enabled c = true ->
                  already_recording r' (cam_id c) = true).
Proof.
  revert os r. induction cams as [|camera cams IH]; intros os r Hsup Hex Hrun.
  { exists r. split_and!; try done. intros c Hc. by apply not_elem_of_nil in Hc. }
  simpl. rewrite Hex, Hrun. simpl.
  destruct (reconcile_camera_total camera LaunchRuns r) as (r1 & H1 & _).
  assert (supervised r1) as Hsup1.
  { replace r1 with (reconcile_camera camera LaunchRuns r).2 by (by rewrite H1).
    by apply supervised_reconcile_camera. }
  assert (forall k, already_recording r k = true ->
                    already_recording r1 k = true) as Hkeep1.
  { intros k Hk.
    replace r1 with (reconcile_camera camera LaunchRuns r).2 by (by rewrite H1).
    by apply reconcile_camera_keeps_recording. }
  assert (cam_enabled camera = true ->
          already_recording r1 (cam_id camera) = true) as Hown.
  { intros He. destruct (already_recording r (cam_id camera)) eqn:Hlive.
    - by apply Hkeep1.
    - rewrite (reconcile_camera_due _ _ _ He Hlive) in H1.
      destruct (before_restart_fields camera r) as (_ & _ & _ & _ & _ & Hn').
      destruct (start_recording_attempt camera LaunchRuns _ Hn')
        as (r2 & rest & H2 & _ & Hrec).
      assert (r2 = r1) as <- by congruence. by apply Hrec. }
  destruct (IH (fun i => os (S i)) r1 Hsup1) as (r' & Hrest & Hsup' & Hkeep & Hall);
    [done|done|].
  exists r'. split_and!; try done.
  - unfold mbind, M_bind, mret, M_ret. by rewrite H1.
  - auto.
  - intros c [->|Hc]%elem_of_cons He; auto.
Qed.

Lemma reconcile_pass_heals_witness :
  let os := fun _ : nat => {| exits := []; launches := LaunchRuns |} in
  supervised ended
  /\ exists r',
       check_cameras [cam1; cam2] os ended = (Return tt, r')
       /\ supervised r'
       /\ (forall k, already_recording ended k = true ->
                     already_recording r' k = true)
       /\ (forall c, c ∈ [cam1; cam2] -> cam_enabled c = true ->
                     already_recording r' (cam_id c) = true).
Proof.
  intros os.
  assert (supervised ended) as H.
  { apply (reachable_supervised (site 30 [cam1; cam2])).
    apply reach_exit, reach_start, reach_init. }
  split; [exact H|].
  exact (reconcile_pass_heals [cam1; cam2] os ended H
           (fun _ => eq_refl) (fun _ => eq_refl)).
Defined.

(** X5. If every enabled camera of the list is recording and no
    subprocess ends during the pass, the pass only polls: it launches
    nothing, prints nothing, takes no time, and leaves the process table
    and every subprocess as they were. *)
Theorem reconcile_pass_leaves_recordings cams (os : nat -> tick)
    (r : RTSPRecorder) :
  (forall i, exits (os i) = []) ->
  (forall c, c ∈ cams -> cam_enabled c = true ->
             already_recording r (cam_id c) = true) ->
  exists r' polls,
    check_cameras cams os r = (Return tt, r')
    /\ processes r' = processes r /\ children r' = children r
    /\ now r' = now r
    /\ trace r' = trace r ++ polls /\ only_polls polls.
Proof.
  revert os r. induction cams as [|camera cams IH]; intros os r Hex Hall.
  { exists r, []. split_and!; try done; [by rewrite app_nil_r|constructor]. }
  simpl. rewrite Hex. simpl.
  assert (exists r1 l, reconcile_camera camera (launches (os 0%nat)) r
                       = (Return tt, r1)
                       /\ processes r1 = processes r
                       /\ children r1 = children r /\ now r1 = now r
                       /\ trace r1 = trace r ++ l /\ only_polls l)
    as (r1 & l & H1 & Ep & Eh & En & Et & Hl).
  { destruct (cam_enabled camera) eqn:He.
    - assert (already_recording r (cam_id camera) = true) as Hlive.
      { apply Hall; [apply list_elem_of_here|done]. }
      rewrite (reconcile_camera_recording _ _ _ He Hlive).
      apply already_recording_true in Hlive as (p & Hp & Hs).
      exists (after_guard r (cam_id camera)), [Poll p None].
      unfold after_guard. rewrite Hp, Hs. split_and!; try done.
      apply Forall_singleton. by exists p.
    - rewrite (reconcile_camera_disabled _ _ _ He). exists r, [].
      split_and!; try done; [by rewrite app_nil_r|constructor]. }
  destruct (IH (fun i => os (S i)) r1) as (r' & l' & H' & Ep' & Eh' & En' & Et' & Hl').
  { done. }
  { intros c Hc He. unfold already_recording, status. rewrite Ep, Eh.
    apply Hall; [by apply list_elem_of_further|done]. }
  exists r', (l ++ l'). split_and!; try congruence.
  - unfold mbind, M_bind, mret, M_ret. by rewrite H1.
  - by rewrite Et', Et, (assoc_L (++)).
  - by apply Forall_app.
Qed.

Lemma reconcile_pass_leaves_recordings_witness :
  let os := fun _ : nat => {| exits := []; launches := LaunchRaises OSError |} in
  (forall c, c ∈ [cam1; cam2] -> cam_enabled c = true ->
             already_recording recording (cam_id c) = true)
  /\ exists r' polls,
       check_cameras [cam1; cam2] os recording = (Return tt, r')
       /\ processes r' = processes recording
       /\ children r' = children recording
       /\ now r' = now recording
       /\ trace r' = trace recording ++ polls /\ only_polls polls.
Proof.
  intros os.
  assert (forall c, c ∈ [cam1; cam2] -> cam_enabled c = true ->
                    already_recording recording (cam_id c) = true) as H.
  { intros c Hc He. apply elem_of_cons in Hc as [->|Hc]; [reflexivity|].
    apply list_elem_of_singleton in Hc as ->. discriminate He. }
  split; [exact H|].
  exact (reconcile_pass_leaves_recordings [cam1; cam2] os recording
           (fun _ => eq_refl) H).
Defined.

(** ** The startup pass *)

Lemma start_recording_table camera o r :
  exists r',
    start_recording camera o r = (Return tt, r')
    /\ forall k, is_Some (processes r' !! k)
                 <-> is_Some (processes r !! k)
                     \/ (k = cam_id camera /\ o = LaunchRuns).
Proof.
  destruct (already_recording r (cam_id camera)) eqn:Hlive.
  - rewrite (start_recording_live _ o _ Hlive). eexists. split; [done|].
    destruct (after_guard_fields r (cam_id camera)) as (_ & Ep & _).
    simpl. rewrite Ep. intros k. split; [by left|].
    intros [?|[-> _]]; [done|].
    apply already_recording_true in Hlive as (p & -> & _). done.
  - destruct o as [e|code out err|].
    + rewrite (start_recording_raises _ e _ Hlive). eexists. split; [done|].
      destruct (after_guard_fields r (cam_id camera)) as (_ & Ep & _).
      simpl. rewrite Ep. intros k. split; [by left|]. by intros [?|[_ ?]].
    + rewrite (start_recording_exits _ code out err _ Hlive).
      eexists. split; [done|]. simpl. intros k. split; [by left|].
      by intros [?|[_ ?]].
    + rewrite (start_recording_runs _ _ Hlive). eexists. split; [done|].
      simpl. intros k. destruct (decide (cam_id camera = k)) as [<-|Hne].
      * rewrite lookup_insert_eq. split; [by right|done].
      * rewrite lookup_insert_ne by done. split; [by left|].
        by intros [?|[-> _]].
Qed.

(** X6. After the startup pass of [run] a camera id has an entry in the
    process table exactly when it had one before or some enabled entry of
    the list with that id had its launch survive the settle delay. *)
Theorem startup_registers cams (os : nat -> launch) (r : RTSPRecorder) :
  exists r',
    start_cameras cams os r = (Return tt, r')
    /\ forall k, is_Some (processes r' !! k)
                 <-> is_Some (processes r !! k)
                     \/ exists i c, cams !! i = Some c
                                    /\ cam_enabled c = true /\ cam_id c = k
                                    /\ os i = LaunchRuns.
Proof.
  revert os r. induction cams as [|camera cams IH]; intros os r.
  { exists r. split; [done|]. intros k. split; [by left|].
    by intros [?|(i & c & ? & _)]. }
  simpl.
  assert (exists r1,
            (if cam_enabled camera then start_recording camera (os 0%nat)
             else mret tt) r = (Return tt, r1)
            /\ forall k, is_Some (processes r1 !! k)
                         <-> is_Some (processes r !! k)
                             \/ (cam_enabled camera = true
                                 /\ k = cam_id camera
                                 /\ os 0%nat = LaunchRuns))
    as (r1 & H1 & Hk1).
  { destruct (cam_enabled camera).
    - destruct (start_recording_table camera (os 0%nat) r) as (r1 & H1 & Hk).
      exists r1. split; [done|]. intros k. rewrite Hk. split.
      + intros [?|[? ?]]; [by left|by right].
      + intros [?|(_ & ? & ?)]; [by left|by right].
    - exists r. split; [done|]. intros k. split; [by left|].
      by intros [?|(? & _)]. }
  destruct (IH (fun i => os (S i)) r1) as (r' & H' & Hk').
  exists r'. split.
  - unfold mbind, M_bind. by rewrite H1.
  - intros k. rewrite Hk', Hk1. split.
    + intros [[?|(He & -> & Ho)]|(i & c & Hc & He & Hid & Ho)].
      * by left.
      * right. by exists 0%nat, camera.
      * right. by exists (S i), c.
    + intros [?|(i & c & Hc & He & Hid & Ho)]; [by left; left|].
      destruct i as [|i]; simpl in Hc.
      * injection Hc as ->. left. right. done.
      * right. by exists i, c.
Qed.

Example startup_of_two :
  let os i := match i with 0%nat => LaunchRaises FileNotFoundError
                         | _ => LaunchRuns end in
  let cam1' := {| cam_id := "cam1"; cam_name := "Entrada (sub)";
                  cam_rtsp_url := "rtsp://192.168.1.10/stream2";
                  cam_enabled := true |} in
  let r' := (start_cameras [cam1; cam2; cam1'] os fresh).2 in
  processes r' !! "cam1" = Some 0%nat /\ processes r' !! "cam2" = None
  /\ (for_camera <$> children r') = [cam1'].
Proof. vm_compute. done. Qed.

(** ** Shutdown *)





Lemma stop_each_bound (ws : string -> option (Q * Z)) ids r :
  (now (for_each ids (fun camera_id =>
                        stop_recording camera_id (ws camera_id)) r).2
   <= now r + 10 * inject_Z (Z.of_nat (length ids)))%Q.
Proof.
  revert r. induction ids as [|i ids IH]; intros r.
  { simpl. change (inject_Z (Z.of_nat 0)) with 0%Q. lra. }
  simpl length. simpl for_each.
  destruct (stop_recording_total i (ws i) r) as (r1 & H1 & _).
  rewrite (seq_snd _ _ r r1 H1).
  assert (now r1 <= now r + 10)%Q as Hstep.
  { destruct (processes r !! i) as [p|] eqn:Hp.
    - destruct (stop_recording_registered i (ws i) r p Hp)
        as (r' & Hrun & _ & Hnow & _).
      assert (r' = r1) as <- by congruence. done.
    - rewrite (stop_recording_absent _ _ _ Hp) in H1.
      assert (r1 = r) as -> by congruence. lra. }
  specialize (IH r1). rewrite Nat2Z.inj_succ. unfold Z.succ.
  rewrite inject_Z_plus. change (inject_Z 1) with 1%Q. lra.
Qed.

Lemma stop_all_recordings_in_time (ws : string -> option (Q * Z)) r :
  exists r',
    stop_all_recordings ws r = (Return tt, r')
    /\ processes r' = ∅
    /\ (now r' <= now r + 10 * inject_Z (Z.of_nat (size (processes r))))%Q.
Proof.
  destruct (stop_all_recordings_empties ws r) as (r' & Hrun & Hempty).
  exists r'. split_and!; try done.
  replace r' with (stop_all_recordings ws r).2 by (by rewrite Hrun).
  unfold stop_all_recordings. unfold mbind at 1, M_bind at 1, get at 1.
  rewrite <- length_map_to_list, <- (length_fmap fst).
  apply stop_each_bound.
Qed.



(** X8. The signal handler always ends the process with [sys.exit(0)],
    leaving the running flag false and the process table empty, after at
    most 10 units per registered camera.  From that state the main loop
    would not iterate again, and a second signal changes nothing. *)
Theorem signal_handler_shuts_down (ws : string -> option (Q * Z))
    (r : RTSPRecorder) :
  exists r',
    _signal_handler ws r = (SystemExit 0, r')
    /\ running r' = false /\ processes r' = ∅
    /\ (now r' <= now r + 10 * inject_Z (Z.of_nat (size (processes r))))%Q
    /\ (forall ticks, main_loop ticks r' = (Return tt, r'))
    /\ (forall ws', _signal_handler ws' r' = (SystemExit 0, r')).
Proof.
  destruct (stop_all_recordings_in_time ws (set_running false r))
    as (r' & Hrun & Hempty & Hnow).
  destruct (returns_stop_all (fun _ => False) ws (set_running false r))
    as (r2 & H2 & _ & Hflag & _).
  assert (r2 = r') as -> by congruence. simpl in Hflag, Hnow.
  exists r'. unfold _signal_handler. rewrite Hrun. split_and!; try done.
  - intros [|os ticks]; [done|]. simpl.
    unfold mbind, M_bind, get. by rewrite Hflag.
  - intros ws'.
    assert (set_running false r' = r') as ->.
    { destruct r'. simpl in *. by subst. }
    by rewrite (stop_all_recordings_empty ws' r' Hempty).
Qed.

End RecorderExtra.

(** * Properties of start_system.py *)
Module ManagerProofs.
Import Manager ManagerSpec.

Lemma argv_alter (f : Popen -> Popen) p (l : list Popen) :
  (forall P, argv (f P) = argv P) -> argv <$> alter f p l = argv <$> l.
Proof.
  intros Hf. revert p. induction l as [|P l IH]; intros [|p]; simpl; try done.
  - by rewrite Hf.
  - f_equal. apply IH.
Qed.

Lemma exit_with_argv code P : argv (exit_with code P) = argv P.
Proof. unfold exit_with. by destruct (returncode P). Qed.

(** What one [stop_process] does. *)
Lemma stop_process_spec name w m :
  exists m' l,
    stop_process name w m = Done m'
    /\ processes m' = delete name (processes m)
    /\ running m' = running m
    /\ launched m' = launched m
    /\ trace m' = trace m ++ l
    /\ (forall p, processes m !! name <> Some p ->
          children m' !! p = children m !! p
          /\ forall e, e ∈ l -> ~ signals p e).
Proof.
  unfold stop_process, launched.
  destruct (processes m !! name) as [q|] eqn:Hq.
  2:{ exists m, []. split_and!; try done.
      - by rewrite delete_id.
      - by rewrite app_nil_r.
      - intros p _. split; [done|]. intros e He. by apply not_elem_of_nil in He. }
  assert (forall (f : Popen -> Popen) p, Some q <> Some p ->
            alter f q (children m) !! p = children m !! p) as Hother.
  { intros f p Hne. apply list_lookup_alter_ne. congruence. }
  assert (forall p e (l : list event), Some q <> Some p ->
            Forall (fun e => e = Terminate q \/ e = Kill q
                             \/ (forall n, e <> Terminate n /\ e <> Kill n)) l ->
            e ∈ l -> ~ signals p e) as Hsig.
  { intros p e l Hne Hl He [->| ->]; rewrite Forall_forall in Hl;
      destruct (Hl _ He) as [[= <-]|[[= <-]|Hn]]; try done;
      by destruct (Hn p). }
  destruct (status m q) as [rc|] eqn:Hs.
  - unfold del_process. simpl. rewrite Hq.
    exists (set_processes (delete name (processes m))
              (emit (Poll q (Some rc)) m)), [Poll q (Some rc)].
    split_and!; try done. intros p Hne. split; [done|].
    intros e He. eapply Hsig; [done| |done].
    apply Forall_singleton. right. right. done.
  - assert (forall l : list event,
              Forall (fun e => e = Terminate q \/ e = Kill q
                               \/ (forall n, e <> Terminate n /\ e <> Kill n))
                     ([Poll q None; Print (Stopping name q); Terminate q;
                       Wait q 10] ++ l)
              <-> Forall (fun e => e = Terminate q \/ e = Kill q
                                  \/ (forall n, e <> Terminate n /\ e <> Kill n)) l)
      as Hpre.
    { intros l. rewrite Forall_app. split; [by intros [_ ?]|].
      intros Hl. split; [|done].
      apply Forall_cons; split; [right; right; done|].
      apply Forall_cons; split; [right; right; done|].
      apply Forall_cons; split; [by left|].
      apply Forall_cons; split; [right; right; done|]. constructor. }
    destruct w as [[d code]|]; [destruct (Qle_bool d 10)|];
      unfold del_process, child_exits; simpl; rewrite Hq.
    + exists (set_processes (delete name (processes m))
                (set_children (alter (exit_with code) q (children m))
                   (set_now (now m + d)%Q
                      (emit (Wait q 10) (emit (Terminate q)
                         (emit (Print (Stopping name q))
                            (emit (Poll q None) m))))))),
             ([Poll q None; Print (Stopping name q); Terminate q; Wait q 10]
              ++ []).
      split_and!; try done.
      * apply argv_alter. intros P. apply exit_with_argv.
      * simpl. by rewrite <- !(assoc_L (++)).
      * intros p Hne. split; [by apply Hother|]. intros e He.
        eapply Hsig; [done| |exact He]. apply Hpre. constructor.
    + eexists. exists ([Poll q None; Print (Stopping name q); Terminate q;
                        Wait q 10] ++ [Kill q]).
      split; [done|]. simpl. split_and!; try done.
      * by apply argv_alter.
      * by rewrite <- !(assoc_L (++)).
      * intros p Hne. split; [by apply Hother|]. intros e He.
        eapply Hsig; [done| |exact He]. apply Hpre.
        apply Forall_singleton. auto.
    + eexists. exists ([Poll q None; Print (Stopping name q); Terminate q;
                        Wait q 10] ++ [Kill q]).
      split; [done|]. simpl. split_and!; try done.
      * by apply argv_alter.
      * by rewrite <- !(assoc_L (++)).
      * intros p Hne. split; [by apply Hother|]. intros e He.
        eapply Hsig; [done| |exact He]. apply Hpre.
        apply Forall_singleton. auto.
Qed.


Lemma stop_each_spec (ws : string -> option (Q * Z)) ids m :
  exists m' l,
    foldl (fun o name => and_then o (stop_process name (ws name)))
          (Done m) ids = Done m'
    /\ (forall k, processes m' !! k
                  = if decide (k ∈ ids) then None else processes m !! k)
    /\ running m' = running m
    /\ launched m' = launched m
    /\ trace m' = trace m ++ l
    /\ (forall p, (forall k, processes m !! k <> Some p) ->
          children m' !! p = children m !! p
          /\ forall e, e ∈ l -> ~ signals p e).
Proof.
  revert m. induction ids as [|i ids IH]; intros m.
  { exists m, []. split_and!; try done.
    - by rewrite app_nil_r.
    - intros p _. split; [done|]. intros e He. by apply not_elem_of_nil in He. }
  destruct (stop_process_spec i (ws i) m)
    as (m1 & l1 & H1 & Ep1 & Er1 & El1 & Et1 & Hp1).
  destruct (IH m1) as (m' & l' & H' & Ep' & Er' & El' & Et' & Hp').
  exists m', (l1 ++ l'). simpl. rewrite H1.
  split; [exact H'|]. split_and!; try congruence.
  - intros k. rewrite Ep', Ep1. destruct (decide (k = i)) as [->|Hne].
    + rewrite (decide_True (P := i ∈ i :: ids)) by apply list_elem_of_here.
      rewrite lookup_delete_eq. by case_decide.
    + rewrite lookup_delete_ne by done.
      destruct (decide (k ∈ ids)) as [Hin|Hnin].
      * rewrite decide_True; [done|]. by apply list_elem_of_further.
      * rewrite decide_False; [done|]. intros [?|?]%elem_of_cons; done.
  - by rewrite Et', Et1, (assoc_L (++)).
  - intros p Hp.
    destruct (Hp1 p (Hp i)) as [Ec1 Hs1].
    destruct (Hp' p) as [Ec' Hs'].
    { intros k. rewrite Ep1. intros [_ ?]%lookup_delete_Some. by apply (Hp k). }
    split; [congruence|].
    intros e [He|He]%elem_of_app; auto.
Qed.

Lemma stop_all_processes_spec ws m :
  exists m' l,
    stop_all_processes ws m = Done m'
    /\ processes m' = ∅
    /\ running m' = running m
    /\ launched m' = launched m
    /\ trace m' = trace m ++ l
    /\ (forall p, (forall k, processes m !! k <> Some p) ->
          children m' !! p = children m !! p
          /\ forall e, e ∈ l -> ~ signals p e).
Proof.
  destruct (stop_each_spec ws (map_to_list (processes m)).*1 m)
    as (m' & l & H & Ep & Er & El & Et & Hp).
  exists m', l. split_and!; try done.
  apply map_eq. intros k. rewrite Ep, lookup_empty.
  case_decide as Hin; [done|].
  destruct (processes m !! k) as [p|] eqn:Hk; [|done].
  exfalso. apply Hin. apply list_elem_of_fmap. exists (k, p).
  split; [done|]. by apply elem_of_map_to_list.
Qed.

Lemma check_each_spec (l : list (string * nat)) m :
  NoDup l.*1 ->
  (forall k p, (k, p) ∈ l -> processes m !! k = Some p) ->
  exists m' new,
    foldl (fun o np => and_then o (fun m' => check_process m' np))
          (Done m) l = Done m'
    /\ children m' = children m /\ now m' = now m
    /\ running m' = running m
    /\ (forall k, processes m' !! k
                  = if decide (k ∈ l.*1)
                    then processes m !! k ≫= if_running m
                    else processes m !! k)
    /\ trace m' = trace m ++ new
    /\ (forall e, e ∈ new ->
          forall p, ~ signals p e /\ forall n, e <> Launch n p).
Proof.
  revert m. induction l as [|[k p] l IH]; intros m Hnd Hreg.
  { exists m, []. split_and!; try done.
    - by rewrite app_nil_r.
    - intros e He. by apply not_elem_of_nil in He. }
  apply NoDup_cons in Hnd as [Hk Hnd]. simpl in Hk.
  assert (processes m !! k = Some p) as Hp
    by (apply Hreg; apply list_elem_of_here).
  assert (exists m1 l1,
            check_process m (k, p) = Done m1
            /\ children m1 = children m /\ now m1 = now m
            /\ running m1 = running m
            /\ processes m1 !! k = if_running m p
            /\ (forall k', k' <> k -> processes m1 !! k' = processes m !! k')
            /\ trace m1 = trace m ++ l1
            /\ forall e, e ∈ l1 -> forall q, ~ signals q e
                                             /\ forall n, e <> Launch n q)
    as (m1 & l1 & H1 & Eh1 & En1 & Er1 & Ek1 & Eo1 & Et1 & Hl1).
  { unfold check_process, if_running, del_process. simpl.
    destruct (status m p) as [rc|] eqn:Hs; simpl; rewrite ?Hp.
    - eexists. exists [Poll p (Some rc); Print (StoppedUnexpectedly k)].
      split; [done|]. simpl. split_and!; try done.
      + apply lookup_delete_eq.
      + intros k' Hne. by apply lookup_delete_ne.
      + by rewrite <- (assoc_L (++)).
      + intros e He q. unfold signals.
        apply elem_of_cons in He as [->|He];
          [|apply list_elem_of_singleton in He as ->]; split; try done;
          by intros [?|?].
    - eexists. exists [Poll p None]. split; [done|]. simpl.
      split_and!; try done.
      intros e ->%list_elem_of_singleton q. unfold signals.
      split; [by intros [?|?]|done]. }
  destruct (IH m1 Hnd) as (m' & l' & H' & Eh' & En' & Er' & Ek' & Et' & Hl').
  { intros k' p' Hin. rewrite Eo1; [apply Hreg; by apply list_elem_of_further|].
    intros ->. apply Hk. apply list_elem_of_fmap. by exists (k, p'). }
  exists m', (l1 ++ l'). simpl. rewrite H1.
  split; [exact H'|]. split_and!; try congruence.
  - intros k'. rewrite Ek'.
    change (list_fmap (string * nat)%type string fst l) with (l.*1).
    destruct (decide (k' = k)) as [->|Hne].
    + rewrite decide_False by done.
      rewrite (decide_True (P := k ∈ k :: l.*1)) by apply list_elem_of_here.
      by rewrite Ek1, Hp.
    + rewrite Eo1 by done.
      assert (forall q, if_running m1 q = if_running m q) as Hsame.
      { intros q. unfold if_running, status. by rewrite Eh1. }
      destruct (decide (k' ∈ l.*1)) as [Hin|Hnin].
      * rewrite decide_True by (by apply list_elem_of_further).
        destruct (processes m !! k'); simpl; [apply Hsame|done].
      * rewrite decide_False; [done|]. intros [?|?]%elem_of_cons; done.
  - by rewrite Et', Et1, (assoc_L (++)).
  - intros e [He|He]%elem_of_app; auto.
Qed.

(** X9. [check_processes] never fails (each [del] finds its key): it
    keeps exactly the entries whose process still runs and drops the
    others, and does nothing else: no subprocess is launched, restarted,
    terminated or killed, and no time passes. *)
Theorem check_processes_drops_ended (m : SystemManager) :
  exists m' new,
    check_processes m = Done m'
    /\ children m' = children m /\ now m' = now m
    /\ (forall k, processes m' !! k = processes m !! k ≫= if_running m)
    /\ trace m' = trace m ++ new
    /\ (forall e, e ∈ new ->
          forall p, ~ signals p e /\ forall n, e <> Launch n p).
Proof.
  destruct (check_each_spec (map_to_list (processes m)) m)
    as (m' & new & H & Eh & En & _ & Ek & Et & Hnew).
  { apply NoDup_fst_map_to_list. }
  { intros k p. apply elem_of_map_to_list. }
  exists m', new. split_and!; try done.
  intros k. rewrite Ek. case_decide as Hin; [done|].
  destruct (processes m !! k) as [p|] eqn:Hk; [|done].
  exfalso. apply Hin. apply list_elem_of_fmap. exists (k, p).
  split; [done|]. by apply elem_of_map_to_list.
Qed.

Example check_processes_of_two :
  let m0 := start_process "Servidor Web" "python" (Some ["app.py"]) None
              (start_process "Grabador" "python" (Some ["recorder.py"]) None
                 (SystemManager_init 0)) in
  let m1 := child_exits m0 (0%nat, 1) in
  exists m', check_processes m1 = Done m'
             /\ processes m' !! "Grabador" = None
             /\ processes m' !! "Servidor Web" = Some 1%nat
             /\ length (children m') = 2%nat.
Proof. eexists. vm_compute. done. Qed.

(** X10. [start_process] has no guard: called with a name whose
    registered process still exists, it launches a second process and
    puts the new handle in its place without polling or signalling the
    old process; [stop_all_processes] afterwards empties the table
    without ever signalling the old process, which is left as it was. *)
Theorem start_process_orphans_previous (name command : string)
    (args : option (list string)) (ws : string -> option (Q * Z))
    (m : SystemManager) (p : nat) (P : Popen) :
  processes m !! name = Some p -> children m !! p = Some P ->
  (forall k, k <> name -> processes m !! k <> Some p) ->
  let m1 := start_process name command args None m in
  let n := length (children m) in
  processes m1 !! name = Some n /\ n <> p
  /\ children m1 !! p = Some P
  /\ trace m1 = trace m ++ [Print (Starting name); Launch name n;
                            Print (Started name n)]
  /\ exists m2 l,
       stop_all_processes ws m1 = Done m2
       /\ processes m2 = ∅ /\ children m2 !! p = Some P
       /\ trace m2 = trace m1 ++ l
       /\ forall e, e ∈ l -> ~ signals p e.
Proof.
  intros Hp HP Hothers m1 n.
  assert (p < n)%nat as Hlt by (by apply lookup_lt_Some in HP).
  assert (processes m1 = <[name := n]> (processes m)
          /\ children m1 = children m
                           ++ [{| argv := command :: default [] args;
                                  returncode := None; killed := false |}])
    as [Ep Eh] by done.
  assert (children m1 !! p = Some P) as HP1.
  { rewrite Eh. by apply lookup_app_l_Some. }
  split_and!; try done.
  - rewrite Ep. apply lookup_insert_eq.
  - lia.
  - subst m1. unfold start_process. simpl. by rewrite <- !(assoc_L (++)).
  - destruct (stop_all_processes_spec ws m1)
      as (m2 & l & H2 & Ep2 & _ & _ & Et2 & Hp2).
    destruct (Hp2 p) as [Ec2 Hs2].
    { intros k. rewrite Ep. destruct (decide (name = k)) as [<-|Hne].
      - rewrite lookup_insert_eq. intros [= ?]. lia.
      - rewrite lookup_insert_ne by done. by apply Hothers. }
    exists m2, l. split_and!; try done. by rewrite Ec2.
Qed.

Lemma start_process_orphans_previous_witness :
  let m := start_process "Grabador" "python" (Some ["recorder.py"]) None
             (SystemManager_init 0) in
  let P := {| argv := ["python"; "recorder.py"]; returncode := None;
              killed := false |} in
  let m1 := start_process "Grabador" "python" (Some ["recorder.py"]) None m in
  processes m !! "Grabador" = Some 0%nat /\ children m !! 0%nat = Some P
  /\ processes m1 !! "Grabador" = Some 1%nat
  /\ exists m2 l,
       stop_all_processes (fun _ => None) m1 = Done m2
       /\ processes m2 = ∅ /\ children m2 !! 0%nat = Some P
       /\ trace m2 = trace m1 ++ l
       /\ forall e, e ∈ l -> ~ signals 0 e.
Proof.
  intros m P m1.
  assert (processes m !! "Grabador" = Some 0%nat) as H1 by reflexivity.
  assert (children m !! 0%nat = Some P) as H2 by reflexivity.
  assert (forall k, k <> "Grabador" -> processes m !! k <> Some 0%nat) as H3.
  { intros k Hk. subst m. unfold start_process. simpl.
    rewrite lookup_insert_ne by done. by rewrite lookup_empty. }
  destruct (start_process_orphans_previous "Grabador" "python"
              (Some ["recorder.py"]) (fun _ => None) m 0 P H1 H2 H3)
    as (Ha & _ & _ & _ & Hb).
  split; [exact H1|]. split; [exact H2|]. split; [exact Ha|exact Hb].
Defined.

(** ** run *)

















End ManagerProofs.

(** * Properties of cleaner.py *)
Module CleanerProofs.
Import Cleaner.

Section Scan.
Context (py : Py) (self : RecordingCleaner) (d : disk).

Local Abbreviation candidate := (CleanerSpec.candidate py d).
Local Abbreviation old := (CleanerSpec.old py self).
Local Abbreviation calm := (CleanerSpec.calm py).

Lemma calm_info f :
  calm f -> exists r, _get_file_info py d f = inr r.
Proof.
  intros [_ Hc]. unfold _get_file_info. destruct (stat f) as [st|]; [|eauto].
  destruct (fromtimestamp py (st_mtime st)) as [e|t] eqn:Ht; [|eauto].
  rewrite (Hc st e eq_refl Ht). eauto.
Qed.

Lemma calm_old f :
  calm f -> exists r, _is_old_file py self f = inr r.
Proof.
  intros [_ Hc]. unfold _is_old_file. destruct (stat f) as [st|]; [|eauto].
  destruct (fromtimestamp py (st_mtime st)) as [e|t] eqn:Ht; [|eauto].
  rewrite (Hc st e eq_refl Ht). eauto.
Qed.

(** One pass of the loop body that does not raise adds the entry to the
    list its age selects, if it is a candidate, and to none otherwise. *)
Lemma scan_file_inr a f a' :
  scan_file py self d a f = inr a' ->
  files_to_delete a'
  = files_to_delete a ++ filter (fun fi => old fi.1 = true)
                                (option_list (candidate f))
  /\ files_to_keep a'
     = files_to_keep a ++ filter (fun fi => old fi.1 <> true)
                                 (option_list (candidate f)).
Proof.
  unfold scan_file, candidate, old.
  destruct (is_file f) as [e|[|]]; [done| |].
  2:{ intros [= <-]. by rewrite !app_nil_r. }
  destruct (_get_file_info py d f) as [e|[[i|] out]]; [done| |].
  2:{ intros [= <-]. simpl. by rewrite !app_nil_r. }
  destruct (_is_video_file py f).
  2:{ intros [= <-]. simpl. by rewrite !app_nil_r. }
  destruct (_is_old_file py self f) as [e|[[|] out']] eqn:Hold; [done| |];
    intros [= <-]; simpl.
  - rewrite filter_cons_True by (simpl; by rewrite Hold).
    rewrite filter_cons_False by (simpl; rewrite Hold; auto).
    by rewrite !filter_nil, app_nil_r.
  - rewrite filter_cons_False by (simpl; by rewrite Hold).
    rewrite filter_cons_True by (simpl; by rewrite Hold).
    by rewrite !filter_nil, app_nil_r.
Qed.

Lemma scan_files_inr fs a a' :
  scan_files py self d a fs = inr a' ->
  files_to_delete a'
  = files_to_delete a ++ filter (fun fi => old fi.1 = true) (omap candidate fs)
  /\ files_to_keep a'
     = files_to_keep a ++ filter (fun fi => old fi.1 <> true)
                                 (omap candidate fs).
Proof.
  revert a. induction fs as [|f fs IH]; intros a.
  { intros [= <-]. simpl. by rewrite !app_nil_r. }
  simpl. destruct (scan_file py self d a f) as [stop|a1] eqn:H1; [done|].
  intros H'. destruct (IH _ H') as [-> ->].
  destruct (scan_file_inr _ _ _ H1) as [-> ->].
  rewrite <- !(assoc_L (++)).
  destruct (candidate f) as [fi|]; simpl; [|done].
  by rewrite !filter_cons, !filter_nil; repeat case_decide.
Qed.

Lemma scan_files_calm fs a :
  Forall calm fs -> exists a', scan_files py self d a fs = inr a'.
Proof.
  revert a. induction fs as [|f fs IH]; intros a Hc; [by eexists|].
  apply Forall_cons in Hc as [Hf Hc]. simpl.
  assert (exists a1, scan_file py self d a f = inr a1) as [a1 ->].
  { unfold scan_file. destruct Hf as [[b Hb] Hts]. rewrite Hb.
    destruct b; [|eauto].
    destruct (calm_info f) as [[[i|] out] ->]; [by split; eauto| |eauto].
    destruct (_is_video_file py f); [|eauto].
    destruct (calm_old f) as [[[|] out'] ->]; [by split; eauto| |]; eauto. }
  by apply IH.
Qed.

Lemma scan_files_raises fs a f e :
  f ∈ fs -> is_file f = inl e ->
  exists stop, scan_files py self d a fs = inl stop.
Proof.
  revert a. induction fs as [|g fs IH]; intros a Hin He.
  { by apply not_elem_of_nil in Hin. }
  simpl. destruct (scan_file py self d a g) as [stop|a1] eqn:H1; [eauto|].
  apply elem_of_cons in Hin as [->|Hin]; [|by apply IH].
  unfold scan_file in H1. by rewrite He in H1.
Qed.

End Scan.

Import CleanerSpec.

Lemma old_true py self f :
  old py self f = true <->
  exists st t, stat f = Some st /\ fromtimestamp py (st_mtime st) = inr t
               /\ (t < cutoff_date self)%Q.
Proof.
  unfold old, _is_old_file. destruct (stat f) as [st|].
  2:{ split; [done|]. by intros (? & ? & ? & _). }
  destruct (fromtimestamp py (st_mtime st)) as [e|t] eqn:Ht.
  - destruct (os_or_value_error e); (split; [done|]);
      intros (st' & t' & [= <-] & Ht' & _); congruence.
  - destruct (Qlt_le_dec t (cutoff_date self)) as [Hlt|Hle].
    + split; [|done]. intros _. by exists st, t.
    + split; [done|]. intros (st' & t' & [= <-] & Ht' & Hlt).
      assert (t' = t) as -> by congruence.
      exfalso. by apply (Qlt_not_le _ _ Hlt).
Qed.

Lemma candidate_Some py d f fi :
  candidate py d f = Some fi ->
  fi.1 = f /\ is_file f = inr true /\ _is_video_file py f = true
  /\ exists st t, stat f = Some st
                  /\ fromtimestamp py (st_mtime st) = inr t
                  /\ modified fi.2 = t /\ info_name fi.2 = name f.
Proof.
  unfold candidate, _get_file_info.
  destruct (is_file f) as [e|[|]]; try done.
  destruct (stat f) as [st|]; [|done].
  destruct (fromtimestamp py (st_mtime st)) as [e|t] eqn:Ht.
  { by destruct (os_or_value_error e). }
  destruct (_is_video_file py f); [|done]. intros [= <-]. simpl.
  split_and!; try done. by exists st, t.
Qed.

(** The three ways out of [scan_recordings]. *)
Lemma scan_recordings_cases py self d :
  (scan_recordings py self d).1 = ([], [], no_stats)
  \/ exists a,
       present d = true /\ iterdir_error d = None
       /\ scan_files py self d
            {| files_to_delete := []; files_to_keep := [];
               total_size := 0; printed := [Scanning] |} (files d) = inr a
       /\ (scan_recordings py self d).1
          = (files_to_delete a, files_to_keep a,
             {| total_files := length (files_to_delete a)
                               + length (files_to_keep a);
                total_size_mb := round2 py (total_size a);
                counts := Some (length (files_to_delete a),
                                length (files_to_keep a)) |}).
Proof.
  unfold scan_recordings. destruct (present d); simpl; [|by left].
  destruct (iterdir_error d) as [e|]; [left; by destruct e|].
  destruct (scan_files _ _ _ _ _) as [[e out]|a] eqn:Hs.
  - left. by destruct e.
  - right. by exists a.
Qed.



Lemma scan_file_size py self d a f a' :
  scan_file py self d a f = inr a' ->
  total_size a' = match measured py d f with
                  | Some i => (total_size a + size_mb i)%Q
                  | None => total_size a
                  end.
Proof.
  unfold scan_file, measured.
  destruct (is_file f) as [e|[|]]; [done| |by intros [= <-]].
  destruct (_get_file_info py d f) as [e|[[i|] out]];
    [done| |by intros [= <-]].
  destruct (_is_video_file py f); [|by intros [= <-]].
  destruct (_is_old_file py self f) as [e|[[|] out']]; [done| |];
    by intros [= <-].
Qed.

Lemma scan_files_size py self d fs a a' :
  scan_files py self d a fs = inr a' ->
  total_size a'
  = foldl (fun t i => (t + size_mb i)%Q) (total_size a)
          (omap (measured py d) fs).
Proof.
  revert a. induction fs as [|f fs IH]; intros a; [by intros [= <-]|].
  simpl. destruct (scan_file py self d a f) as [stop|a1] eqn:H1; [done|].
  intros H'. rewrite (IH _ H'), (scan_file_size _ _ _ _ _ _ H1).
  by destruct (measured py d f).
Qed.

Lemma scan_files_raising py self d fs a f :
  f ∈ fs -> raising py f ->
  exists stop, scan_files py self d a fs = inl stop.
Proof.
  revert a. induction fs as [|g fs IH]; intros a Hin Hr.
  { by apply not_elem_of_nil in Hin. }
  simpl. destruct (scan_file py self d a g) as [stop|a1] eqn:H1; [eauto|].
  apply elem_of_cons in Hin as [->|Hin]; [|by apply IH].
  exfalso. unfold scan_file, _get_file_info in H1.
  destruct Hr as [[e He]|(Hreg & st & e & Hst & Ht & Hne)].
  - by rewrite He in H1.
  - by rewrite Hreg, Hst, Ht, Hne in H1.
Qed.

Lemma filter_split_length {A} (P : A -> Prop) `{!forall x, Decision (P x)}
    (l : list A) :
  (length (filter P l) + length (filter (fun x => ~ P x) l))%nat = length l.
Proof.
  induction l as [|x l IH]; [done|].
  rewrite !filter_cons. repeat case_decide; simpl; try done; lia.
Qed.

Lemma scan_recordings_calm py self d :
  present d = true -> iterdir_error d = None -> Forall (calm py) (files d) ->
  exists a,
    scan_files py self d
      {| files_to_delete := []; files_to_keep := [];
         total_size := 0; printed := [Scanning] |} (files d) = inr a
    /\ (scan_recordings py self d).1
       = (files_to_delete a, files_to_keep a,
          {| total_files := length (files_to_delete a)
                            + length (files_to_keep a);
             total_size_mb := round2 py (total_size a);
             counts := Some (length (files_to_delete a),
                             length (files_to_keep a)) |}).
Proof.
  intros Hp Hi Hc. unfold scan_recordings. rewrite Hp, Hi. simpl.
  destruct (scan_files_calm py self d (files d)
              {| files_to_delete := []; files_to_keep := [];
                 total_size := 0; printed := [Scanning] |} Hc) as [a Hs].
  rewrite Hs. by exists a.
Qed.

(** X13. When the directory exists and can be listed, [is_file()] answers
    for every entry and every date error is an [OSError] or a
    [ValueError], the scan does not give up: the deletion list is exactly
    the regular, readable video files with a date before the cutoff, in
    directory order, the keep list exactly the other regular readable
    video files; [total_files] counts the video files only, while
    [total_size_mb] rounds the sizes of all readable regular files,
    videos or not. *)
Theorem scan_recordings_partitions (py : Py) (self : RecordingCleaner)
    (d : disk) :
  present d = true -> iterdir_error d = None -> Forall (calm py) (files d) ->
  let videos := omap (candidate py d) (files d) in
  let doomed := filter (fun fi => old py self fi.1 = true) videos in
  let kept := filter (fun fi => old py self fi.1 <> true) videos in
  (scan_recordings py self d).1
  = (doomed, kept,
     {| total_files := length videos;
        total_size_mb :=
          round2 py (foldl (fun t i => (t + size_mb i)%Q) 0%Q
                           (omap (measured py d) (files d)));
        counts := Some (length doomed, length kept) |}).
Proof.
  intros Hp Hi Hc.
  destruct (scan_recordings_calm py self d Hp Hi Hc) as (a & Hs & ->).
  destruct (scan_files_inr py self d _ _ _ Hs) as [-> ->].
  rewrite (scan_files_size _ _ _ _ _ _ Hs). simpl.
  by rewrite filter_split_length.
Qed.

Lemma scan_recordings_partitions_witness :
  let py := CleanerScenario.ascii_py in
  let d := CleanerScenario.recordings in
  let self := CleanerScenario.weekly d in
  (scan_recordings py self d).1.1.1.*1
  = [CleanerScenario.old_mp4; CleanerScenario.locked_mkv;
     CleanerScenario.gone_avi]
  /\ (scan_recordings py self d).1.1.2.*1 = [CleanerScenario.new_mp4]
  /\ total_files (scan_recordings py self d).1.2 = 4%nat.
Proof.
  intros py d self.
  assert (Forall (calm py) (files d)) as Hc.
  { repeat (apply Forall_cons; split);
      [split; [by eexists|intros ? ? _; discriminate]..|constructor]. }
  rewrite (scan_recordings_partitions py self d eq_refl eq_refl Hc).
  by vm_compute.
Defined.

(** X14. [scan_recordings] gives up as a whole: when the directory is
    missing, when listing it raises, or when at one entry [is_file()]
    raises or the date conversion raises something other than [OSError]
    and [ValueError], it returns two empty lists and zero statistics
    whatever it had classified before, and [run] then leaves every file
    in place, dry run or not. *)
Theorem scan_recordings_gives_up (py : Py) (self : RecordingCleaner)
    (d : disk) :
  present d = false \/ (exists e, iterdir_error d = Some e)
  \/ (exists f, f ∈ files d /\ raising py f) ->
  (scan_recordings py self d).1 = ([], [], no_stats)
  /\ forall dry_run, (run py self dry_run d).1 = files d.
Proof.
  intros H.
  assert ((scan_recordings py self d).1 = ([], [], no_stats)) as Hs.
  { unfold scan_recordings. destruct (present d); [|done]. simpl.
    destruct H as [?|[[e ->]|(f & Hin & Hr)]]; [done|by destruct e|].
    destruct (iterdir_error d) as [e|]; [by destruct e|].
    destruct (scan_files_raising py self d (files d)
                {| files_to_delete := []; files_to_keep := [];
                   total_size := 0; printed := [Scanning] |} f Hin Hr)
      as [[e out] ->].
    by destruct e. }
  split; [done|]. intros dry_run. unfold run.
  destruct (scan_recordings py self d) as [[[doomed kept] st] out].
  simpl in Hs. by injection Hs as -> _ _.
Qed.

Lemma scan_recordings_gives_up_witness :
  let py := CleanerScenario.ascii_py in
  let d := CleanerScenario.blocked in
  (scan_recordings py (CleanerScenario.weekly d) d).1 = ([], [], no_stats)
  /\ forall dry_run,
       (run py (CleanerScenario.weekly d) dry_run d).1 = files d.
Proof.
  intros py d. apply scan_recordings_gives_up.
  right; right. exists CleanerScenario.unreadable. split.
  - apply list_elem_of_further, list_elem_of_here.
  - left. by eexists.
Defined.

Lemma unlink_split_length d (l : list (entry * file_info)) :
  (length (filter (fun fi => unlinks d fi = true) l)
   + length (filter (fun fi => fails d fi = true) l)
   + length (filter (fun fi => vanished d fi = true) l))%nat = length l.
Proof.
  induction l as [|fi l IH]; [done|].
  rewrite !filter_cons. unfold unlinks, fails, vanished in *.
  destruct (unlink_error d (name fi.1)) as [[]|];
    repeat case_decide; simpl; try done; lia.
Qed.

Lemma delete_loop d (doomed : list (entry * file_info)) s :
  let s' := foldl (delete_file d) s doomed in
  deleted s'
  = (deleted s + length (filter (fun fi => unlinks d fi = true) doomed))%nat
  /\ errors s'
     = (errors s + length (filter (fun fi => fails d fi = true) doomed))%nat
  /\ forall f, f ∈ remaining s' <->
               f ∈ remaining s
               /\ forall fi, fi ∈ doomed -> gone d fi = true ->
                             name f <> name fi.1.
Proof.
  revert s. induction doomed as [|fi l IH]; intros s; simpl.
  { rewrite !Nat.add_0_r. split_and!; try done. intros f. split; [|by intros []].
    intros Hf. split; [done|]. intros fi Hin. by apply not_elem_of_nil in Hin. }
  destruct (IH (delete_file d s fi)) as (-> & -> & Hrem).
  rewrite !filter_cons.
  assert (forall f, (forall fj, fj ∈ fi :: l -> gone d fj = true ->
                                name f <> name fj.1)
                    <-> (gone d fi = true -> name f <> name fi.1)
                        /\ forall fj, fj ∈ l -> gone d fj = true ->
                                      name f <> name fj.1) as Hall.
  { intros f. split.
    - intros H. split; [apply H; apply list_elem_of_here|].
      intros fj Hj. apply H. by apply list_elem_of_further.
    - intros [H1 H2] fj [->|Hj]%elem_of_cons; auto. }
  unfold delete_file, gone, unlinks, vanished, fails in *.
  destruct (unlink_error d (name fi.1)) as [[]|] eqn:Hu;
    repeat case_decide; try done; simpl;
    (split_and!; [lia|lia|]); intros f; rewrite Hrem, Hall; simpl;
    try rewrite list_elem_of_filter; tauto.
Qed.

Lemma delete_old_files_spec py d fs doomed :
  let s := delete_old_files py d fs doomed in
  deleted s = length (filter (fun fi => unlinks d fi = true) doomed)
  /\ errors s = length (filter (fun fi => fails d fi = true) doomed)
  /\ forall f, f ∈ remaining s <->
               f ∈ fs /\ forall fi, fi ∈ doomed -> gone d fi = true ->
                                    name f <> name fi.1.
Proof.
  unfold delete_old_files. destruct doomed as [|fi l].
  - simpl. split_and!; try done. intros f. split; [|by intros []].
    intros Hf. split; [done|]. intros fi Hin.
    by apply not_elem_of_nil in Hin.
  - set (s0 := {| deleted := 0; deleted_size := 0; errors := 0;
                  remaining := fs;
                  said := [DeletingMany (length (fi :: l))] |}).
    destruct (delete_loop d (fi :: l) s0) as (H1 & H2 & H3).
    cbv zeta. cbn [deleted errors remaining].
    split_and!; [exact H1|exact H2|exact H3].
Qed.

(** X15. [delete_old_files] counts each listed file once: as deleted when
    [unlink()] succeeds, as an error when it raises anything but
    [FileNotFoundError], and in neither counter when the file is already
    gone; the three cases add up to the length of the list.  An entry of
    the listing is still in the directory afterwards exactly when no
    [unlink()] of the list carrying its name succeeded or found the file
    gone ([FileNotFoundError]). *)
Theorem delete_old_files_accounts (py : Py) (d : disk) (fs : list entry)
    (doomed : list (entry * file_info)) :
  let s := delete_old_files py d fs doomed in
  deleted s = length (filter (fun fi => unlinks d fi = true) doomed)
  /\ errors s = length (filter (fun fi => fails d fi = true) doomed)
  /\ (deleted s + errors s
      + length (filter (fun fi => vanished d fi = true) doomed))%nat
     = length doomed
  /\ forall f, f ∈ remaining s <->
               f ∈ fs /\ forall fi, fi ∈ doomed -> gone d fi = true ->
                                    name f <> name fi.1.
Proof.
  destruct (delete_old_files_spec py d fs doomed) as (H1 & H2 & H3).
  cbv zeta. split_and!; try done. rewrite H1, H2. apply unlink_split_length.
Qed.

Lemma delete_old_files_accounts_witness :
  let d := CleanerScenario.recordings in
  let py := CleanerScenario.ascii_py in
  let s := delete_old_files py d (files d)
             (scan_recordings py (CleanerScenario.weekly d) d).1.1.1 in
  deleted s = 1%nat /\ errors s = 1%nat
  /\ name <$> remaining s
     = ["cam1_new.MP4"; "archive"; "notes.txt"; "cam2_old.mkv"].
Proof.
  intros d py s.
  destruct (delete_old_files_accounts py d (files d)
              (scan_recordings py (CleanerScenario.weekly d) d).1.1.1)
    as (H1 & H2 & _).
  split; [exact H1|]. split; [exact H2|]. by vm_compute.
Defined.

Lemma doomed_spec py self d fi :
  fi ∈ (scan_recordings py self d).1.1.1 ->
  fi.1 ∈ files d /\ candidate py d fi.1 = Some fi /\ old py self fi.1 = true.
Proof.
  destruct (scan_recordings_cases py self d) as [->|(a & _ & _ & Hs & ->)].
  { intros Hin. by apply not_elem_of_nil in Hin. }
  destruct (scan_files_inr py self d _ _ _ Hs) as [-> _]. simpl.
  intros [Hold (g & Hg & Hfi)%list_elem_of_omap]%list_elem_of_filter.
  destruct (candidate_Some _ _ _ _ Hfi) as (<- & _). done.
Qed.

Lemma NoDup_fmap_eq {A B} (g : A -> B) (l : list A) x y :
  NoDup (g <$> l) -> x ∈ l -> y ∈ l -> g x = g y -> x = y.
Proof.
  induction l as [|z l IH]; intros Hnd Hx Hy Hg.
  { by apply not_elem_of_nil in Hx. }
  rewrite fmap_cons in Hnd. apply NoDup_cons in Hnd as [Hz Hnd].
  apply elem_of_cons in Hx as [->|Hx]; apply elem_of_cons in Hy as [->|Hy];
    auto.
  - exfalso. apply Hz. rewrite Hg. apply list_elem_of_fmap. eauto.
  - exfalso. apply Hz. rewrite <- Hg. apply list_elem_of_fmap. eauto.
Qed.

(** X16. With distinct names in the directory, an entry of the listing
    that is missing after [run] was on the deletion list of a real run
    (not a dry run): it is a regular file with a video extension and a
    modification date strictly before the cutoff, and its [unlink()]
    either succeeded or raised [FileNotFoundError] because the file had
    disappeared by itself.  [run] removes nothing else, whatever the scan
    met. *)
Theorem run_only_removes_old_videos (py : Py) (self : RecordingCleaner)
    (d : disk) (dry_run : bool) (f : entry) :
  NoDup (name <$> files d) ->
  f ∈ files d -> f ∉ (run py self dry_run d).1 ->
  dry_run = false
  /\ is_file f = inr true /\ _is_video_file py f = true
  /\ (exists st t, stat f = Some st
                   /\ fromtimestamp py (st_mtime st) = inr t
                   /\ (t < cutoff_date self)%Q)
  /\ (unlink_error d (name f) = None
      \/ unlink_error d (name f) = Some FileNotFoundError).
Proof.
  intros Hnd Hin Hout. unfold run in Hout.
  pose proof (doomed_spec py self d) as Hd.
  destruct (scan_recordings py self d) as [[[doomed kept] st] out].
  simpl in Hd. destruct doomed as [|fi0 l]; [done|].
  destruct dry_run; [done|]. simpl in Hout.
  destruct (delete_old_files_spec py d (files d) (fi0 :: l)) as (_ & _ & Hrem).
  cbv zeta in Hrem. rewrite Hrem in Hout.
  assert (Exists (fun fi => gone d fi = true /\ name f = name fi.1)
                 (fi0 :: l)) as (fi & Hfi & Hu & Hn)%Exists_exists.
  { destruct (decide (Exists (fun fi => gone d fi = true
                                        /\ name f = name fi.1) (fi0 :: l)))
      as [|Hno]; [done|].
    exfalso. apply Hout. split; [done|]. intros fi Hfi Hu Hn.
    apply Hno, Exists_exists. eauto. }
  destruct (Hd fi Hfi) as (Hfiles & Hcand & Hold).
  assert (fi.1 = f) as Heq.
  { by apply (NoDup_fmap_eq name (files d)). }
  rewrite Heq in *.
  destruct (candidate_Some _ _ _ _ Hcand) as (_ & Hreg & Hvid & _).
  split_and!; try done.
  - by apply old_true.
  - unfold gone, unlinks, vanished in Hu. rewrite Heq in Hu.
    destruct (unlink_error d (name f)) as [[]|]; auto; done.
Qed.

Lemma run_only_removes_old_videos_witness :
  let d := CleanerScenario.recordings in
  let f := CleanerScenario.old_mp4 in
  (f ∉ (run CleanerScenario.ascii_py (CleanerScenario.weekly d) false d).1)
  /\ _is_video_file CleanerScenario.ascii_py f = true
  /\ (unlink_error d (name f) = None
      \/ unlink_error d (name f) = Some FileNotFoundError).
Proof.
  intros d f.
  assert (f ∉ (run CleanerScenario.ascii_py (CleanerScenario.weekly d)
                   false d).1) as Hout.
  { vm_compute. intros H. repeat (apply elem_of_cons in H as [H|H]; [done|]).
    by apply not_elem_of_nil in H. }
  split; [exact Hout|].
  assert (NoDup (name <$> files d)) as Hnd.
  { vm_compute. repeat (apply NoDup_cons; split;
      [intros H; repeat (apply elem_of_cons in H as [H|H]; [done|]);
       by apply not_elem_of_nil in H|]). constructor. }
  assert (f ∈ files d) as Hin by apply list_elem_of_here.
  destruct (run_only_removes_old_videos _ _ d false f Hnd Hin Hout)
    as (_ & _ & Hvid & _ & Hu).
  by split.
Defined.

Example run_drops_vanished_file :
  let d := CleanerScenario.recordings in
  let left := (run CleanerScenario.ascii_py (CleanerScenario.weekly d)
                   false d).1 in
  unlink_error d (name CleanerScenario.gone_avi) = Some FileNotFoundError
  /\ name <$> left = ["cam1_new.MP4"; "archive"; "notes.txt"; "cam2_old.mkv"].
Proof. by vm_compute. Qed.

(** X17. When the scan does not give up (the directory exists and can be
    listed, [is_file()] answers for every entry, every date error is an
    [OSError] or a [ValueError]), a real run removes every regular video
    file whose date is strictly before the cutoff and whose [unlink()]
    succeeds. *)
Theorem run_removes_every_old_video (py : Py) (self : RecordingCleaner)
    (d : disk) (f : entry) (st : stat_result) (t : Q) :
  present d = true -> iterdir_error d = None -> Forall (calm py) (files d) ->
  f ∈ files d ->
  is_file f = inr true -> _is_video_file py f = true ->
  stat f = Some st -> fromtimestamp py (st_mtime st) = inr t ->
  (t < cutoff_date self)%Q ->
  unlink_error d (name f) = None ->
  f ∉ (run py self false d).1.
Proof.
  intros Hp Hi Hc Hin Hreg Hvid Hst Ht Hlt Hu.
  destruct (scan_recordings_calm py self d Hp Hi Hc) as (a & Hs & Hscan).
  destruct (scan_files_inr py self d _ _ _ Hs) as [Hdel _].
  simpl in Hdel.
  assert (exists i, candidate py d f = Some (f, i)) as [i Hcand].
  { unfold candidate, _get_file_info. rewrite Hreg, Hst, Ht, Hvid. eauto. }
  assert (old py self f = true) as Hold.
  { apply old_true. by exists st, t. }
  assert ((f, i) ∈ files_to_delete a) as Hfi.
  { rewrite Hdel. apply list_elem_of_filter. split; [done|].
    apply list_elem_of_omap. eauto. }
  unfold run. destruct (scan_recordings py self d) as [[[doomed kept] sts] out].
  simpl in Hscan. injection Hscan as -> -> _.
  destruct (files_to_delete a) as [|fi0 l] eqn:Hl.
  { by apply not_elem_of_nil in Hfi. }
  simpl.
  destruct (delete_old_files_spec py d (files d) (fi0 :: l)) as (_ & _ & Hrem).
  cbv zeta in Hrem. rewrite Hrem. intros [_ Hall].
  apply (Hall (f, i) Hfi); [|done]. unfold gone, unlinks. simpl.
  by rewrite Hu.
Qed.

Lemma run_removes_every_old_video_witness :
  let d := CleanerScenario.recordings in
  CleanerScenario.old_mp4
    ∉ (run CleanerScenario.ascii_py (CleanerScenario.weekly d) false d).1.
Proof.
  intros d.
  assert (Forall (calm CleanerScenario.ascii_py) (files d)) as Hc.
  { repeat (apply Forall_cons; split);
      [split; [by eexists|intros ? ? _; discriminate]..|constructor]. }
  apply (run_removes_every_old_video CleanerScenario.ascii_py
           (CleanerScenario.weekly d) d CleanerScenario.old_mp4
           {| st_size := 2097152; st_mtime := 1 * CleanerScenario.day |}
           (1 * CleanerScenario.day)%Q eq_refl eq_refl Hc);
    try reflexivity.
  apply list_elem_of_here.
Defined.

End CleanerProofs.

(** * Further properties of app.py *)
Module AppExtra.
Import App AppSpec CaptureSpec Scenario AppProofs.

Lemma thread_step_rank e w p :
  running (self w) = false -> thread (self w) = Some p ->
  exists p',
    thread (self (thread_step e w)) = Some p'
    /\ (rank p' <= pred (rank p))%nat
    /\ running (self (thread_step e w)) = false
    /\ (length (handles (thread_step e w)) + handle_budget p'
        <= length (handles w) + handle_budget p)%nat
    /\ (length (frames (thread_step e w)) + frame_budget p'
        <= length (frames w) + frame_budget p)%nat.
Proof.
  destruct w as [[id nm url c lf lft r th] fr hs st jw jt sr sx].
  simpl. intros -> ->. unfold thread_step, release_handle, handle_open.
  destruct p; simpl; repeat case_match; simpl;
    eexists; (split; [reflexivity|]);
    rewrite ?length_app, ?length_alter; simpl;
    unfold handle_budget, frame_budget; simpl; split_and!; try done; lia.
Qed.

Lemma stop_step_keeps d w :
  thread (self (stop_step d w)) = thread (self w)
  /\ (running (self w) = false -> running (self (stop_step d w)) = false)
  /\ length (handles (stop_step d w)) = length (handles w)
  /\ frames (stop_step d w) = frames w
  /\ last_frame (self (stop_step d w)) = last_frame (self w)
  /\ last_frame_time (self (stop_step d w)) = last_frame_time (self w).
Proof.
  destruct w as [[id nm url c lf lft r th] fr hs st jw jt sr sx].
  unfold stop_step, release_handle. simpl.
  destruct st; simpl; repeat case_match; simpl;
    rewrite ?length_alter; done.
Qed.

Lemma run_rank sched : forall w p,
  running (self w) = false -> thread (self w) = Some p ->
  exists p',
    thread (self (run sched w)) = Some p'
    /\ (rank p' <= rank p - capture_steps sched)%nat
    /\ running (self (run sched w)) = false
    /\ (length (handles (run sched w)) + handle_budget p'
        <= length (handles w) + handle_budget p)%nat
    /\ (length (frames (run sched w)) + frame_budget p'
        <= length (frames w) + frame_budget p)%nat.
Proof.
  induction sched as [|a sched IH]; intros w p Hr Hp.
  { exists p. unfold capture_steps. simpl. split_and!; try done; lia. }
  change (run (a :: sched) w) with (run sched (step w a)).
  destruct a as [e|d].
  - destruct (thread_step_rank e w p Hr Hp) as (p1 & Hp1 & Hrk & Hr1 & Hh & Hf).
    destruct (IH (step w (Capture e)) p1 Hr1 Hp1)
      as (p' & Hp' & Hrk' & Hr' & Hh' & Hf').
    exists p'. unfold capture_steps in *. simpl in *.
    split_and!; try done; lia.
  - destruct (stop_step_keeps d w) as (Ht & Hrun & Hh & Hf & _).
    destruct (IH (step w (Stop d)) p) as (p' & Hp' & Hrk' & Hr' & Hh' & Hf').
    { by apply Hrun. }
    { simpl. by rewrite Ht. }
    exists p'. unfold capture_steps in *. simpl in *.
    rewrite Hh, Hf in *. split_and!; try done.
Qed.

(** X18. Once [self.running] is False (it is only set again by
    [start()]), the capture thread ends within nine of its own steps,
    however the steps of [stop()] fall between them and whatever the
    camera does: it leaves the loop at the next test of the flag, and
    until then it constructs at most one more capture handle and stores
    at most one more frame. *)
Theorem capture_thread_winds_down (w : worker) (sched : list action) :
  running (self w) = false -> thread (self w) <> None ->
  (9 <= capture_steps sched)%nat ->
  let w' := run sched w in
  thread (self w') = Some Finished
  /\ running (self w') = false
  /\ (length (handles w') <= S (length (handles w)))%nat
  /\ (length (frames w') <= S (length (frames w)))%nat.
Proof.
  intros Hr Hp Hn. destruct (thread (self w)) as [p|] eqn:Hth; [|done].
  destruct (run_rank sched w p Hr Hth) as (p' & Hp' & Hrk & Hr' & Hh & Hf).
  assert (rank p <= 9)%nat by (destruct p; simpl; lia).
  assert (p' = Finished) as -> by (destruct p'; simpl in Hrk; try done; lia).
  cbv zeta. split_and!; try done.
  - unfold handle_budget in Hh. repeat case_match; simpl in *; lia.
  - unfold frame_budget in Hf. repeat case_match; simpl in *; lia.
Qed.

Lemma capture_thread_winds_down_witness :
  let w := run [Capture good; Capture good; Stop 0] (spawn cam1) in
  let w' := run (repeat (Capture good) 9) w in
  thread (self w') = Some Finished
  /\ (length (handles w') <= S (length (handles w)))%nat.
Proof.
  intros w w'.
  destruct (capture_thread_winds_down w (repeat (Capture good) 9))
    as (H1 & _ & H2 & _); [reflexivity|discriminate|vm_compute; lia|].
  by split.
Defined.

Lemma quiet_step w a :
  quiet a ->
  frames (step w a) = frames w
  /\ last_frame (self (step w a)) = last_frame (self w)
  /\ last_frame_time (self (step w a)) = last_frame_time (self w).
Proof.
  destruct a as [e|d]; simpl.
  2:{ intros _. destruct (stop_step_keeps d w) as (_ & _ & _ & ? & ? & ?).
      done. }
  destruct w as [[id nm url c lf lft r th] fr hs st jw jt sr sx].
  unfold thread_step, release_handle, handle_open. simpl.
  destruct th as [[]|]; simpl; repeat case_match; simpl; done.
Qed.

(** X19. Only a read that returns a frame touches the cache: over any
    interleaving of capture steps without a successful read (failed or
    raising reads, reconnects, sleeps) and steps of [stop()], the frame
    heap, [last_frame] and [last_frame_time] stay as they were, so
    [get_frame] keeps answering with a copy of the last frame until it is
    10 units old, also after [stop()] has returned. *)
Theorem cached_frame_survives (w : worker) (sched : list action) (now : Q) :
  Forall quiet sched ->
  let w' := run sched w in
  frames w' = frames w
  /\ last_frame (self w') = last_frame (self w)
  /\ last_frame_time (self w') = last_frame_time (self w)
  /\ get_frame now (frames w', self w') = get_frame now (frames w, self w).
Proof.
  intros Hq.
  assert (frames (run sched w) = frames w
          /\ last_frame (self (run sched w)) = last_frame (self w)
          /\ last_frame_time (self (run sched w)) = last_frame_time (self w))
    as (H1 & H2 & H3).
  { revert w. induction Hq as [|a sched Ha _ IH]; intros w; [done|].
    change (run (a :: sched) w) with (run sched (step w a)).
    destruct (IH (step w a)) as (-> & -> & ->). by apply quiet_step. }
  cbv zeta. split_and!; try done.
  unfold get_frame. by rewrite H1, H2, H3.
Qed.

Lemma cached_frame_survives_witness :
  let w := run (repeat (Capture good) 5) (spawn cam1) in
  let w' := run [Capture flaky; Stop 0; Stop 0; Stop 0; Stop 0; Stop 0] w in
  stops_returned w' = 1%nat
  /\ get_frame 55 (frames w', self w') = (Some 1%nat, [[1; 2; 3]; [1; 2; 3]]).
Proof.
  intros w w'. split; [reflexivity|].
  assert (Forall quiet [Capture flaky; Stop 0; Stop 0; Stop 0; Stop 0;
                        Stop 0]) as Hq.
  { repeat constructor. }
  destruct (cached_frame_survives w _ 55 Hq) as (_ & _ & _ & H).
  etrans; [exact H|reflexivity].
Defined.

Lemma thread_step_keeps_going e w :
  running (self w) = true ->
  thread (self w) <> None -> thread (self w) <> Some Finished ->
  running (self (thread_step e w)) = true
  /\ thread (self (thread_step e w)) <> None
  /\ thread (self (thread_step e w)) <> Some Finished.
Proof.
  destruct w as [[id nm url c lf lft r th] fr hs st jw jt sr sx].
  simpl. intros -> Hn Hf. unfold thread_step, release_handle, handle_open.
  destruct th as [[]|]; simpl; try done; repeat case_match; simpl; done.
Qed.

(** X20. Left to itself (no [stop()]), the capture thread never leaves its
    loop and never leaks or double-releases a handle across reconnects:
    after any number of its steps from [start()], whatever the camera
    does, every handle it has replaced has been released exactly once and
    the handle [self.cap] names at most once. *)
Theorem capture_alone_releases_replaced (camera_config : Camera)
    (es : list env) :
  let w := run (Capture <$> es) (spawn camera_config) in
  running (self w) = true
  /\ thread (self w) <> None /\ thread (self w) <> Some Finished
  /\ forall i v, handles w !! i = Some v ->
       (cap (self w) <> Some i -> releases v = 1%nat)
       /\ (releases v <= 1)%nat.
Proof.
  assert (forall w,
            handles_ok w -> running (self w) = true ->
            thread (self w) <> None -> thread (self w) <> Some Finished ->
            let w' := run (Capture <$> es) w in
            handles_ok w' /\ running (self w') = true
            /\ thread (self w') <> None /\ thread (self w') <> Some Finished)
    as Hinv.
  { induction es as [|e es IH]; intros w Hok Hr Hn Hf; [done|].
    rewrite fmap_cons.
    change (run (Capture e :: (Capture <$> es)) w)
      with (run (Capture <$> es) (thread_step e w)).
    destruct (thread_step_keeps_going e w Hr Hn Hf) as (? & ? & ?).
    apply IH; try done. by apply thread_step_handles_ok. }
  destruct (Hinv (spawn camera_config)) as (Hok & Hr & Hn & Hf);
    [apply spawn_handles_ok|done..|].
  cbv zeta. split_and!; try done.
  intros i v Hi. destruct Hok as [Hrel _]. specialize (Hrel i v Hi).
  case_decide; [|by split; [|lia]].
  split; [done|]. destruct (pending _); lia.
Qed.

Example reconnect_after_failed_read :
  let w := run (Capture <$> repeat flaky 12) (spawn cam1) in
  handles w = [{| isOpened := false; releases := 1 |};
               {| isOpened := true; releases := 0 |}]
  /\ cap (self w) = Some 1%nat.
Proof. by vm_compute. Qed.

Lemma ok_none_once b hs :
  ok None b hs -> Forall (fun c => releases c = 1%nat) hs.
Proof.
  intros [H _]. apply Forall_forall. intros v Hv.
  apply list_elem_of_lookup in Hv as [i Hi]. rewrite (H i v Hi).
  by case_decide.
Qed.

Lemma stop_parked d w p :
  handles_ok w -> at_stop w = StopIdle ->
  thread (self w) = Some p -> parked p = true ->
  running (self (stop d w)) = false /\ cap (self (stop d w)) = None
  /\ thread (self (stop d w)) = Some p
  /\ released_exactly_once (stop d w)
  /\ stops_returned (stop d w) = S (stops_returned w)
  /\ stops_raised (stop d w) = stops_raised w
  /\ Forall (fun t => (t <= 2)%Q) (drop (length (join_waits w))
                                        (join_waits (stop d w))).
Proof.
  destruct w as [[id nm url c lf lft r th] fr hs st jw jt sr sx].
  unfold handles_ok, released_exactly_once. simpl. intros Hok -> -> Hp.
  assert (pending (Some p) = false) as Hpend by (by destruct p).
  rewrite Hpend in Hok.
  assert (forall t, (t <= 2)%Q -> Forall (fun t => (t <= 2)%Q)
                                    (drop (length jw) (jw ++ [t]))) as Hw.
  { intros t Ht. rewrite drop_app_length. by apply Forall_singleton. }
  destruct p; try done; destruct c as [c|];
    cbv [stop stop_step release_handle at_stop_pc with_self with_handles
         set_running set_cap joined stop_returns stop_raises
         at_stop self thread cap handles running stops_returned stops_raised
         join_waits join_timeouts frames option_list];
    cbn [app]; split_and!; try done;
    first [ by apply (ok_none_once false), ok_unreleased
          | by apply (ok_none_once false)
          | simpl; apply Hw; try apply Qle_refl; apply join_blocked_le ].
Qed.

Lemma parked_step e w p :
  running (self w) = false -> cap (self w) = None ->
  thread (self w) = Some p -> parked p = true ->
  exists p',
    thread (self (thread_step e w)) = Some p' /\ parked p' = true
    /\ running (self (thread_step e w)) = false
    /\ cap (self (thread_step e w)) = None
    /\ handles (thread_step e w) = handles w
    /\ stops_returned (thread_step e w) = stops_returned w
    /\ stops_raised (thread_step e w) = stops_raised w.
Proof.
  destruct w as [[id nm url c lf lft r th] fr hs st jw jt sr sx].
  simpl. intros -> -> -> Hp. unfold thread_step.
  destruct p; try done; simpl; eexists; split_and!; done.
Qed.

(** X24. When [stop()] runs as a whole while the capture thread stays
    where it is, blocked in [cap.read()] or in a sleep or about to test
    the flag, [stop()] returns without raising after a join of at most 2
    units, also when the join times out; and from then on, whatever the
    camera does and however long the thread still runs, [self.cap] is
    None, no capture handle is constructed, and every handle the worker
    constructed has been released exactly once. *)
Theorem stop_releases_once_when_parked (w : worker) (p : pc) (d : Q)
    (es : list env) :
  handles_ok w -> at_stop w = StopIdle ->
  thread (self w) = Some p -> parked p = true ->
  let w1 := stop d w in
  let w2 := run (Capture <$> es) w1 in
  stops_returned w1 = S (stops_returned w)
  /\ stops_raised w1 = stops_raised w
  /\ Forall (fun t => (t <= 2)%Q)
            (drop (length (join_waits w)) (join_waits w1))
  /\ stops_returned w2 = stops_returned w1
  /\ stops_raised w2 = stops_raised w1
  /\ cap (self w2) = None
  /\ handles w2 = handles w1
  /\ released_exactly_once w2.
Proof.
  intros Hok Hidle Hth Hp.
  destruct (stop_parked d w p Hok Hidle Hth Hp)
    as (Hr & Hc & Ht & Honce & Hret & Hraise & Hwait).
  cbv zeta. split; [done|]. split; [done|]. split; [done|].
  clear Hret Hraise Hwait Hok Hidle Hth.
  revert Hr Hc Ht Honce. generalize (stop d w). clear w.
  revert p Hp. induction es as [|e es IH]; intros p Hp w1 Hr Hc Ht Honce.
  { by split_and!. }
  rewrite fmap_cons.
  change (run (Capture e :: (Capture <$> es)) w1)
    with (run (Capture <$> es) (thread_step e w1)).
  destruct (parked_step e w1 p Hr Hc Ht Hp)
    as (p' & Ht' & Hp' & Hr' & Hc' & Eh & Eret & Eraise).
  destruct (IH p' Hp' (thread_step e w1)) as (E1 & E2 & E3 & E4 & Hall);
    [done..|unfold released_exactly_once; by rewrite Eh|].
  split_and!; try done; congruence.
Qed.

Lemma stop_releases_once_when_parked_witness :
  let w := run reading (spawn cam1) in
  let w1 := stop 0 w in
  let w2 := run (Capture <$> repeat flaky 5) w1 in
  thread (self w) = Some Read
  /\ join_timeouts w1 = 1%nat
  /\ stops_returned w1 = 1%nat /\ stops_raised w1 = 0%nat
  /\ cap (self w2) = None
  /\ thread (self w2) = Some Finished
  /\ released_exactly_once w2.
Proof.
  intros w w1 w2.
  assert (handles_ok w) as Hok.
  { split.
    - intros [|[|i]] v; [|done..]. by intros [= <-].
    - intros i [= <-]. simpl. lia. }
  destruct (stop_releases_once_when_parked w Read 0 (repeat flaky 5) Hok
              eq_refl eq_refl eq_refl)
    as (H1 & H2 & _ & _ & _ & H3 & _ & H4).
  split; [reflexivity|]. split; [reflexivity|]. split; [exact H1|].
  split; [exact H2|]. split; [exact H3|]. split; [reflexivity|]. exact H4.
Defined.

Lemma initialize_cameras_exact l : forall srv,
  let srv' := fold_left initialize_camera l srv in
  threads_started srv'
  = threads_started srv ++ filter (fun c => cam_enabled c = true) l
  /\ forall k,
       cameras srv' !! k
       = match last (filter (fun c => cam_enabled c = true /\ cam_id c = k) l)
         with
         | Some c => Some (start (CameraStream_init c))
         | None => cameras srv !! k
         end.
Proof.
  induction l as [|c l IH]; intros srv.
  { simpl. by rewrite app_nil_r. }
  simpl. destruct (IH (initialize_camera srv c)) as [-> Hk]. split.
  - unfold initialize_camera. rewrite filter_cons.
    destruct (cam_enabled c) eqn:Hen; case_decide; try done.
    simpl. by rewrite <- (assoc_L (++)).
  - intros k. rewrite Hk, filter_cons. case_decide as Hc.
    + destruct Hc as [Hen <-]. rewrite last_cons.
      unfold initialize_camera. rewrite Hen. simpl.
      destruct (last _); [done|]. by rewrite lookup_insert_eq.
    + destruct (last _); [done|]. unfold initialize_camera.
      destruct (cam_enabled c) eqn:Hen; [|done]. simpl.
      rewrite lookup_insert_ne; [done|]. intros Heq. by apply Hc.
Qed.

(** X21. [_initialize_cameras] starts one worker per enabled entry of the
    configuration, in order, and [self.cameras] maps an id to the worker
    of the last enabled entry with that id: when two enabled entries share
    an id, both capture threads are started and the first is no longer
    reachable from [self.cameras]. *)
Theorem initialize_cameras_keeps_last (cfg : Config) (k : string) :
  let srv := serving cfg in
  threads_started srv
  = filter (fun c => cam_enabled c = true) (cameras_of cfg)
  /\ cameras srv !! k
     = (fun c => start (CameraStream_init c))
       <$> last (filter (fun c => cam_enabled c = true /\ cam_id c = k)
                        (cameras_of cfg)).
Proof.
  unfold serving, _initialize_cameras. simpl.
  destruct (initialize_cameras_exact (cameras_of cfg)
              (RTSPWebServer_init (Some cfg))) as [-> Hk].
  split; [done|]. rewrite Hk. by destruct (last _).
Qed.

Example initialize_shared_id :
  let twin := {| cam_id := "cam1"; cam_name := "Garaje";
                 cam_rtsp_url := "rtsp://192.168.1.12/stream1";
                 cam_enabled := true |} in
  let srv := serving (site 30 [cam1; cam2; twin]) in
  threads_started srv = [cam1; twin]
  /\ cameras srv !! "cam1" = Some (start (CameraStream_init twin))
  /\ size (cameras srv) = 1%nat.
Proof. by vm_compute. Qed.

End AppExtra.

(** * Properties of scan_cameras.py *)
Module ScannerProofs.
Import Scanner.

(** X22. [test_rtsp_connection] returns the first of its seven candidate
    URLs, in the order listed, whose ffprobe run exits with code 0, and
    None exactly when none does; a run that raises or times out counts as
    a failure and the next URL is tried. *)
Theorem test_rtsp_connection_first_match (ffprobe : string -> option Z)
    (ip : string) (port : Z) :
  length (test_urls ip port) = 7%nat
  /\ match test_rtsp_connection ffprobe ip port with
     | Some url =>
         exists i, test_urls ip port !! i = Some url
                   /\ ffprobe url = Some 0
                   /\ forall j u, (j < i)%nat ->
                                  test_urls ip port !! j = Some u ->
                                  ffprobe u <> Some 0
     | None => forall u, u ∈ test_urls ip port -> ffprobe u <> Some 0
     end.
Proof.
  split; [done|]. unfold test_rtsp_connection.
  induction (test_urls ip port) as [|url rest IH]; simpl.
  { intros u Hu. by apply not_elem_of_nil in Hu. }
  assert (ffprobe url <> Some 0 ->
          match try_urls ffprobe rest with
          | Some url0 =>
              exists i, (url :: rest) !! i = Some url0
                        /\ ffprobe url0 = Some 0
                        /\ forall j u, (j < i)%nat ->
                                       (url :: rest) !! j = Some u ->
                                       ffprobe u <> Some 0
          | None => forall u, u ∈ url :: rest -> ffprobe u <> Some 0
          end) as Hnext.
  { intros Hne. destruct (try_urls ffprobe rest) as [found|].
    - destruct IH as (i & Hi & H0 & Hbefore). exists (S i).
      split_and!; try done. intros [|j] u Hj; simpl.
      + by intros [= <-].
      + apply Hbefore. lia.
    - intros u [->|Hu]%elem_of_cons; auto. }
  destruct (ffprobe url) as [[| |]|] eqn:Hp; try (by apply Hnext).
  exists 0%nat. split_and!; try done. intros j u Hj. lia.
Qed.

Example test_rtsp_connection_no_password :
  test_rtsp_connection
    (fun url => if String.eqb url "rtsp://admin:@192.168.0.64:554/stream1"
                then Some 0
                else if String.eqb url "rtsp://192.168.0.64:554/stream1"
                     then Some 0 else None)
    "192.168.0.64" 554
  = Some "rtsp://admin:@192.168.0.64:554/stream1".
Proof. by vm_compute. Qed.

End ScannerProofs.
